(** * SEO article generator: job pipeline, job store and content generator

    A shallow embedding of the Python sources
    ([models.py], [serp_analyzer.py], [article_generator.py],
    [job_manager.py], [seo_agent.py]) and the properties of the
    specification proved, or refuted, on it.

    Conventions of the embedding.
    - A Python [str] is a Rocq [string]; one [ascii] stands for one character.
      The functions of [str] are given with their action on ASCII text
      (characters above 127 are taken as uncased symbols that are neither
      white space nor word characters).
    - A Python exception is a value of [exn]; code that may raise returns a
      [result]; code that also reads or writes the job table runs in the
      state-and-exception monad [M].
    - The SQLite table [jobs] is a finite map from the primary key [job_id]
      to rows.  The two TEXT columns that hold [json.dumps] of a nested
      value are modelled by the JSON value itself: [json.loads] inverts
      [json.dumps] on such values.  The same holds for the time stamps,
      stored with [isoformat] and read with [fromisoformat].
    - What comes from outside the program is an oracle of the environment
      [Env]: the decoder [json_loads] applied to the text of the generative
      service, the service itself (its client, which [__init__] sets up, is
      not embedded), [uuid4], the clock, and what pydantic makes of a value
      that has not the type of its field.
    - A Python [float] is a rational number: the keyword density is
      computed exactly, and [round(x, 2)] rounds to hundredths, a tie going
      to the even one.
    - The definitions come first, file by file of the source; then the
      vocabulary of the properties; then the lemmas and the properties. *)

From Stdlib Require Import ZArith QArith String Ascii List Lia Bool Sorted.
From Stdlib Require Import DecimalString.
From stdpp Require Import base option list strings gmap.

Local Open Scope list_scope.
Local Open Scope string_scope.

(** ** Python strings *)

Module PyStr.

Definition code (c : ascii) : nat := nat_of_ascii c.

Definition between (lo hi : nat) (c : ascii) : bool :=
  (lo <=? code c)%nat && (code c <=? hi)%nat.

(** [str.isspace] on ASCII: tab, line feed, vertical tab, form feed,
    carriage return, the separators 0x1c to 0x1f and the space. *)
Definition is_space (c : ascii) : bool := between 9 13 c || between 28 32 c.

Definition is_upper (c : ascii) : bool := between 65 90 c.
Definition is_lower (c : ascii) : bool := between 97 122 c.
Definition is_alpha (c : ascii) : bool := is_upper c || is_lower c.
Definition is_digit (c : ascii) : bool := between 48 57 c.

(** The class [\w] of [re] on ASCII: letters, digits and the underscore. *)
Definition is_word (c : ascii) : bool :=
  is_alpha c || is_digit c || (code c =? 95)%nat.

Definition lower_char (c : ascii) : ascii :=
  if is_upper c then ascii_of_nat (code c + 32) else c.

Definition upper_char (c : ascii) : ascii :=
  if is_lower c then ascii_of_nat (code c - 32) else c.

Fixpoint map_chars (f : ascii -> ascii) (s : string) : string :=
  match s with
  | EmptyString => EmptyString
  | String c s' => String (f c) (map_chars f s')
  end.

(** [s.lower()] *)
Definition lower (s : string) : string := map_chars lower_char s.

(** [s.title()]: a cased character is upper-cased when the character
    before it is not cased, and lower-cased otherwise. *)
Fixpoint title_from (prev_cased : bool) (s : string) : string :=
  match s with
  | EmptyString => EmptyString
  | String c s' =>
      String (if is_alpha c
              then (if prev_cased then lower_char c else upper_char c)
              else c)
             (title_from (is_alpha c) s')
  end.

Definition title (s : string) : string := title_from false s.

Fixpoint rev_onto (s acc : string) : string :=
  match s with
  | EmptyString => acc
  | String c s' => rev_onto s' (String c acc)
  end.

Definition rev (s : string) : string := rev_onto s EmptyString.

(** [s[n:]] and [s[:n]] for [n >= 0]. *)
Fixpoint drop (n : nat) (s : string) : string :=
  match n, s with
  | O, _ => s
  | S _, EmptyString => EmptyString
  | S n', String _ s' => drop n' s'
  end.

Fixpoint take (n : nat) (s : string) : string :=
  match n, s with
  | O, _ => EmptyString
  | S _, EmptyString => EmptyString
  | S n', String c s' => String c (take n' s')
  end.

(** [s[:-n]] for [n > 0]. *)
Definition drop_last (n : nat) (s : string) : string :=
  take (String.length s - n) s.

Definition startswith (p s : string) : bool := String.prefix p s.

Definition endswith (p s : string) : bool := String.prefix (rev p) (rev s).

Fixpoint lstrip (s : string) : string :=
  match s with
  | EmptyString => EmptyString
  | String c s' => if is_space c then lstrip s' else s
  end.

Definition rstrip (s : string) : string := rev (lstrip (rev s)).

(** [s.strip()] *)
Definition strip (s : string) : string := rstrip (lstrip s).

(** [s.split()]: the maximal runs of characters that are not white space.
    [cur] is the run being read. *)
Fixpoint split_from (cur : string) (s : string) : list string :=
  match s with
  | EmptyString => if String.eqb cur "" then [] else [cur]
  | String c s' =>
      if is_space c
      then (if String.eqb cur "" then split_from "" s'
            else cur :: split_from "" s')
      else split_from (cur ++ String c "") s'
  end.

Definition split (s : string) : list string := split_from "" s.

(** [s.count(sub)]: the occurrences of [sub] in [s] that do not overlap,
    read from the left.  After a match the scan resumes behind it, so the
    next [skip] characters start no match.  The empty string occurs
    between any two characters and at both ends. *)
Fixpoint count_from (skip : nat) (sub s : string) : nat :=
  match s with
  | EmptyString => 0
  | String _ s' =>
      match skip with
      | S k => count_from k sub s'
      | O => if String.prefix sub s
             then S (count_from (String.length sub - 1) sub s')
             else count_from 0 sub s'
      end
  end.

Definition count (sub s : string) : nat :=
  if String.eqb sub "" then S (String.length s) else count_from 0 sub s.

(** [sep.join(l)] *)
Fixpoint join (sep : string) (l : list string) : string :=
  match l with
  | [] => ""
  | [x] => x
  | x :: l' => x ++ sep ++ join sep l'
  end.

(** [str(n)] for an int [n >= 0], as an f-string prints it. *)
Definition of_nat (n : nat) : string := NilEmpty.string_of_uint (Nat.to_uint n).

End PyStr.

(** ** Exceptions and results *)

(** A raised exception: its class and [str(e)]. *)
Record exn := Exn { exn_class : string; exn_str : string }.

Inductive result (A : Type) : Type :=
| Ok (a : A)
| Raise (e : exn).

Arguments Ok {A} a.
Arguments Raise {A} e.

Definition rbind {A B : Type} (r : result A) (k : A -> result B) : result B :=
  match r with
  | Ok a => k a
  | Raise e => Raise e
  end.

Notation "'let*' x ':=' r 'in' k" := (rbind r (fun x => k))
  (at level 10, x name, r at level 100, k at level 200).

Fixpoint rmap {A B : Type} (f : A -> result B) (l : list A) : result (list B) :=
  match l with
  | [] => Ok []
  | a :: l' =>
      match f a with
      | Raise e => Raise e
      | Ok b =>
          match rmap f l' with
          | Raise e => Raise e
          | Ok bs => Ok (b :: bs)
          end
      end
  end.

(** ** JSON values, as [json.loads] returns them and [json.dumps] takes them *)

#[warnings="-register-all"]
Inductive json : Type :=
| JNull
| JBool (b : bool)
| JInt (z : Z)
| JFloat (q : Q)
| JStr (s : string)
| JArr (l : list json)
| JObj (items : list (string * json)).

Fixpoint assoc (k : string) (items : list (string * json)) : option json :=
  match items with
  | [] => None
  | (k', v) :: rest => if String.eqb k k' then Some v else assoc k rest
  end.

(** The JSON types of the fields of the models. *)
Inductive ftype := TStr | TInt | TFloat.

(** ** The environment of the program *)

(** Everything the program gets from outside itself.  [service n prompt] is
    the outcome of the [n]-th request to the generative service, [uuid4 n]
    the [n]-th identifier drawn and [utcnow n] the [n]-th reading of the
    clock, in microseconds.  [library_text] is the message of an error that
    the interpreter or pydantic raises by itself, by the place that raises
    it.  [coerce] is what pydantic makes of a value that has not the JSON
    type of its field: a converted value, or nothing when it refuses. *)
Record Env := {
  json_loads : string -> option json;
  service : nat -> string -> result string;
  uuid4 : nat -> string;
  utcnow : nat -> Z;
  library_text : string -> string;
  coerce : ftype -> json -> option json
}.

Definition TypeError (E : Env) (place : string) : exn :=
  Exn "TypeError" (library_text E place).
Definition AttributeError (E : Env) (place : string) : exn :=
  Exn "AttributeError" (library_text E place).
Definition ValidationError (E : Env) (place : string) : exn :=
  Exn "ValidationError" (library_text E place).

(** [str(KeyError(k))] is the [repr] of the key. *)
Definition KeyError (k : string) : exn := Exn "KeyError" ("'" ++ k ++ "'").
Definition ValueError (msg : string) : exn := Exn "ValueError" msg.

(** ** The models of [models.py] *)

(** Validation of a field by pydantic. *)
Section Fields.
Context (E : Env).

Definition str_field (place : string) (v : json) : result string :=
  match v with
  | JStr s => Ok s
  | JNull | JArr _ | JObj _ => Raise (ValidationError E place)
  | _ => match coerce E TStr v with
         | Some (JStr s) => Ok s
         | _ => Raise (ValidationError E place)
         end
  end.

Definition int_field (place : string) (v : json) : result Z :=
  match v with
  | JInt z => Ok z
  | JNull | JArr _ | JObj _ => Raise (ValidationError E place)
  | _ => match coerce E TInt v with
         | Some (JInt z) => Ok z
         | _ => Raise (ValidationError E place)
         end
  end.

Definition float_field (place : string) (v : json) : result Q :=
  match v with
  | JFloat q => Ok q
  | JInt z => Ok (inject_Z z)
  | JNull | JArr _ | JObj _ => Raise (ValidationError E place)
  | _ => match coerce E TFloat v with
         | Some (JFloat q) => Ok q
         | _ => Raise (ValidationError E place)
         end
  end.

(** [Optional[str] = None] *)
Definition opt_str_field (place : string) (v : option json)
  : result (option string) :=
  match v with
  | None | Some JNull => Ok None
  | Some v' => let* s := str_field place v' in Ok (Some s)
  end.

(** [List[T]] *)
Definition list_field {A : Type} (place : string)
    (elem : json -> result A) (v : json) : result (list A) :=
  match v with
  | JArr l => rmap elem l
  | _ => Raise (ValidationError E place)
  end.

(** A field that holds a model takes a dict of the model's fields. *)
Definition model_field {A : Type} (place : string)
    (parse : list (string * json) -> result A) (v : json) : result A :=
  match v with
  | JObj items => parse items
  | _ => Raise (ValidationError E place)
  end.

(** A field without a default must be given. *)
Definition required (place k : string) (items : list (string * json))
  : result json :=
  match assoc k items with
  | Some v => Ok v
  | None => Raise (ValidationError E place)
  end.

End Fields.

Inductive JobStatus := PENDING | RUNNING | COMPLETED | FAILED.

#[global] Instance JobStatus_eq_dec : EqDecision JobStatus.
Proof. solve_decision. Defined.

Module Status.
(** [status.value] and [JobStatus(text)] *)
Definition value (s : JobStatus) : string :=
  match s with
  | PENDING => "pending"
  | RUNNING => "running"
  | COMPLETED => "completed"
  | FAILED => "failed"
  end.

Definition of_value (v : string) : result JobStatus :=
  if String.eqb v "pending" then Ok PENDING
  else if String.eqb v "running" then Ok RUNNING
  else if String.eqb v "completed" then Ok COMPLETED
  else if String.eqb v "failed" then Ok FAILED
  else Raise (ValueError ("'" ++ v ++ "' is not a valid JobStatus")).
End Status.

Module SERPResult.
Record t := mk { rank : Z; url : string; title : string; snippet : string }.

Definition dict (r : t) : json :=
  JObj [("rank", JInt (rank r)); ("url", JStr (url r));
        ("title", JStr (title r)); ("snippet", JStr (snippet r))].

Definition parse (E : Env) (items : list (string * json)) : result t :=
  let* v1 := required E "SERPResult.rank" "rank" items in
  let* rank := int_field E "SERPResult.rank" v1 in
  let* v2 := required E "SERPResult.url" "url" items in
  let* url := str_field E "SERPResult.url" v2 in
  let* v3 := required E "SERPResult.title" "title" items in
  let* title := str_field E "SERPResult.title" v3 in
  let* v4 := required E "SERPResult.snippet" "snippet" items in
  let* snippet := str_field E "SERPResult.snippet" v4 in
  Ok (mk rank url title snippet).
End SERPResult.

Module SERPData.
Record t := mk { query : string; results : list SERPResult.t }.

Definition dict (d : t) : json :=
  JObj [("query", JStr (query d));
        ("results", JArr (map SERPResult.dict (results d)))].

Definition parse (E : Env) (items : list (string * json)) : result t :=
  let* v1 := required E "SERPData.query" "query" items in
  let* query := str_field E "SERPData.query" v1 in
  let* v2 := required E "SERPData.results" "results" items in
  let* results :=
    list_field E "SERPData.results"
      (model_field E "SERPData.results" (SERPResult.parse E)) v2 in
  Ok (mk query results).
End SERPData.

Module KeywordAnalysis.
Record t := mk {
  primary_keyword : string;
  secondary_keywords : list string;
  keyword_density : Q
}.

Definition dict (k : t) : json :=
  JObj [("primary_keyword", JStr (primary_keyword k));
        ("secondary_keywords", JArr (map JStr (secondary_keywords k)));
        ("keyword_density", JFloat (keyword_density k))].

(** [KeywordAnalysis(primary_keyword=.., secondary_keywords=..,
    keyword_density=..)] *)
Definition validate (E : Env) (pk sk kd : json) : result t :=
  let* pk' := str_field E "KeywordAnalysis.primary_keyword" pk in
  let* sk' := list_field E "KeywordAnalysis.secondary_keywords"
                (str_field E "KeywordAnalysis.secondary_keywords") sk in
  let* kd' := float_field E "KeywordAnalysis.keyword_density" kd in
  Ok (mk pk' sk' kd').

Definition parse (E : Env) (items : list (string * json)) : result t :=
  let* pk := required E "KeywordAnalysis.primary_keyword" "primary_keyword" items in
  let* sk := required E "KeywordAnalysis.secondary_keywords" "secondary_keywords" items in
  let* kd := required E "KeywordAnalysis.keyword_density" "keyword_density" items in
  validate E pk sk kd.
End KeywordAnalysis.

Module InternalLink.
Record t := mk { anchor_text : string; target_page : string; context : string }.

Definition dict (l : t) : json :=
  JObj [("anchor_text", JStr (anchor_text l));
        ("target_page", JStr (target_page l));
        ("context", JStr (context l))].

(** The constructor applied to the items of a dict; keys that name no
    field are ignored. *)
Definition parse (E : Env) (items : list (string * json)) : result t :=
  let* v1 := required E "InternalLink.anchor_text" "anchor_text" items in
  let* a := str_field E "InternalLink.anchor_text" v1 in
  let* v2 := required E "InternalLink.target_page" "target_page" items in
  let* p := str_field E "InternalLink.target_page" v2 in
  let* v3 := required E "InternalLink.context" "context" items in
  let* c := str_field E "InternalLink.context" v3 in
  Ok (mk a p c).
End InternalLink.

Module ExternalReference.
Record t := mk { source_name : string; url : string; context : string }.

Definition dict (r : t) : json :=
  JObj [("source_name", JStr (source_name r));
        ("url", JStr (url r));
        ("context", JStr (context r))].

Definition parse (E : Env) (items : list (string * json)) : result t :=
  let* v1 := required E "ExternalReference.source_name" "source_name" items in
  let* n := str_field E "ExternalReference.source_name" v1 in
  let* v2 := required E "ExternalReference.url" "url" items in
  let* u := str_field E "ExternalReference.url" v2 in
  let* v3 := required E "ExternalReference.context" "context" items in
  let* c := str_field E "ExternalReference.context" v3 in
  Ok (mk n u c).
End ExternalReference.

Module SEOMetadata.
Record t := mk { title_tag : string; meta_description : string }.

Definition dict (m : t) : json :=
  JObj [("title_tag", JStr (title_tag m));
        ("meta_description", JStr (meta_description m))].

(** [validate_title_length] and [validate_description_length], which
    repeat the [max_length] of the two fields. *)
Definition validate_title_length (v : string) : result string :=
  if (60 <? String.length v)%nat
  then Raise (ValueError "Title tag must be 60 characters or less")
  else Ok v.

Definition validate_description_length (v : string) : result string :=
  if (160 <? String.length v)%nat
  then Raise (ValueError "Meta description must be 160 characters or less")
  else Ok v.

(** [SEOMetadata(title_tag=.., meta_description=..)]: a validator that
    raises makes the constructor raise a [ValidationError]. *)
Definition validate (E : Env) (tt md : json) : result t :=
  let* tt' := str_field E "SEOMetadata.title_tag" tt in
  let* md' := str_field E "SEOMetadata.meta_description" md in
  match validate_title_length tt', validate_description_length md' with
  | Ok a, Ok b => Ok (mk a b)
  | Raise _, _ => Raise (ValidationError E "SEOMetadata.title_tag")
  | _, Raise _ => Raise (ValidationError E "SEOMetadata.meta_description")
  end.

Definition parse (E : Env) (items : list (string * json)) : result t :=
  let* tt := required E "SEOMetadata.title_tag" "title_tag" items in
  let* md := required E "SEOMetadata.meta_description" "meta_description" items in
  validate E tt md.

(** What the class guarantees of its instances. *)
Definition valid (m : t) : Prop :=
  (String.length (title_tag m) <= 60)%nat /\
  (String.length (meta_description m) <= 160)%nat.
End SEOMetadata.

Module OutlineSection.
(** A section of the outline: the dict [{h2: str, h3: List[str]}] that
    the description of the field [sections] states, and the only shape
    that the program builds. *)
Record t := mk { h2 : string; h3 : list string }.

Definition dict (s : t) : json :=
  JObj [("h2", JStr (h2 s)); ("h3", JArr (map JStr (h3 s)))].

Definition parse (E : Env) (items : list (string * json)) : result t :=
  let* v1 := required E "sections.h2" "h2" items in
  let* a := str_field E "sections.h2" v1 in
  let* v2 := required E "sections.h3" "h3" items in
  let* b := list_field E "sections.h3" (str_field E "sections.h3") v2 in
  Ok (mk a b).
End OutlineSection.

Module ArticleOutline.
Record t := mk { h1 : string; sections : list OutlineSection.t }.

Definition dict (o : t) : json :=
  JObj [("h1", JStr (h1 o));
        ("sections", JArr (map OutlineSection.dict (sections o)))].

Definition parse (E : Env) (items : list (string * json)) : result t :=
  let* v1 := required E "ArticleOutline.h1" "h1" items in
  let* a := str_field E "ArticleOutline.h1" v1 in
  let* v2 := required E "ArticleOutline.sections" "sections" items in
  let* b := list_field E "ArticleOutline.sections"
              (model_field E "ArticleOutline.sections" (OutlineSection.parse E)) v2 in
  Ok (mk a b).
End ArticleOutline.

Module GeneratedArticle.
Record t := mk {
  content : string;
  outline : ArticleOutline.t;
  seo_metadata : SEOMetadata.t;
  keyword_analysis : KeywordAnalysis.t;
  internal_links : list InternalLink.t;
  external_references : list ExternalReference.t;
  word_count : Z;
  faq_section : option string
}.

Definition dict (a : t) : json :=
  JObj [("content", JStr (content a));
        ("outline", ArticleOutline.dict (outline a));
        ("seo_metadata", SEOMetadata.dict (seo_metadata a));
        ("keyword_analysis", KeywordAnalysis.dict (keyword_analysis a));
        ("internal_links", JArr (map InternalLink.dict (internal_links a)));
        ("external_references",
           JArr (map ExternalReference.dict (external_references a)));
        ("word_count", JInt (word_count a));
        ("faq_section",
           match faq_section a with Some s => JStr s | None => JNull end)].

(** The constructor called with models already built for the nested
    fields, as [_parse_article_response] calls it. *)
Definition validate (E : Env) (content : json) (outline : ArticleOutline.t)
    (seo : SEOMetadata.t) (ka : KeywordAnalysis.t)
    (links : list InternalLink.t) (refs : list ExternalReference.t)
    (wc : Z) (faq : option json) : result t :=
  let* c := str_field E "GeneratedArticle.content" content in
  let* f := opt_str_field E "GeneratedArticle.faq_section" faq in
  Ok (mk c outline seo ka links refs wc f).

(** The constructor applied to the items of a dict. *)
Definition parse (E : Env) (items : list (string * json)) : result t :=
  let* v1 := required E "GeneratedArticle.content" "content" items in
  let* c := str_field E "GeneratedArticle.content" v1 in
  let* v2 := required E "GeneratedArticle.outline" "outline" items in
  let* o := model_field E "GeneratedArticle.outline" (ArticleOutline.parse E) v2 in
  let* v3 := required E "GeneratedArticle.seo_metadata" "seo_metadata" items in
  let* s := model_field E "GeneratedArticle.seo_metadata" (SEOMetadata.parse E) v3 in
  let* v4 := required E "GeneratedArticle.keyword_analysis" "keyword_analysis" items in
  let* k := model_field E "GeneratedArticle.keyword_analysis"
              (KeywordAnalysis.parse E) v4 in
  let* v5 := required E "GeneratedArticle.internal_links" "internal_links" items in
  let* l := list_field E "GeneratedArticle.internal_links"
              (model_field E "GeneratedArticle.internal_links"
                 (InternalLink.parse E)) v5 in
  let* v6 := required E "GeneratedArticle.external_references"
               "external_references" items in
  let* r := list_field E "GeneratedArticle.external_references"
              (model_field E "GeneratedArticle.external_references"
                 (ExternalReference.parse E)) v6 in
  let* v7 := required E "GeneratedArticle.word_count" "word_count" items in
  let* w := int_field E "GeneratedArticle.word_count" v7 in
  let* f := opt_str_field E "GeneratedArticle.faq_section"
              (assoc "faq_section" items) in
  Ok (mk c o s k l r w f).

Definition valid (a : t) : Prop := SEOMetadata.valid (seo_metadata a).
End GeneratedArticle.

Module ArticleRequest.
Record t := mk { topic : string; target_word_count : Z; language : string }.
End ArticleRequest.

Module GenerationJob.
(** [created_at] and [updated_at] are instants in microseconds. *)
Record t := mk {
  job_id : string;
  status : JobStatus;
  request : ArticleRequest.t;
  serp_data : option SERPData.t;
  article : option GeneratedArticle.t;
  error_message : option string;
  created_at : Z;
  updated_at : Z
}.

Definition set_status (s : JobStatus) (j : t) : t :=
  mk (job_id j) s (request j) (serp_data j) (article j) (error_message j)
     (created_at j) (updated_at j).
Definition set_serp_data (d : option SERPData.t) (j : t) : t :=
  mk (job_id j) (status j) (request j) d (article j) (error_message j)
     (created_at j) (updated_at j).
Definition set_article (a : option GeneratedArticle.t) (j : t) : t :=
  mk (job_id j) (status j) (request j) (serp_data j) a (error_message j)
     (created_at j) (updated_at j).
Definition set_error_message (m : option string) (j : t) : t :=
  mk (job_id j) (status j) (request j) (serp_data j) (article j) m
     (created_at j) (updated_at j).
Definition set_updated_at (u : Z) (j : t) : t :=
  mk (job_id j) (status j) (request j) (serp_data j) (article j)
     (error_message j) (created_at j) u.

(** What the classes of the nested values guarantee. *)
Definition valid (j : t) : Prop :=
  match article j with
  | Some a => GeneratedArticle.valid a
  | None => True
  end.
End GenerationJob.

(** ** [serp_analyzer.py] *)

Module Regex.
(** [re.findall(r'\b[a-zA-Z]{4,}\b', s)], as the backtracking matcher of
    [re] runs it. *)

Definition word_char (c : option ascii) : bool :=
  match c with
  | Some a => PyStr.is_word a
  | None => false
  end.

(** [\b] between two neighbours; the ends of the text count as characters
    that are no word characters. *)
Definition boundary (before after : option ascii) : bool :=
  xorb (word_char before) (word_char after).

(** The number of letters that [s] starts with: what the greedy
    [[a-zA-Z]{4,}] takes first. *)
Fixpoint run_length (s : string) : nat :=
  match s with
  | EmptyString => 0
  | String c s' => if PyStr.is_alpha c then S (run_length s') else 0
  end.

(** The closing [\b] after [k] letters of [s]. *)
Definition boundary_after (k : nat) (s : string) : bool :=
  boundary (String.get (k - 1) s) (String.get k s).

(** The quantifier gives letters back one at a time, down to four. *)
Fixpoint backtrack (k : nat) (s : string) : option string :=
  match k with
  | O => None
  | S k' =>
      if (4 <=? k)%nat && boundary_after k s
      then Some (PyStr.take k s)
      else backtrack k' s
  end.

(** A match that starts at the head of [s], [prev] being the character
    before it. *)
Definition match_here (prev : option ascii) (s : string) : option string :=
  if boundary prev (String.get 0 s) then backtrack (run_length s) s else None.

(** The scan: after a match it resumes behind the match, which is to
    skip the rest of the matched text. *)
Fixpoint findall_from (prev : option ascii) (skip : nat) (s : string)
  : list string :=
  match s with
  | EmptyString => []
  | String c s' =>
      match skip with
      | S k => findall_from (Some c) k s'
      | O =>
          match match_here prev s with
          | Some w => w :: findall_from (Some c) (String.length w - 1) s'
          | None => findall_from (Some c) 0 s'
          end
      end
  end.

Definition findall (s : string) : list string := findall_from None 0 s.
End Regex.

Module Counter.
(** [collections.Counter]: a dict from element to count, in the order in
    which the elements were first met. *)
Fixpoint add (w : string) (c : list (string * nat)) : list (string * nat) :=
  match c with
  | [] => [(w, 1)]
  | (k, n) :: c' => if String.eqb k w then (k, S n) :: c' else (k, n) :: add w c'
  end.

Definition of_list (l : list string) : list (string * nat) :=
  fold_left (fun c w => add w c) l [].

(** [sorted(items, key=itemgetter(1), reverse=True)], a stable sort: an
    item goes behind the items of a count at least its own. *)
Fixpoint insert (x : string * nat) (l : list (string * nat))
  : list (string * nat) :=
  match l with
  | [] => [x]
  | y :: l' => if (snd y <? snd x)%nat then x :: y :: l' else y :: insert x l'
  end.

Definition sorted_desc (l : list (string * nat)) : list (string * nat) :=
  fold_left (fun acc x => insert x acc) l [].

(** [most_common(n)] is [heapq.nlargest(n, items, key=itemgetter(1))],
    which is the first [n] of the stable descending sort. *)
Definition most_common (n : nat) (c : list (string * nat))
  : list (string * nat) :=
  firstn n (sorted_desc c).
End Counter.

Module SERPAnalyzer.

Definition _generate_mock_serp (query : string) : list SERPResult.t :=
  map (fun i : nat =>
         SERPResult.mk (Z.of_nat i + 1)
           ("https://example" ++ PyStr.of_nat i ++ ".com/article")
           ("Top " ++ PyStr.of_nat (10 + i) ++ " " ++ query
              ++ " - Complete Guide 2025")
           ("Discover the best practices for " ++ query
              ++ ". Learn about tools, strategies, and tips..."))
      (seq 0 10).

Definition get_serp_data (query : string) : SERPData.t :=
  SERPData.mk query (_generate_mock_serp query).

Definition stop_words : list string :=
  ["this"; "that"; "with"; "from"; "have"; "they"; "will"; "your"; "about";
   "their"; "which"; "these"; "best"; "guide"].

Definition is_stop_word (w : string) : bool := existsb (String.eqb w) stop_words.

Definition all_text (serp_data : SERPData.t) : string :=
  PyStr.join " "
    (map (fun r => SERPResult.title r ++ " " ++ SERPResult.snippet r)
         (SERPData.results serp_data)).

Definition meaningful_words (serp_data : SERPData.t) : list string :=
  filter (fun w => negb (is_stop_word w))
         (Regex.findall (PyStr.lower (all_text serp_data))).

(** The result is a dict: its items in the order of insertion. *)
Definition extract_themes (serp_data : SERPData.t) : list (string * nat) :=
  Counter.most_common 20 (Counter.of_list (meaningful_words serp_data)).

Definition generate_outline (serp_data : SERPData.t)
    (themes : list (string * nat)) : ArticleOutline.t :=
  let query := SERPData.query serp_data in
  let h1 := "The Complete Guide to " ++ PyStr.title query in
  let sections :=
    [ OutlineSection.mk ("What is " ++ PyStr.title query ++ "?")
        ["Definition and Overview"; "Why It Matters"; "Key Benefits"];
      OutlineSection.mk ("Top Strategies for " ++ PyStr.title query)
        ["Strategy #1: Foundation"; "Strategy #2: Implementation";
         "Strategy #3: Optimization"];
      OutlineSection.mk "Best Practices and Tips"
        ["Common Mistakes to Avoid"; "Expert Recommendations";
         "Tools and Resources"];
      OutlineSection.mk ("Getting Started with " ++ PyStr.title query)
        ["Step-by-Step Guide"; "Measuring Success"; "Next Steps"] ] in
  ArticleOutline.mk h1 sections.

Definition extract_questions (serp_data : SERPData.t) : list string :=
  let q := SERPData.query serp_data in
  [ "What is " ++ q ++ "?";
    "How do I get started with " ++ q ++ "?";
    "What are the benefits of " ++ q ++ "?";
    "What tools are best for " ++ q ++ "?" ].

End SERPAnalyzer.

(** ** The job table and the monad of the stateful code *)

Module Row.
(** A row of the table [jobs], column by column, but for the primary key
    [job_id]: the table maps the key of a row to the other columns. *)
Record t := mk {
  status : string;
  topic : string;
  target_word_count : Z;
  language : string;
  serp_data : option json;
  article_data : option json;
  error_message : option string;
  created_at : Z;
  updated_at : Z
}.
End Row.

(** The state that the program changes: the table, and how many identifiers,
    clock readings and answers of the service it has used so far. *)
Record World := mkWorld {
  db : gmap string Row.t;
  uuids_drawn : nat;
  clock_reads : nat;
  service_calls : nat
}.

Definition M (A : Type) : Type := World -> result A * World.

Definition ret {A : Type} (a : A) : M A := fun w => (Ok a, w).

Definition raise {A : Type} (e : exn) : M A := fun w => (Raise e, w).

Definition bind {A B : Type} (m : M A) (k : A -> M B) : M B :=
  fun w =>
    match m w with
    | (Ok a, w') => k a w'
    | (Raise e, w') => (Raise e, w')
    end.

Definition lift {A : Type} (r : result A) : M A := fun w => (r, w).

(** [try: body except Exception as e: handler(e)]; what the body wrote
    before it raised stays written. *)
Definition try_except {A : Type} (body : M A) (handler : exn -> M A) : M A :=
  fun w =>
    match body w with
    | (Ok a, w') => (Ok a, w')
    | (Raise e, w') => handler e w'
    end.

Notation "'let!' x ':=' m 'in' k" := (bind m (fun x => k))
  (at level 10, x name, m at level 100, k at level 200).
Notation "'run!' m 'in' k" := (bind m (fun _ => k))
  (at level 10, m at level 100, k at level 200).

(** [datetime.utcnow()] *)
Definition now (E : Env) : M Z :=
  fun w => (Ok (utcnow E (clock_reads w)),
            mkWorld (db w) (uuids_drawn w) (S (clock_reads w)) (service_calls w)).

(** [str(uuid.uuid4())] *)
Definition new_uuid (E : Env) : M string :=
  fun w => (Ok (uuid4 E (uuids_drawn w)),
            mkWorld (db w) (S (uuids_drawn w)) (clock_reads w) (service_calls w)).

(** One request to the generative service: the text of its answer, or the
    exception of the client. *)
Definition call_service (E : Env) (prompt : string) : M string :=
  fun w => (service E (service_calls w) prompt,
            mkWorld (db w) (uuids_drawn w) (clock_reads w) (S (service_calls w))).

(** ** [article_generator.py] *)

Module PyJson.
(** What the interpreter does with a value that [json.loads] returned. *)

(** [d[k]] for a key [k] that is a string. *)
Definition getitem (E : Env) (d : json) (k : string) : result json :=
  match d with
  | JObj items =>
      match assoc k items with
      | Some v => Ok v
      | None => Raise (KeyError k)
      end
  | JArr _ => Raise (TypeError E "list indices must be integers")
  | JStr _ => Raise (TypeError E "string indices must be integers")
  | _ => Raise (TypeError E "object is not subscriptable")
  end.

(** The receiver of a method of [str], such as [v.split()]. *)
Definition str_method (E : Env) (name : string) (v : json) : result string :=
  match v with
  | JStr s => Ok s
  | _ => Raise (AttributeError E name)
  end.

(** [v[:n]].  Slicing a dict raises a [TypeError] up to Python 3.11 and a
    [KeyError] from 3.12 on: the class is left to the environment. *)
Definition slice_to (E : Env) (n : nat) (v : json) : result json :=
  match v with
  | JStr s => Ok (JStr (PyStr.take n s))
  | JArr l => Ok (JArr (firstn n l))
  | JObj _ => Raise (Exn (library_text E "class of dict slice")
                         (library_text E "dict slice"))
  | _ => Raise (TypeError E "object is not subscriptable")
  end.

Fixpoint chars (s : string) : list json :=
  match s with
  | EmptyString => []
  | String c s' => JStr (String c EmptyString) :: chars s'
  end.

(** [for x in v]: a list gives its elements, a dict its keys, a string
    its characters. *)
Definition iterate (E : Env) (v : json) : result (list json) :=
  match v with
  | JArr l => Ok l
  | JObj items => Ok (map (fun kv => JStr (fst kv)) items)
  | JStr s => Ok (chars s)
  | _ => Raise (TypeError E "object is not iterable")
  end.

(** The items that two stars spread into keyword arguments. *)
Definition kwargs (E : Env) (v : json) : result (list (string * json)) :=
  match v with
  | JObj items => Ok items
  | _ => Raise (TypeError E "argument after ** must be a mapping")
  end.

(** [round(x, 2)] for a float [x], computed here on rationals: the nearest
    multiple of a hundredth, a tie going to the even one. *)
Definition round_half_even (x : Q) : Z :=
  let n := Qnum x in
  let d := Zpos (Qden x) in
  let f := (n / d)%Z in
  let r2 := (2 * (n mod d))%Z in
  if (r2 <? d)%Z then f
  else if (d <? r2)%Z then (f + 1)%Z
  else if Z.even f then f else (f + 1)%Z.

Definition round2 (x : Q) : Q := Qmake (round_half_even (x * 100)) 100.

End PyJson.

Module ArticleGenerator.

Definition nl : string := String (ascii_of_nat 10) EmptyString.
Definition dq : string := String (ascii_of_nat 34) EmptyString.

(** [s] between double quotes. *)
Definition quoted (s : string) : string := dq ++ s ++ dq.

(** [str(z)] for an int. *)
Definition str_of_int (z : Z) : string :=
  if (z <? 0)%Z then "-" ++ PyStr.of_nat (Z.to_nat (- z))
  else PyStr.of_nat (Z.to_nat z).

Definition sections_str (outline : ArticleOutline.t) : string :=
  PyStr.join nl
    (map (fun section =>
            "## " ++ OutlineSection.h2 section ++ nl
            ++ PyStr.join nl (map (fun h3 => "### " ++ h3)
                                  (OutlineSection.h3 section)))
         (ArticleOutline.sections outline)).

Definition _create_article_prompt (topic : string) (outline : ArticleOutline.t)
    (target_word_count : Z) (questions : list string) : string :=
  PyStr.join nl
    [ "Generate a complete, SEO-optimized article about " ++ quoted topic ++ ".";
      "";
      "OUTLINE:";
      "# " ++ ArticleOutline.h1 outline;
      "";
      sections_str outline;
      "";
      "REQUIREMENTS:";
      "- Target word count: " ++ str_of_int target_word_count ++ " words";
      "- Write in a natural, engaging style (not robotic)";
      "- Include primary keyword " ++ quoted topic ++ " in the first paragraph";
      "- Use proper HTML heading hierarchy (h1, h2, h3)";
      "- Each section should be substantial and informative";
      "- Include a FAQ section at the end answering: "
        ++ PyStr.join ", " (firstn 3 questions);
      "";
      "OUTPUT FORMAT (must be valid JSON):";
      "{";
      "    " ++ quoted "article_html" ++ ": "
        ++ quoted "Full HTML article with proper heading tags" ++ ",";
      "    " ++ quoted "title_tag" ++ ": "
        ++ quoted "SEO title under 60 chars" ++ ",";
      "    " ++ quoted "meta_description" ++ ": "
        ++ quoted "Meta description under 160 chars" ++ ",";
      "    " ++ quoted "primary_keyword" ++ ": " ++ quoted "main keyword" ++ ",";
      "    " ++ quoted "secondary_keywords" ++ ": [" ++ quoted "keyword1" ++ ", "
        ++ quoted "keyword2" ++ ", " ++ quoted "keyword3" ++ "],";
      "    " ++ quoted "internal_links" ++ ": [";
      "        {" ++ quoted "anchor_text" ++ ": " ++ quoted "text" ++ ", "
        ++ quoted "target_page" ++ ": " ++ quoted "suggested-page-topic" ++ ", "
        ++ quoted "context" ++ ": " ++ quoted "where it fits" ++ "},";
      "        ...3-5 suggestions";
      "    ],";
      "    " ++ quoted "external_references" ++ ": [";
      "        {" ++ quoted "source_name" ++ ": " ++ quoted "Source" ++ ", "
        ++ quoted "url" ++ ": " ++ quoted "https://example.com" ++ ", "
        ++ quoted "context" ++ ": " ++ quoted "what to cite" ++ "},";
      "        ...2-4 authoritative sources";
      "    ],";
      "    " ++ quoted "faq_html" ++ ": " ++ quoted "HTML FAQ section";
      "}";
      "";
      "Generate the article now as JSON only (no markdown code blocks):" ].

(** The dict that stands in for the answer of the service. *)
Definition _create_fallback_article (topic : string) (outline : ArticleOutline.t)
    (target_word_count : Z) : json :=
  JObj
    [ ("article_html",
       JStr ("<h1>" ++ ArticleOutline.h1 outline
             ++ "</h1><p>Article content for " ++ topic ++ "...</p>"));
      ("title_tag", JStr (PyStr.title topic ++ " - Complete Guide"));
      ("meta_description",
       JStr ("Learn everything about " ++ topic
             ++ ". Expert guide with tips and strategies."));
      ("primary_keyword", JStr topic);
      ("secondary_keywords",
       JArr [JStr (topic ++ " guide"); JStr (topic ++ " tips");
             JStr (topic ++ " strategies")]);
      ("internal_links",
       JArr [JObj [("anchor_text", JStr (topic ++ " tools"));
                   ("target_page", JStr (topic ++ "-tools"));
                   ("context", JStr "In tools section")]]);
      ("external_references",
       JArr [JObj [("source_name", JStr "Industry Report");
                   ("url", JStr "https://example.com");
                   ("context", JStr "Cite statistics")]]);
      ("faq_html",
       JStr ("<h2>FAQ</h2><p>Common questions about " ++ topic ++ "</p>")) ].

(** The text between the code fence of Markdown, if the answer has one. *)
Definition clean_response (response : string) : string :=
  let r := PyStr.strip response in
  let r := if PyStr.startswith "```json" r then PyStr.drop 7 r else r in
  let r := if PyStr.startswith "```" r then PyStr.drop 3 r else r in
  let r := if PyStr.endswith "```" r then PyStr.drop_last 3 r else r in
  PyStr.strip r.

(** [data]: the decoded answer, or the fallback when [json.loads] raises
    [JSONDecodeError]. *)
Definition response_data (E : Env) (response topic : string)
    (outline : ArticleOutline.t) (target_word_count : Z) : json :=
  match json_loads E (clean_response response) with
  | Some data => data
  | None => _create_fallback_article topic outline target_word_count
  end.

(** [keyword_density] before it is rounded, and [round(keyword_density, 2)]:
    with no word, the int [0], which [round] leaves an int. *)
Definition keyword_density (primary_count word_count : nat) : Q :=
  if (0 <? word_count)%nat
  then inject_Z (Z.of_nat primary_count) / inject_Z (Z.of_nat word_count) * 100
  else 0.

Definition rounded_density (primary_count word_count : nat) : json :=
  if (0 <? word_count)%nat
  then JFloat (PyJson.round2 (keyword_density primary_count word_count))
  else JInt 0.

(** The article built from [data], in the order in which Python evaluates
    the expressions. *)
Definition article_of_data (E : Env) (data : json) (outline : ArticleOutline.t)
  : result GeneratedArticle.t :=
  let* html := PyJson.getitem E data "article_html" in
  let* text := PyJson.str_method E "split" html in
  let word_count := length (PyStr.split text) in
  let content_lower := PyStr.lower text in
  let* pk := PyJson.getitem E data "primary_keyword" in
  let* pk_text := PyJson.str_method E "lower" pk in
  let primary_count := PyStr.count (PyStr.lower pk_text) content_lower in
  let* tt := PyJson.getitem E data "title_tag" in
  let* tt60 := PyJson.slice_to E 60 tt in
  let* md := PyJson.getitem E data "meta_description" in
  let* md160 := PyJson.slice_to E 160 md in
  let* seo := SEOMetadata.validate E tt60 md160 in
  let* sk := PyJson.getitem E data "secondary_keywords" in
  let* ka := KeywordAnalysis.validate E pk sk
               (rounded_density primary_count word_count) in
  let* il := PyJson.getitem E data "internal_links" in
  let* il_items := PyJson.iterate E il in
  let* links := rmap (fun link => let* kw := PyJson.kwargs E link in
                                  InternalLink.parse E kw) il_items in
  let* er := PyJson.getitem E data "external_references" in
  let* er_items := PyJson.iterate E er in
  let* refs := rmap (fun ref => let* kw := PyJson.kwargs E ref in
                                ExternalReference.parse E kw) er_items in
  let faq := match data with
             | JObj items => assoc "faq_html" items
             | _ => None
             end in
  GeneratedArticle.validate E html outline seo ka links refs
    (Z.of_nat word_count) faq.

Definition _parse_article_response (E : Env) (response topic : string)
    (outline : ArticleOutline.t) (target_word_count : Z)
  : result GeneratedArticle.t :=
  article_of_data E (response_data E response topic outline target_word_count)
    outline.

(** The request to the service is not guarded: its exception leaves the
    method. *)
Definition generate_article (E : Env) (topic : string)
    (outline : ArticleOutline.t) (target_word_count : Z)
    (questions : list string) : M GeneratedArticle.t :=
  let prompt := _create_article_prompt topic outline target_word_count questions in
  let! response_text := call_service E prompt in
  lift (_parse_article_response E response_text topic outline target_word_count).

End ArticleGenerator.

(** ** [job_manager.py] *)

Module JobSummary.
(** An entry of the result of [list_jobs]: the dict with the keys [job_id],
    [status], [topic] and [created_at], which holds the four columns as the
    table has them. *)
Record t := mk {
  job_id : string;
  status : string;
  topic : string;
  created_at : Z
}.
End JobSummary.

Module JobManager.

(** The values that [_save_job] binds to the columns after the key. *)
Definition row_of_job (job : GenerationJob.t) : Row.t :=
  let serp_json := match GenerationJob.serp_data job with
                   | Some d => Some (SERPData.dict d)
                   | None => None
                   end in
  let article_json := match GenerationJob.article job with
                      | Some a => Some (GeneratedArticle.dict a)
                      | None => None
                      end in
  Row.mk (Status.value (GenerationJob.status job))
         (ArticleRequest.topic (GenerationJob.request job))
         (ArticleRequest.target_word_count (GenerationJob.request job))
         (ArticleRequest.language (GenerationJob.request job))
         serp_json
         article_json
         (GenerationJob.error_message job)
         (GenerationJob.created_at job)
         (GenerationJob.updated_at job).

(** [INSERT OR REPLACE]: the row takes the place of the row of the same
    [job_id], if there is one. *)
Definition _save_job (job : GenerationJob.t) : M unit :=
  fun w => (Ok tt,
            mkWorld (<[GenerationJob.job_id job := row_of_job job]> (db w))
                    (uuids_drawn w) (clock_reads w) (service_calls w)).

(** The model built from [json.loads(text)] [if text else None]: the text of
    a JSON value is never empty, so a column that is not NULL is decoded. *)
Definition load_model {A : Type} (E : Env)
    (parse : Env -> list (string * json) -> result A) (column : option json)
  : result (option A) :=
  match column with
  | Some v => let* kw := PyJson.kwargs E v in
              let* a := parse E kw in Ok (Some a)
  | None => Ok None
  end.

Definition _row_to_job (E : Env) (job_id : string) (row : Row.t)
  : result GenerationJob.t :=
  let request := ArticleRequest.mk (Row.topic row) (Row.target_word_count row)
                                   (Row.language row) in
  let* serp_data := load_model E SERPData.parse (Row.serp_data row) in
  let* article := load_model E GeneratedArticle.parse (Row.article_data row) in
  let* status := Status.of_value (Row.status row) in
  Ok (GenerationJob.mk job_id status request serp_data article
        (Row.error_message row) (Row.created_at row) (Row.updated_at row)).

Definition get_job (E : Env) (job_id : string) : M (option GenerationJob.t) :=
  fun w =>
    match db w !! job_id with
    | None => (Ok None, w)
    | Some row =>
        match _row_to_job E job_id row with
        | Ok job => (Ok (Some job), w)
        | Raise e => (Raise e, w)
        end
    end.

Definition create_job (E : Env) (request : ArticleRequest.t) : M GenerationJob.t :=
  let! job_id := new_uuid E in
  let! t := now E in
  let job := GenerationJob.mk job_id PENDING request None None None t t in
  run! _save_job job in
  ret job.

Definition not_found {A : Type} (job_id : string) : M A :=
  raise (ValueError ("Job " ++ job_id ++ " not found")).

(** [if error:] holds for a string that is not empty. *)
Definition truthy (error : option string) : bool :=
  match error with
  | Some s => negb (String.eqb s "")
  | None => false
  end.

Definition update_job_status (E : Env) (job_id : string) (status : JobStatus)
    (error : option string) : M unit :=
  let! found := get_job E job_id in
  match found with
  | None => not_found job_id
  | Some job =>
      let job := GenerationJob.set_status status job in
      let! t := now E in
      let job := GenerationJob.set_updated_at t job in
      let job := if truthy error then GenerationJob.set_error_message error job
                 else job in
      _save_job job
  end.

Definition save_serp_data (E : Env) (job_id : string) (serp_data : SERPData.t)
  : M unit :=
  let! found := get_job E job_id in
  match found with
  | None => not_found job_id
  | Some job =>
      let job := GenerationJob.set_serp_data (Some serp_data) job in
      let! t := now E in
      let job := GenerationJob.set_updated_at t job in
      _save_job job
  end.

Definition save_article (E : Env) (job_id : string) (article : GeneratedArticle.t)
  : M unit :=
  let! found := get_job E job_id in
  match found with
  | None => not_found job_id
  | Some job =>
      let job := GenerationJob.set_article (Some article) job in
      let job := GenerationJob.set_status COMPLETED job in
      let! t := now E in
      let job := GenerationJob.set_updated_at t job in
      _save_job job
  end.

(** [ORDER BY created_at DESC].  The column holds the text of
    [isoformat()], and two such texts of [utcnow()] compare as their
    instants do.  Rows of the same [created_at] come in an order that SQL
    leaves open: here a row goes behind the rows that are not older. *)
Fixpoint insert_row (x : string * Row.t) (l : list (string * Row.t))
  : list (string * Row.t) :=
  match l with
  | [] => [x]
  | y :: l' =>
      if (Row.created_at (snd y) <? Row.created_at (snd x))%Z
      then x :: y :: l'
      else y :: insert_row x l'
  end.

Definition order_by_created_at_desc (rows : list (string * Row.t))
  : list (string * Row.t) :=
  fold_left (fun acc x => insert_row x acc) rows [].

(** [LIMIT ?]: a negative limit is no limit. *)
Definition limit_rows {A : Type} (limit : Z) (rows : list A) : list A :=
  if (limit <? 0)%Z then rows else firstn (Z.to_nat limit) rows.

(** [list_jobs(limit)]; the default of [limit] is 10. *)
Definition list_jobs (limit : Z) : M (list JobSummary.t) :=
  fun w =>
    let rows := limit_rows limit (order_by_created_at_desc (map_to_list (db w))) in
    (Ok (map (fun kr : string * Row.t =>
                JobSummary.mk (fst kr) (Row.status (snd kr)) (Row.topic (snd kr))
                              (Row.created_at (snd kr)))
             rows),
     w).

End JobManager.

(** ** [seo_agent.py] *)

Module SEOAgent.

Definition generate_article (E : Env) (request : ArticleRequest.t)
  : M (option GenerationJob.t) :=
  let! job := JobManager.create_job E request in
  let job_id := GenerationJob.job_id job in
  try_except
    (run! JobManager.update_job_status E job_id RUNNING None in
     let serp_data := SERPAnalyzer.get_serp_data (ArticleRequest.topic request) in
     run! JobManager.save_serp_data E job_id serp_data in
     let themes := SERPAnalyzer.extract_themes serp_data in
     let outline := SERPAnalyzer.generate_outline serp_data themes in
     let questions := SERPAnalyzer.extract_questions serp_data in
     let! article :=
       ArticleGenerator.generate_article E (ArticleRequest.topic request)
         outline (ArticleRequest.target_word_count request) questions in
     run! JobManager.save_article E job_id article in
     JobManager.get_job E job_id)
    (fun e =>
       run! JobManager.update_job_status E job_id FAILED (Some (exn_str e)) in
       raise e).

Definition resume_job (E : Env) (job_id : string) : M (option GenerationJob.t) :=
  let! found := JobManager.get_job E job_id in
  match found with
  | None => JobManager.not_found job_id
  | Some job =>
      if decide (GenerationJob.status job = COMPLETED) then ret (Some job)
      else
        try_except
          (match GenerationJob.serp_data job with
           | Some serp_data =>
               let themes := SERPAnalyzer.extract_themes serp_data in
               let outline := SERPAnalyzer.generate_outline serp_data themes in
               let questions := SERPAnalyzer.extract_questions serp_data in
               let request := GenerationJob.request job in
               let! article :=
                 ArticleGenerator.generate_article E
                   (ArticleRequest.topic request) outline
                   (ArticleRequest.target_word_count request) questions in
               run! JobManager.save_article E job_id article in
               JobManager.get_job E job_id
           | None => generate_article E (GenerationJob.request job)
           end)
          (fun e =>
             run! JobManager.update_job_status E job_id FAILED
                    (Some (exn_str e)) in
             raise e)
  end.

Definition get_job_status (E : Env) (job_id : string) : M GenerationJob.t :=
  let! found := JobManager.get_job E job_id in
  match found with
  | None => JobManager.not_found job_id
  | Some job => ret job
  end.

Definition list_jobs (limit : Z) : M (list JobSummary.t) :=
  JobManager.list_jobs limit.

End SEOAgent.

(** * Vocabulary of the properties *)

(** ** Jobs and worlds of the pipeline *)

(** The world with another table, after one more reading of the clock, and
    after one more request to the service. *)
Definition set_db (d : gmap string Row.t) (w : World) : World :=
  mkWorld d (uuids_drawn w) (clock_reads w) (service_calls w).

Definition tick (w : World) : World :=
  mkWorld (db w) (uuids_drawn w) (S (clock_reads w)) (service_calls w).

Definition called (w : World) : World :=
  mkWorld (db w) (uuids_drawn w) (clock_reads w) (S (service_calls w)).

(** The table holds the job [j] under its own identifier. *)
Definition holds (j : GenerationJob.t) (w : World) : Prop :=
  db w !! GenerationJob.job_id j = Some (JobManager.row_of_job j) /\
  GenerationJob.valid j.

(** [get_job] reads the job [j] under its own identifier. *)
Definition stored (E : Env) (j : GenerationJob.t) (w : World) : Prop :=
  fst (JobManager.get_job E (GenerationJob.job_id j) w) = Ok (Some j).

(** The job that [create_job] builds in the world [w]. *)
Definition created_job (E : Env) (request : ArticleRequest.t) (w : World)
  : GenerationJob.t :=
  let t := utcnow E (clock_reads w) in
  GenerationJob.mk (uuid4 E (uuids_drawn w)) PENDING request None None None t t.

(** The world after [create_job]. *)
Definition created (E : Env) (request : ArticleRequest.t) (w : World) : World :=
  mkWorld (<[uuid4 E (uuids_drawn w) :=
               JobManager.row_of_job (created_job E request w)]> (db w))
          (S (uuids_drawn w)) (S (clock_reads w)) (service_calls w).

(** The job that [update_job_status] writes over [j] in the world [w]. *)
Definition updated_job (E : Env) (status : JobStatus) (error : option string)
    (w : World) (j : GenerationJob.t) : GenerationJob.t :=
  let j1 := GenerationJob.set_updated_at (utcnow E (clock_reads w))
              (GenerationJob.set_status status j) in
  if JobManager.truthy error then GenerationJob.set_error_message error j1 else j1.

(** The jobs that [save_serp_data] and [save_article] write over [j]. *)
Definition with_serp_data (E : Env) (d : SERPData.t) (w : World)
    (j : GenerationJob.t) : GenerationJob.t :=
  GenerationJob.set_updated_at (utcnow E (clock_reads w))
    (GenerationJob.set_serp_data (Some d) j).

Definition with_article (E : Env) (a : GeneratedArticle.t) (w : World)
    (j : GenerationJob.t) : GenerationJob.t :=
  GenerationJob.set_updated_at (utcnow E (clock_reads w))
    (GenerationJob.set_status COMPLETED (GenerationJob.set_article (Some a) j)).

(** The world after a job was written at the cost of one reading of the
    clock. *)
Definition written (j : GenerationJob.t) (w : World) : World :=
  set_db (<[GenerationJob.job_id j := JobManager.row_of_job j]> (db w)) (tick w).

(** The job of [generate_article] when the service is called: created,
    running, with its source data. *)
Definition running_job (E : Env) (request : ArticleRequest.t) (w : World)
  : GenerationJob.t :=
  let j0 := created_job E request w in
  let w1 := created E request w in
  let j1 := updated_job E RUNNING None w1 j0 in
  with_serp_data E (SERPAnalyzer.get_serp_data (ArticleRequest.topic request))
    (written j1 w1) j1.

(** The world in which [generate_article] calls the service. *)
Definition running_world (E : Env) (request : ArticleRequest.t) (w : World)
  : World :=
  let j0 := created_job E request w in
  let w1 := created E request w in
  let j1 := updated_job E RUNNING None w1 j0 in
  written (running_job E request w) (written j1 w1).

(** The call of the content generator by [generate_article] and by
    [resume_job] on source data [d]. *)
Definition generator_call (E : Env) (request : ArticleRequest.t) (d : SERPData.t)
  : M GeneratedArticle.t :=
  ArticleGenerator.generate_article E (ArticleRequest.topic request)
    (SERPAnalyzer.generate_outline d (SERPAnalyzer.extract_themes d))
    (ArticleRequest.target_word_count request)
    (SERPAnalyzer.extract_questions d).

(** How a job [j] ends that is in the table when the generator is called in
    the world [w]: completed with the article, or failed with the error. *)
Definition finish (E : Env) (d : SERPData.t) (j : GenerationJob.t) (w : World)
  : result (option GenerationJob.t) * World :=
  match fst (generator_call E (GenerationJob.request j) d w) with
  | Ok a =>
      let j' := with_article E a (called w) j in
      (Ok (Some j'), written j' (called w))
  | Raise e =>
      let j' := updated_job E FAILED (Some (exn_str e)) (called w) j in
      (Raise e, written j' (called w))
  end.

(** The handler of [resume_job]. *)
Definition resume_handler (E : Env) (job_id : string) (e : exn)
  : M (option GenerationJob.t) :=
  run! JobManager.update_job_status E job_id FAILED (Some (exn_str e)) in
  raise e.


(** The status and the message of the job stored under [job_id]. *)
Definition stored_status (E : Env) (job_id : string) (w : World)
  : option (JobStatus * option string) :=
  match fst (JobManager.get_job E job_id w) with
  | Ok (Some j) => Some (GenerationJob.status j, GenerationJob.error_message j)
  | _ => None
  end.



(** ** Articles *)

(** The density that the article records for the counts [c] and [wc]. *)
Definition recorded_density (primary_count word_count : nat) : Q :=
  if (0 <? word_count)%nat
  then PyJson.round2 (inject_Z (Z.of_nat primary_count)
                      / inject_Z (Z.of_nat word_count) * 100)
  else 0.

(** The article that [_parse_article_response] makes of the fallback dict. *)
Definition fallback_article (topic : string) (outline : ArticleOutline.t)
  : GeneratedArticle.t :=
  let html := "<h1>" ++ ArticleOutline.h1 outline
              ++ "</h1><p>Article content for " ++ topic ++ "...</p>" in
  let wc := length (PyStr.split html) in
  GeneratedArticle.mk html outline
    (SEOMetadata.mk
       (PyStr.take 60 (PyStr.title topic ++ " - Complete Guide"))
       (PyStr.take 160 ("Learn everything about " ++ topic
                        ++ ". Expert guide with tips and strategies.")))
    (KeywordAnalysis.mk topic
       [topic ++ " guide"; topic ++ " tips"; topic ++ " strategies"]
       (recorded_density (PyStr.count (PyStr.lower topic) (PyStr.lower html)) wc))
    [InternalLink.mk (topic ++ " tools") (topic ++ "-tools") "In tools section"]
    [ExternalReference.mk "Industry Report" "https://example.com" "Cite statistics"]
    (Z.of_nat wc)
    (Some ("<h2>FAQ</h2><p>Common questions about " ++ topic ++ "</p>")).

(** ** Sequences of operations *)

(** The operations of the job store and of the agent that write. *)
Inductive op : Type :=
| Create (request : ArticleRequest.t)
| UpdateStatus (job_id : string) (status : JobStatus) (error : option string)
| SaveSourceData (job_id : string) (serp_data : SERPData.t)
| SaveArticle (job_id : string) (article : GeneratedArticle.t)
| StartGeneration (request : ArticleRequest.t)
| ResumeJob (job_id : string).

(** The world after an operation, whether it returned or raised. *)
Definition run_op (E : Env) (o : op) (w : World) : World :=
  match o with
  | Create request => snd (JobManager.create_job E request w)
  | UpdateStatus job_id status error =>
      snd (JobManager.update_job_status E job_id status error w)
  | SaveSourceData job_id serp_data =>
      snd (JobManager.save_serp_data E job_id serp_data w)
  | SaveArticle job_id article => snd (JobManager.save_article E job_id article w)
  | StartGeneration request => snd (SEOAgent.generate_article E request w)
  | ResumeJob job_id => snd (SEOAgent.resume_job E job_id w)
  end.


Definition run_ops (E : Env) (ops : list op) (w : World) : World :=
  fold_left (fun w o => run_op E o w) ops w.


(** The row of [job_id] has the message [m]; it has it with the status
    failed. *)
Definition message_at (job_id m : string) (w : World) : Prop :=
  exists row, db w !! job_id = Some row /\ Row.error_message row = Some m.


(** From [w] to [w'] no message is new; a message that is new is on a
    failed row. *)
Definition quiet (w w' : World) : Prop :=
  forall job_id m, message_at job_id m w' -> message_at job_id m w.


(** ** Runs of characters and tokens *)

(** The maximal runs of characters of the class [p] in [s], from the left;
    [cur] is the run being read. *)
Fixpoint runs_from (p : ascii -> bool) (cur s : string) : list string :=
  match s with
  | EmptyString => if String.eqb cur "" then [] else [cur]
  | String c s' =>
      if p c then runs_from p (cur ++ String c "") s'
      else (if String.eqb cur "" then runs_from p "" s'
            else cur :: runs_from p "" s')
  end.

Fixpoint all_chars (p : ascii -> bool) (s : string) : bool :=
  match s with
  | EmptyString => true
  | String c s' => p c && all_chars p s'
  end.

(** The longest prefix of [s] in the class [p], and what follows it. *)
Fixpoint span_run (p : ascii -> bool) (s : string) : string :=
  match s with
  | EmptyString => EmptyString
  | String c s' => if p c then String c (span_run p s') else EmptyString
  end.

Fixpoint span_rest (p : ascii -> bool) (s : string) : string :=
  match s with
  | EmptyString => EmptyString
  | String c s' => if p c then span_rest p s' else s
  end.

(** [r] is empty or starts with a character outside the class [p]. *)
Definition stops (p : ascii -> bool) (r : string) : bool :=
  match r with
  | EmptyString => true
  | String c _ => negb (p c)
  end.

(** A word of the text: a maximal run of word characters.  A token of
    [extract_themes]: a word that is made of letters only, four at least. *)
Definition word_runs (s : string) : list string := runs_from PyStr.is_word "" s.

Definition is_token (w : string) : bool :=
  all_chars PyStr.is_alpha w && (4 <=? String.length w)%nat.

Definition delimited_tokens (s : string) : list string :=
  filter is_token (word_runs s).




(** Where the scan of the expression goes on behind the word that ends
    before [r]. *)
Definition after_word (r : string) : list string :=
  match r with
  | EmptyString => []
  | String c r' => Regex.findall_from (Some c) 0 r'
  end.

(** ** Counting and ranking *)

(** The number of times that [w] is in [l]. *)
Definition occurrences (l : list string) (w : string) : nat :=
  count_occ string_dec l w.

(** The elements of [l], each once, in the order in which they are first
    met. *)
Definition first_seen (l : list string) : list string :=
  fold_left (fun acc w => if decide (w ∈ acc) then acc else (acc ++ [w])%list) l [].



(** ** Environments and data of the examples *)

(** The text of a JSON object whose article has no word. *)
Definition empty_article_text : string :=
  let q := ArticleGenerator.quoted in
  "{" ++ q "article_html" ++ ": " ++ q "" ++ ", "
  ++ q "title_tag" ++ ": " ++ q "T" ++ ", "
  ++ q "meta_description" ++ ": " ++ q "D" ++ ", "
  ++ q "primary_keyword" ++ ": " ++ q "k" ++ ", "
  ++ q "secondary_keywords" ++ ": [], "
  ++ q "internal_links" ++ ": [], "
  ++ q "external_references" ++ ": []}".

Definition empty_article_dict : json :=
  JObj [("article_html", JStr ""); ("title_tag", JStr "T");
        ("meta_description", JStr "D"); ("primary_keyword", JStr "k");
        ("secondary_keywords", JArr []); ("internal_links", JArr []);
        ("external_references", JArr [])].

(** A decoder that agrees with [json.loads] on the texts of the examples:
    the empty object, the object above, and texts that are no JSON. *)
Definition demo_loads (s : string) : option json :=
  if String.eqb s "{}" then Some (JObj [])
  else if String.eqb s empty_article_text then Some empty_article_dict
  else None.

(** A service that gives the listed outcomes, one request after the other,
    and is out of reach after them. *)
Definition demo_service (outcomes : list (result string)) (n : nat)
    (prompt : string) : result string :=
  nth n outcomes (Raise (Exn "ConnectionError" "service unreachable")).

(** The environment of the examples: identifiers [job-0], [job-1], ..., a
    clock that advances by a millisecond, and a pydantic that converts
    nothing. *)
Definition demo_env (outcomes : list (result string)) : Env := {|
  json_loads := demo_loads;
  service := demo_service outcomes;
  uuid4 := fun n => "job-" ++ PyStr.of_nat n;
  utcnow := fun n => Z.of_nat (1000 * n);
  library_text := fun place => place;
  coerce := fun _ _ => None
|}.

Definition empty_world : World := mkWorld ∅ 0 0 0.

Definition demo_request : ArticleRequest.t :=
  ArticleRequest.mk "content marketing" 800 "en".

(** The article of the examples: the fallback for their topic. *)
Definition demo_outline : ArticleOutline.t :=
  SERPAnalyzer.generate_outline (SERPAnalyzer.get_serp_data "content marketing") [].

Definition demo_article : GeneratedArticle.t :=
  Eval vm_compute in fallback_article "content marketing" demo_outline.


(** A world with one completed job, [job-0], and that job. *)
Definition completed_world : World :=
  snd (SEOAgent.generate_article (demo_env [Ok "not json"]) demo_request
         empty_world).

Definition completed_job : GenerationJob.t :=
  Eval vm_compute in
    match fst (SEOAgent.generate_article (demo_env [Ok "not json"]) demo_request
                 empty_world) with
    | Ok (Some j) => j
    | _ => created_job (demo_env []) demo_request empty_world
    end.

(** A world with one pending job, [job-0], that has no source data. *)
Definition pending_job : GenerationJob.t :=
  created_job (demo_env []) demo_request empty_world.

Definition pending_world : World := created (demo_env []) demo_request empty_world.

(** The service fails once with the message [boom], then answers with a
    text that is no JSON. *)
Definition flaky_env : Env :=
  demo_env [Raise (Exn "ConnectionError" "boom"); Ok "not json"].

(** A generation that fails, and the resumption of its job. *)
Definition fail_then_resume : list op :=
  [StartGeneration demo_request; ResumeJob "job-0"].

(** A result with a word next to digits and a word next to an underscore. *)
Definition digits_data : SERPData.t :=
  SERPData.mk "tips"
    [SERPResult.mk 1 "https://example.com" "python3 tips2025" "web_apps"].

(** ** Writes of the job table *)

(** The steps that change the world.  [create_job] writes a new job under
    the identifier that it draws.  Every other write puts back a job that
    [get_job] has read, with its identifier, its request and its
    [created_at], and with the reading of the clock as [updated_at].  A
    request to the service changes no row. *)
Inductive write_step (E : Env) : World -> World -> Prop :=
| write_create (request : ArticleRequest.t) (w : World) :
    write_step E w (created E request w)
| write_back (j j' : GenerationJob.t) (w : World) :
    stored E j w ->
    GenerationJob.job_id j' = GenerationJob.job_id j ->
    GenerationJob.request j' = GenerationJob.request j ->
    GenerationJob.created_at j' = GenerationJob.created_at j ->
    GenerationJob.updated_at j' = utcnow E (clock_reads w) ->
    write_step E w (written j' w)
| write_call (w : World) :
    write_step E w (called w).

(** Any number of such steps. *)
Definition writes (E : Env) : World -> World -> Prop := rtc (write_step E).

(** The columns of a row that hold the request, and [created_at]. *)
Definition request_columns (row : Row.t) : string * Z * string * Z :=
  (Row.topic row, Row.target_word_count row, Row.language row, Row.created_at row).

(** No identifier that is drawn from the world [w] up to the world [w'] is
    [job_id]. *)
Definition not_drawn (E : Env) (job_id : string) (w w' : World) : Prop :=
  forall n : nat,
    (uuids_drawn w <= n < uuids_drawn w')%nat -> uuid4 E n <> job_id.

(** The clock never goes back. *)
Definition monotone_clock (E : Env) : Prop :=
  forall n m : nat, (n <= m)%nat -> (utcnow E n <= utcnow E m)%Z.

(** Every row was created before it was last updated, and was last updated
    before the readings of the clock that are still to come. *)
Definition timely (E : Env) (w : World) : Prop :=
  forall (job_id : string) (row : Row.t),
    db w !! job_id = Some row ->
    (Row.created_at row <= Row.updated_at row)%Z /\
    forall n : nat, (clock_reads w <= n)%nat -> (Row.updated_at row <= utcnow E n)%Z.

(** ** Tables that the program has written *)

(** [get_job] raises for no identifier: every row of the table decodes. *)
Definition readable (E : Env) (w : World) : Prop :=
  forall job_id : string,
    exists found : option GenerationJob.t,
      fst (JobManager.get_job E job_id w) = Ok found.

(** The articles that the operations of a sequence give to [save_article]
    are within the bounds of the class [SEOMetadata]. *)
Definition saves_valid_articles (ops : list op) : Prop :=
  forall (job_id : string) (article : GeneratedArticle.t),
    In (SaveArticle job_id article) ops -> GeneratedArticle.valid article.

(** From [w] to [w'], the row of an identifier is what it was, or it is the
    row of a job that [get_job] reads. *)
Definition rewritten (E : Env) (w w' : World) : Prop :=
  forall job_id : string,
    db w' !! job_id = db w !! job_id \/
    exists j : GenerationJob.t, GenerationJob.job_id j = job_id /\ stored E j w'.

(** The operations of the agent. *)
Definition is_agent_op (o : op) : bool :=
  match o with
  | StartGeneration _ | ResumeJob _ => true
  | _ => false
  end.

(** A row is completed exactly when it has an article; and so it is for
    every row of the table. *)
Definition completed_with_article (row : Row.t) : Prop :=
  Row.status row = "completed" <-> is_Some (Row.article_data row).

Definition completed_have_articles (w : World) : Prop :=
  forall (job_id : string) (row : Row.t),
    db w !! job_id = Some row -> completed_with_article row.

(** ** Answers of the service *)



(** The keys that [_parse_article_response] reads with [data[key]]. *)
Definition answer_keys : list string :=
  ["article_html"; "primary_keyword"; "title_tag"; "meta_description";
   "secondary_keywords"; "internal_links"; "external_references"].

(** An answer between the code fence of Markdown, with and without the
    name of the language. *)
Definition fenced_json (body : string) : string :=
  "```json" ++ ArticleGenerator.nl ++ body ++ ArticleGenerator.nl ++ "```".

Definition fenced (body : string) : string :=
  "```" ++ ArticleGenerator.nl ++ body ++ ArticleGenerator.nl ++ "```".

(** The data that [_parse_article_response] makes an article of when the
    text that it decodes is [text]. *)
Definition decoded (E : Env) (text topic : string) (outline : ArticleOutline.t)
    (target_word_count : Z) : json :=
  match json_loads E text with
  | Some data => data
  | None => ArticleGenerator._create_fallback_article topic outline target_word_count
  end.

(** An answer of the expected shape, as a text and as [json.loads] decodes
    it, and an environment whose service gives it. *)
Definition full_answer_text : string :=
  let q := ArticleGenerator.quoted in
  "{" ++ q "title_tag" ++ ": " ++ q "Tea" ++ ", "
  ++ q "article_html" ++ ": " ++ q "<h1>Tea</h1><p>Green tea and black tea</p>" ++ ", "
  ++ q "meta_description" ++ ": " ++ q "All about tea" ++ ", "
  ++ q "primary_keyword" ++ ": " ++ q "Tea" ++ ", "
  ++ q "secondary_keywords" ++ ": [" ++ q "green tea" ++ "], "
  ++ q "internal_links" ++ ": [{" ++ q "context" ++ ": " ++ q "intro" ++ ", "
  ++ q "anchor_text" ++ ": " ++ q "tea pots" ++ ", "
  ++ q "target_page" ++ ": " ++ q "pots" ++ "}], "
  ++ q "external_references" ++ ": [{" ++ q "source_name" ++ ": " ++ q "Tea Board"
  ++ ", " ++ q "url" ++ ": " ++ q "https://example.org" ++ ", "
  ++ q "context" ++ ": " ++ q "figures" ++ ", " ++ q "year" ++ ": 2024}], "
  ++ q "faq_html" ++ ": " ++ q "<h2>FAQ</h2>" ++ "}".

Definition full_answer_items : list (string * json) :=
  [("title_tag", JStr "Tea");
   ("article_html", JStr "<h1>Tea</h1><p>Green tea and black tea</p>");
   ("meta_description", JStr "All about tea");
   ("primary_keyword", JStr "Tea");
   ("secondary_keywords", JArr [JStr "green tea"]);
   ("internal_links",
    JArr [JObj [("context", JStr "intro"); ("anchor_text", JStr "tea pots");
                ("target_page", JStr "pots")]]);
   ("external_references",
    JArr [JObj [("source_name", JStr "Tea Board");
                ("url", JStr "https://example.org");
                ("context", JStr "figures"); ("year", JInt 2024)]]);
   ("faq_html", JStr "<h2>FAQ</h2>")].

Definition answer_env : Env := {|
  json_loads := fun s => if String.eqb s full_answer_text
                         then Some (JObj full_answer_items)
                         else if String.eqb s "[]" then Some (JArr [])
                         else if String.eqb s "{}" then Some (JObj [])
                         else None;
  service := fun _ _ => Ok (fenced_json full_answer_text);
  uuid4 := fun n => "job-" ++ PyStr.of_nat n;
  utcnow := fun n => Z.of_nat (1000 * n);
  library_text := fun place => place;
  coerce := fun _ _ => None
|}.

(** ** Listing the jobs *)





(** ** Themes of the fetched data *)

(** The words that [extract_themes] keeps of a text that is in lower case:
    its tokens that are no stop words. *)
Definition kept_words (s : string) : list string :=
  filter (fun w => negb (SERPAnalyzer.is_stop_word w)) (Regex.findall s).

(** The words that [extract_themes] keeps of one result of
    [_generate_mock_serp]: those of the query, which is in the title and in
    the snippet, and those of the fixed text around it. *)
Definition result_words (query : string) : list string :=
  (kept_words (PyStr.lower query) ++ ["complete"; "discover"; "practices"]
   ++ kept_words (PyStr.lower query) ++ ["learn"; "tools"; "strategies"; "tips"])%list.

(** ** A generation that failed *)



(** The row of [job-0] after its generation has failed and was resumed. *)
Definition resumed_row : Row.t :=
  Eval vm_compute in
    match db (run_ops flaky_env fail_then_resume empty_world) !! "job-0" with
    | Some row => row
    | None => JobManager.row_of_job pending_job
    end.


(** * Properties *)

(** ** The model on examples *)

Example title_ex : PyStr.title "content marketing 2x" = "Content Marketing 2X".
Proof. reflexivity. Qed.

Example split_ex : PyStr.split "  a bc   d " = ["a"; "bc"; "d"].
Proof. reflexivity. Qed.

Example count_ex : PyStr.count "aa" "aaaaa" = 2.
Proof. reflexivity. Qed.

Example strip_ex : PyStr.strip "  x y  " = "x y".
Proof. reflexivity. Qed.

Example of_nat_ex : PyStr.of_nat 0 = "0" /\ PyStr.of_nat 19 = "19".
Proof. split; reflexivity. Qed.

Example findall_ex :
  Regex.findall "top 10 tools - guide2025 for a_word, tips!" = ["tools"; "tips"].
Proof. reflexivity. Qed.

Example extract_themes_ex :
  SERPAnalyzer.extract_themes (SERPAnalyzer.get_serp_data "seo tips") =
  [("tips", 30); ("complete", 10); ("discover", 10); ("practices", 10);
   ("learn", 10); ("tools", 10); ("strategies", 10)].
Proof. vm_compute. reflexivity. Qed.

Example round2_ex :
  PyJson.round2 (1 # 8) == 12 # 100 /\ PyJson.round2 (3 # 8) == 38 # 100 /\
  PyJson.round2 (100 # 3) == 3333 # 100.
Proof. repeat split. Qed.

(** ** Reading back what was written *)

Section RoundTrip.
Context (E : Env).

Lemma rmap_map {A B : Type} (f : A -> json) (g : json -> result B) (h : A -> B)
    (l : list A) :
  (forall a, g (f a) = Ok (h a)) -> rmap g (map f l) = Ok (map h l).
Proof.
  intros Hfg. induction l as [|a l IH]; simpl; [reflexivity|].
  rewrite Hfg, IH. reflexivity.
Qed.

Lemma rmap_map_id {A : Type} (f : A -> json) (g : json -> result A) (l : list A) :
  (forall a, g (f a) = Ok a) -> rmap g (map f l) = Ok l.
Proof.
  intros Hfg. rewrite (rmap_map f g (fun a => a)) by assumption.
  rewrite map_id. reflexivity.
Qed.

Lemma SERPResult_parse_dict (r : SERPResult.t) :
  model_field E "SERPData.results" (SERPResult.parse E) (SERPResult.dict r) = Ok r.
Proof. destruct r. reflexivity. Qed.

Lemma SERPData_parse_dict (d : SERPData.t) :
  (let* kw := PyJson.kwargs E (SERPData.dict d) in SERPData.parse E kw) = Ok d.
Proof.
  destruct d as [q rs]. cbn.
  rewrite (rmap_map_id _ _ rs SERPResult_parse_dict). reflexivity.
Qed.

Lemma str_field_JStr (place : string) (l : list string) :
  rmap (str_field E place) (map JStr l) = Ok l.
Proof. apply rmap_map_id. reflexivity. Qed.

Lemma OutlineSection_parse_dict (s : OutlineSection.t) :
  model_field E "ArticleOutline.sections" (OutlineSection.parse E)
    (OutlineSection.dict s) = Ok s.
Proof. destruct s as [a b]. cbn. rewrite str_field_JStr. reflexivity. Qed.

Lemma ArticleOutline_parse_dict (o : ArticleOutline.t) :
  model_field E "GeneratedArticle.outline" (ArticleOutline.parse E)
    (ArticleOutline.dict o) = Ok o.
Proof.
  destruct o as [a b]. cbn.
  rewrite (rmap_map_id _ _ b OutlineSection_parse_dict). reflexivity.
Qed.

Lemma validate_title_length_ok (s : string) :
  (String.length s <= 60)%nat -> SEOMetadata.validate_title_length s = Ok s.
Proof.
  intros H. unfold SEOMetadata.validate_title_length.
  destruct (Nat.ltb_spec 60 (String.length s)); [lia | reflexivity].
Qed.

Lemma validate_description_length_ok (s : string) :
  (String.length s <= 160)%nat -> SEOMetadata.validate_description_length s = Ok s.
Proof.
  intros H. unfold SEOMetadata.validate_description_length.
  destruct (Nat.ltb_spec 160 (String.length s)); [lia | reflexivity].
Qed.

Lemma SEOMetadata_validate_ok (a b : string) :
  (String.length a <= 60)%nat -> (String.length b <= 160)%nat ->
  SEOMetadata.validate E (JStr a) (JStr b) = Ok (SEOMetadata.mk a b).
Proof.
  intros Ha Hb. unfold SEOMetadata.validate. cbn.
  rewrite validate_title_length_ok, validate_description_length_ok by assumption.
  reflexivity.
Qed.

Lemma SEOMetadata_parse_dict (m : SEOMetadata.t) :
  SEOMetadata.valid m ->
  model_field E "GeneratedArticle.seo_metadata" (SEOMetadata.parse E)
    (SEOMetadata.dict m) = Ok m.
Proof.
  destruct m as [a b]. intros [Ha Hb]. cbn in Ha, Hb. cbn.
  apply SEOMetadata_validate_ok; assumption.
Qed.

Lemma KeywordAnalysis_parse_dict (k : KeywordAnalysis.t) :
  model_field E "GeneratedArticle.keyword_analysis" (KeywordAnalysis.parse E)
    (KeywordAnalysis.dict k) = Ok k.
Proof.
  destruct k as [a b c]. cbn. unfold KeywordAnalysis.validate. cbn.
  rewrite str_field_JStr. reflexivity.
Qed.

Lemma InternalLink_parse_dict (l : InternalLink.t) :
  model_field E "GeneratedArticle.internal_links" (InternalLink.parse E)
    (InternalLink.dict l) = Ok l.
Proof. destruct l. reflexivity. Qed.

Lemma ExternalReference_parse_dict (r : ExternalReference.t) :
  model_field E "GeneratedArticle.external_references" (ExternalReference.parse E)
    (ExternalReference.dict r) = Ok r.
Proof. destruct r. reflexivity. Qed.

Lemma assoc_here (k : string) (v : json) (rest : list (string * json)) :
  assoc k ((k, v) :: rest) = Some v.
Proof. simpl. rewrite String.eqb_refl. reflexivity. Qed.

Lemma assoc_next (k k' : string) (v : json) (rest : list (string * json)) :
  String.eqb k k' = false -> assoc k ((k', v) :: rest) = assoc k rest.
Proof. intros H. simpl. rewrite H. reflexivity. Qed.

Ltac find_key :=
  unfold required;
  repeat first [ rewrite assoc_here | rewrite assoc_next by reflexivity ].

Lemma GeneratedArticle_parse_dict (a : GeneratedArticle.t) :
  GeneratedArticle.valid a ->
  (let* kw := PyJson.kwargs E (GeneratedArticle.dict a) in
   GeneratedArticle.parse E kw) = Ok a.
Proof.
  destruct a as [c o s k l r w f]. unfold GeneratedArticle.valid.
  cbn [GeneratedArticle.seo_metadata]. intros Hs.
  unfold GeneratedArticle.dict, PyJson.kwargs, GeneratedArticle.parse.
  cbn [rbind GeneratedArticle.content GeneratedArticle.outline
       GeneratedArticle.seo_metadata GeneratedArticle.keyword_analysis
       GeneratedArticle.internal_links GeneratedArticle.external_references
       GeneratedArticle.word_count GeneratedArticle.faq_section].
  find_key. cbn [rbind str_field].
  rewrite ArticleOutline_parse_dict. cbn [rbind].
  rewrite (SEOMetadata_parse_dict s Hs). cbn [rbind].
  rewrite KeywordAnalysis_parse_dict. cbn [rbind].
  unfold list_field.
  rewrite (rmap_map_id _ _ l InternalLink_parse_dict). cbn [rbind].
  rewrite (rmap_map_id _ _ r ExternalReference_parse_dict). cbn [rbind int_field].
  destruct f; reflexivity.
Qed.

Lemma Status_of_value_value (s : JobStatus) : Status.of_value (Status.value s) = Ok s.
Proof. destruct s; reflexivity. Qed.

Lemma load_serp_data (d : option SERPData.t) :
  JobManager.load_model E SERPData.parse (option_map SERPData.dict d) = Ok d.
Proof.
  destruct d as [d|]; [|reflexivity]. unfold JobManager.load_model.
  cbn [option_map].
  pose proof (SERPData_parse_dict d) as H. unfold rbind in *.
  destruct (PyJson.kwargs E (SERPData.dict d)); [|discriminate].
  rewrite H. reflexivity.
Qed.

Lemma load_article (a : option GeneratedArticle.t) :
  match a with Some a' => GeneratedArticle.valid a' | None => True end ->
  JobManager.load_model E GeneratedArticle.parse
    (option_map GeneratedArticle.dict a) = Ok a.
Proof.
  destruct a as [a|]; [|reflexivity]. intros Hv. unfold JobManager.load_model.
  cbn [option_map].
  pose proof (GeneratedArticle_parse_dict a Hv) as H. unfold rbind in *.
  destruct (PyJson.kwargs E (GeneratedArticle.dict a)); [|discriminate].
  rewrite H. reflexivity.
Qed.

Lemma row_of_job_columns (j : GenerationJob.t) :
  Row.serp_data (JobManager.row_of_job j)
    = option_map SERPData.dict (GenerationJob.serp_data j) /\
  Row.article_data (JobManager.row_of_job j)
    = option_map GeneratedArticle.dict (GenerationJob.article j).
Proof.
  unfold JobManager.row_of_job. cbn.
  destruct (GenerationJob.serp_data j), (GenerationJob.article j); split; reflexivity.
Qed.

Lemma row_to_job_of_job (j : GenerationJob.t) :
  GenerationJob.valid j ->
  JobManager._row_to_job E (GenerationJob.job_id j) (JobManager.row_of_job j) = Ok j.
Proof.
  intros Hv. unfold JobManager._row_to_job.
  destruct (row_of_job_columns j) as [-> ->].
  rewrite load_serp_data, (load_article _ Hv). cbn [rbind].
  unfold JobManager.row_of_job. cbn [Row.status Row.topic
    Row.target_word_count Row.language Row.error_message Row.created_at
    Row.updated_at].
  rewrite Status_of_value_value. cbn [rbind].
  destruct j as [id st [tp twc lang] sd ar em ca ua]. reflexivity.
Qed.

End RoundTrip.

(** ** Steps of the job store *)

Section Store.
Context (E : Env).



Lemma get_job_holds (j : GenerationJob.t) (w : World) :
  holds j w -> JobManager.get_job E (GenerationJob.job_id j) w = (Ok (Some j), w).
Proof.
  intros [Hrow Hv]. unfold JobManager.get_job. rewrite Hrow.
  rewrite (row_to_job_of_job E j Hv). reflexivity.
Qed.

(** [get_job] writes nothing and reads nothing but the table. *)
Lemma get_job_world (job_id : string) (w : World) :
  snd (JobManager.get_job E job_id w) = w.
Proof.
  unfold JobManager.get_job. destruct (db w !! job_id) as [row|]; [|reflexivity].
  destruct (JobManager._row_to_job E job_id row); reflexivity.
Qed.

Lemma get_job_eq (job_id : string) (w : World) :
  JobManager.get_job E job_id w = (fst (JobManager.get_job E job_id w), w).
Proof.
  rewrite <- (get_job_world job_id w) at 3. apply surjective_pairing.
Qed.

Lemma get_job_same_db (job_id : string) (w w' : World) :
  db w = db w' ->
  fst (JobManager.get_job E job_id w) = fst (JobManager.get_job E job_id w').
Proof.
  intros H. unfold JobManager.get_job. rewrite H.
  destruct (db w' !! job_id) as [row|]; [|reflexivity].
  destruct (JobManager._row_to_job E job_id row); reflexivity.
Qed.

Lemma get_job_stored (j : GenerationJob.t) (w : World) :
  stored E j w -> JobManager.get_job E (GenerationJob.job_id j) w = (Ok (Some j), w).
Proof. intros H. rewrite get_job_eq, H. reflexivity. Qed.

Lemma holds_stored (j : GenerationJob.t) (w : World) : holds j w -> stored E j w.
Proof. intros H. unfold stored. rewrite (get_job_holds j w H). reflexivity. Qed.

End Store.

Section StoreSteps.
Context (E : Env).

Lemma holds_written (j : GenerationJob.t) (w : World) :
  GenerationJob.valid j -> holds j (written j w).
Proof. intros Hv. split; [apply lookup_insert_eq | exact Hv]. Qed.

Lemma create_job_eq (request : ArticleRequest.t) (w : World) :
  JobManager.create_job E request w
  = (Ok (created_job E request w),
     mkWorld (<[uuid4 E (uuids_drawn w) :=
                  JobManager.row_of_job (created_job E request w)]> (db w))
             (S (uuids_drawn w)) (S (clock_reads w)) (service_calls w)).
Proof. reflexivity. Qed.

Lemma update_job_status_stored (j : GenerationJob.t) (status : JobStatus)
    (error : option string) (w : World) :
  stored E j w ->
  JobManager.update_job_status E (GenerationJob.job_id j) status error w
  = (Ok tt, written (updated_job E status error w j) w).
Proof.
  intros H. unfold JobManager.update_job_status, bind.
  rewrite (get_job_stored E j w H). unfold updated_job.
  destruct (JobManager.truthy error); reflexivity.
Qed.

Lemma save_serp_data_stored (j : GenerationJob.t) (d : SERPData.t) (w : World) :
  stored E j w ->
  JobManager.save_serp_data E (GenerationJob.job_id j) d w
  = (Ok tt, written (with_serp_data E d w j) w).
Proof.
  intros H. unfold JobManager.save_serp_data, bind.
  rewrite (get_job_stored E j w H). reflexivity.
Qed.

Lemma save_article_stored (j : GenerationJob.t) (a : GeneratedArticle.t) (w : World) :
  stored E j w ->
  JobManager.save_article E (GenerationJob.job_id j) a w
  = (Ok tt, written (with_article E a w j) w).
Proof.
  intros H. unfold JobManager.save_article, bind.
  rewrite (get_job_stored E j w H). reflexivity.
Qed.

End StoreSteps.



(** ** Strings *)

Lemma length_take (n : nat) (s : string) :
  (String.length (PyStr.take n s) <= n)%nat.
Proof.
  revert s. induction n as [|n IH]; intros [|c s]; simpl; try lia.
  specialize (IH s). lia.
Qed.



(** ** The content generator *)

Lemma rbind_Ok {A B : Type} (r : result A) (k : A -> result B) (b : B) :
  rbind r k = Ok b -> exists a, r = Ok a /\ k a = Ok b.
Proof. destruct r as [a|e]; simpl; [eauto | discriminate]. Qed.

Ltac bind_inv H x Hx :=
  apply rbind_Ok in H; destruct H as (x & Hx & H).

Section Generator.
Context (E : Env).

Lemma str_method_Ok (name : string) (v : json) (s : string) :
  PyJson.str_method E name v = Ok s -> v = JStr s.
Proof. destruct v; simpl; congruence. Qed.

Lemma float_field_rounded (place : string) (c wc : nat) :
  float_field E place (ArticleGenerator.rounded_density c wc)
  = Ok (recorded_density c wc).
Proof.
  unfold ArticleGenerator.rounded_density, recorded_density,
    ArticleGenerator.keyword_density.
  destruct (0 <? wc)%nat; reflexivity.
Qed.

Lemma SEOMetadata_validate_Ok (tt md : json) (m : SEOMetadata.t) :
  SEOMetadata.validate E tt md = Ok m -> SEOMetadata.valid m.
Proof.
  unfold SEOMetadata.validate. intros H.
  bind_inv H a Ha. bind_inv H b Hb.
  unfold SEOMetadata.validate_title_length,
    SEOMetadata.validate_description_length in H.
  destruct (Nat.ltb_spec 60 (String.length a)); [discriminate|].
  destruct (Nat.ltb_spec 160 (String.length b)); [discriminate|].
  injection H as <-. split; assumption.
Qed.

Lemma slice_str_field (place : string) (n : nat) (v v' : json) (s : string) :
  PyJson.slice_to E n v = Ok v' -> str_field E place v' = Ok s ->
  exists t, v = JStr t /\ s = PyStr.take n t.
Proof.
  destruct v; simpl; try discriminate.
  - intros [= <-]. simpl. intros [= <-]. eauto.
  - intros [= <-]. simpl. discriminate.
Qed.

(** What an article that [article_of_data] returns is made of. *)
Lemma article_of_data_Ok (data : json) (outline : ArticleOutline.t)
    (a : GeneratedArticle.t) :
  ArticleGenerator.article_of_data E data outline = Ok a ->
  exists text pk tt md,
    PyJson.getitem E data "article_html" = Ok (JStr text) /\
    PyJson.getitem E data "primary_keyword" = Ok (JStr pk) /\
    PyJson.getitem E data "title_tag" = Ok (JStr tt) /\
    PyJson.getitem E data "meta_description" = Ok (JStr md) /\
    GeneratedArticle.content a = text /\
    GeneratedArticle.outline a = outline /\
    GeneratedArticle.word_count a = Z.of_nat (length (PyStr.split text)) /\
    SEOMetadata.title_tag (GeneratedArticle.seo_metadata a) = PyStr.take 60 tt /\
    SEOMetadata.meta_description (GeneratedArticle.seo_metadata a)
      = PyStr.take 160 md /\
    KeywordAnalysis.primary_keyword (GeneratedArticle.keyword_analysis a) = pk /\
    KeywordAnalysis.keyword_density (GeneratedArticle.keyword_analysis a)
      = recorded_density (PyStr.count (PyStr.lower pk) (PyStr.lower text))
          (length (PyStr.split text)).
Proof.
  unfold ArticleGenerator.article_of_data. intros H.
  bind_inv H html Hhtml. bind_inv H text Htext.
  apply str_method_Ok in Htext. subst html.
  bind_inv H pkv Hpk. bind_inv H pk Hpkt.
  apply str_method_Ok in Hpkt. subst pkv.
  bind_inv H ttv Htt. bind_inv H tt60 Htt60.
  bind_inv H mdv Hmd. bind_inv H md160 Hmd160.
  bind_inv H seo Hseo. bind_inv H sk Hsk. bind_inv H ka Hka.
  bind_inv H il Hil. bind_inv H ili Hili. bind_inv H links Hlinks.
  bind_inv H er Her. bind_inv H eri Heri. bind_inv H refs Hrefs.
  unfold GeneratedArticle.validate in H.
  bind_inv H c Hc. bind_inv H f Hf. injection H as <-.
  simpl in Hc. injection Hc as <-.
  unfold SEOMetadata.validate in Hseo.
  bind_inv Hseo t1 Ht1. bind_inv Hseo t2 Ht2.
  destruct (slice_str_field _ _ _ _ _ Htt60 Ht1) as (tt & -> & ->).
  destruct (slice_str_field _ _ _ _ _ Hmd160 Ht2) as (md & -> & ->).
  destruct (SEOMetadata.validate_title_length _) as [x1|] eqn:Hx1; [|discriminate].
  destruct (SEOMetadata.validate_description_length _) as [x2|] eqn:Hx2;
    [|discriminate].
  injection Hseo as <-.
  unfold SEOMetadata.validate_title_length in Hx1.
  unfold SEOMetadata.validate_description_length in Hx2.
  destruct (60 <? _)%nat; [discriminate|]. injection Hx1 as <-.
  destruct (160 <? _)%nat; [discriminate|]. injection Hx2 as <-.
  unfold KeywordAnalysis.validate in Hka.
  bind_inv Hka p Hp. simpl in Hp. injection Hp as <-.
  bind_inv Hka s Hs. bind_inv Hka d Hd. injection Hka as <-.
  rewrite float_field_rounded in Hd. injection Hd as <-.
  exists text, pk, tt, md. cbn. repeat split; reflexivity || assumption.
Qed.




End Generator.

(** ** Articles of the content generator *)

Lemma generator_outcome (E : Env) (topic : string) (outline : ArticleOutline.t)
    (twc : Z) (questions : list string) (w : World) :
  ArticleGenerator.generate_article E topic outline twc questions w
  = (match service E (service_calls w)
             (ArticleGenerator._create_article_prompt topic outline twc questions)
     with
     | Ok text => ArticleGenerator._parse_article_response E text topic outline twc
     | Raise e => Raise e
     end, called w).
Proof.
  unfold ArticleGenerator.generate_article, bind, call_service, lift.
  destruct (service E _ _); reflexivity.
Qed.

Lemma parse_article_response_Ok (E : Env) (response topic : string)
    (outline : ArticleOutline.t) (twc : Z) (a : GeneratedArticle.t) :
  ArticleGenerator._parse_article_response E response topic outline twc = Ok a ->
  GeneratedArticle.valid a.
Proof.
  unfold ArticleGenerator._parse_article_response. intros H.
  destruct (article_of_data_Ok E _ _ _ H)
    as (text & pk & tt & md & _ & _ & _ & _ & _ & _ & _ & Htt & Hmd & _).
  split; [rewrite Htt | rewrite Hmd]; apply length_take.
Qed.





Example density_ex :
  KeywordAnalysis.keyword_density (GeneratedArticle.keyword_analysis demo_article)
  = 2000 # 100.
Proof. vm_compute. reflexivity. Qed.

(** ** The pipeline of the agent *)

Section Pipeline.
Context (E : Env).

Lemma job_id_updated (st : JobStatus) (err : option string) (w : World)
    (j : GenerationJob.t) :
  GenerationJob.job_id (updated_job E st err w j) = GenerationJob.job_id j.
Proof. unfold updated_job. destruct (JobManager.truthy err); reflexivity. Qed.

Lemma valid_updated (st : JobStatus) (err : option string) (w : World)
    (j : GenerationJob.t) :
  GenerationJob.valid j -> GenerationJob.valid (updated_job E st err w j).
Proof. unfold updated_job. destruct (JobManager.truthy err); intros H; exact H. Qed.

Lemma stored_called (j : GenerationJob.t) (w : World) :
  stored E j w -> stored E j (called w).
Proof.
  unfold stored. intros H. rewrite <- H. apply get_job_same_db. reflexivity.
Qed.

Lemma generator_call_world (request : ArticleRequest.t) (d : SERPData.t) (w : World) :
  snd (generator_call E request d w) = called w.
Proof. unfold generator_call. rewrite generator_outcome. reflexivity. Qed.

Lemma generator_call_valid (request : ArticleRequest.t) (d : SERPData.t) (w : World)
    (a : GeneratedArticle.t) :
  fst (generator_call E request d w) = Ok a -> GeneratedArticle.valid a.
Proof.
  unfold generator_call. rewrite generator_outcome. cbn [fst].
  destruct (service E _ _) as [text|e]; [|discriminate].
  apply parse_article_response_Ok.
Qed.

(** From the call of the generator to the end, for a job that the table
    holds: the common end of [generate_article] and [resume_job]. *)
Lemma finish_eq (d : SERPData.t) (j : GenerationJob.t) (w : World) :
  stored E j w ->
  try_except
    (let! article := generator_call E (GenerationJob.request j) d in
     run! JobManager.save_article E (GenerationJob.job_id j) article in
     JobManager.get_job E (GenerationJob.job_id j))
    (fun e =>
       run! JobManager.update_job_status E (GenerationJob.job_id j) FAILED
              (Some (exn_str e)) in
       raise e) w
  = finish E d j w.
Proof.
  intros H. unfold try_except, bind, finish.
  pose proof (generator_call_world (GenerationJob.request j) d w) as Hw.
  pose proof (generator_call_valid (GenerationJob.request j) d w) as Hv.
  destruct (generator_call E (GenerationJob.request j) d w) as [[a|e] w1].
  - cbn [fst snd] in *. subst w1.
    rewrite (save_article_stored E j a (called w) (stored_called j w H)).
    assert (Hj : holds (with_article E a (called w) j)
                   (written (with_article E a (called w) j) (called w))).
    { apply holds_written. exact (Hv a eq_refl). }
    change (GenerationJob.job_id j)
      with (GenerationJob.job_id (with_article E a (called w) j)).
    rewrite (get_job_holds E _ _ Hj). reflexivity.
  - cbn [fst snd] in *. subst w1.
    rewrite (update_job_status_stored E j FAILED _ (called w) (stored_called j w H)).
    reflexivity.
Qed.

Lemma holds_running (request : ArticleRequest.t) (w : World) :
  holds (running_job E request w) (running_world E request w).
Proof. apply holds_written. exact I. Qed.

Lemma bind_Ok {A B : Type} (m : M A) (k : A -> M B) (w w' : World) (a : A) :
  m w = (Ok a, w') -> bind m k w = k a w'.
Proof. intros H. unfold bind. rewrite H. reflexivity. Qed.

Lemma try_except_bind_Ok {A B : Type} (m : M A) (k : A -> M B)
    (h : exn -> M B) (w w' : World) (a : A) :
  m w = (Ok a, w') -> try_except (bind m k) h w = try_except (k a) h w'.
Proof. intros H. unfold try_except, bind. rewrite H. reflexivity. Qed.

Lemma generate_article_eq (request : ArticleRequest.t) (w : World) :
  SEOAgent.generate_article E request w
  = finish E (SERPAnalyzer.get_serp_data (ArticleRequest.topic request))
      (running_job E request w) (running_world E request w).
Proof.
  rewrite <- (finish_eq _ _ _ (holds_stored E _ _ (holds_running request w))).
  unfold SEOAgent.generate_article.
  rewrite (bind_Ok _ _ _ _ _ (create_job_eq E request w)).
  fold (created E request w).
  set (j0 := created_job E request w). set (w1 := created E request w).
  assert (H0 : holds j0 w1).
  { split; [apply lookup_insert_eq | exact I]. }
  rewrite (try_except_bind_Ok _ _ _ _ _ _
             (update_job_status_stored E j0 RUNNING None w1
                (holds_stored E j0 w1 H0))).
  set (j1 := updated_job E RUNNING None w1 j0).
  assert (H1 : holds j1 (written j1 w1)).
  { apply holds_written. exact I. }
  rewrite (try_except_bind_Ok _ _ _ _ _ _
             (save_serp_data_stored E j1
                (SERPAnalyzer.get_serp_data (ArticleRequest.topic request))
                (written j1 w1) (holds_stored E j1 _ H1))).
  reflexivity.
Qed.

End Pipeline.

Section Agent.
Context (E : Env).

Lemma stored_status_holds (j : GenerationJob.t) (w : World) :
  holds j w ->
  stored_status E (GenerationJob.job_id j) w
  = Some (GenerationJob.status j, GenerationJob.error_message j).
Proof.
  intros H. unfold stored_status. rewrite (get_job_holds E j w H). reflexivity.
Qed.


End Agent.




(** [resume_job] returns at once when the job is completed. *)
Lemma resume_job_completed (E : Env) (job_id : string)
    (j : GenerationJob.t) (w : World) :
  fst (JobManager.get_job E job_id w) = Ok (Some j) ->
  GenerationJob.status j = COMPLETED ->
  SEOAgent.resume_job E job_id w = (Ok (Some j), w).
Proof.
  intros Hget Hst. unfold SEOAgent.resume_job, bind.
  assert (Hw : JobManager.get_job E job_id w = (Ok (Some j), w)).
  { revert Hget. unfold JobManager.get_job.
    destruct (db w !! job_id) as [row|]; [|discriminate].
    destruct (JobManager._row_to_job E job_id row); cbn; congruence. }
  rewrite Hw. destruct (decide (GenerationJob.status j = COMPLETED)); [reflexivity|].
  contradiction.
Qed.

(** C6. [resume_job] on a job that is completed returns the job as it is
    stored and writes nothing: the table, with the time stamps of the job,
    and the counters of the world are what they were. *)
Theorem resume_job_completed_is_noop (E : Env) (job_id : string)
    (j : GenerationJob.t) (w : World) :
  fst (JobManager.get_job E job_id w) = Ok (Some j) ->
  GenerationJob.status j = COMPLETED ->
  SEOAgent.resume_job E job_id w = (Ok (Some j), w) /\
  db (snd (SEOAgent.resume_job E job_id w)) !! job_id = db w !! job_id /\
  fst (JobManager.get_job E job_id (snd (SEOAgent.resume_job E job_id w)))
  = Ok (Some j).
Proof.
  intros Hget Hst.
  assert (Hres : SEOAgent.resume_job E job_id w = (Ok (Some j), w)).
  { unfold SEOAgent.resume_job, bind. rewrite get_job_eq, Hget.
    destruct (decide (GenerationJob.status j = COMPLETED)); [reflexivity|].
    contradiction. }
  rewrite Hres. cbn [snd]. split; [reflexivity|]. split; [reflexivity | exact Hget].
Qed.

Lemma resume_job_completed_is_noop_witness :
  SEOAgent.resume_job (demo_env []) "job-0" completed_world
  = (Ok (Some completed_job), completed_world) /\
  db (snd (SEOAgent.resume_job (demo_env []) "job-0" completed_world)) !! "job-0"
  = db completed_world !! "job-0" /\
  fst (JobManager.get_job (demo_env []) "job-0"
         (snd (SEOAgent.resume_job (demo_env []) "job-0" completed_world)))
  = Ok (Some completed_job).
Proof.
  apply (resume_job_completed_is_noop (demo_env []) "job-0" completed_job
           completed_world); vm_compute; reflexivity.
Defined.

Section Resume.
Context (E : Env).


End Resume.




(** ** Resuming a job *)

Section Decode.
Context (E : Env).

Lemma Status_value_of_value (s : string) (st : JobStatus) :
  Status.of_value s = Ok st -> s = Status.value st.
Proof.
  unfold Status.of_value.
  destruct (String.eqb_spec s "pending"); [intros [= <-]; assumption|].
  destruct (String.eqb_spec s "running"); [intros [= <-]; assumption|].
  destruct (String.eqb_spec s "completed"); [intros [= <-]; assumption|].
  destruct (String.eqb_spec s "failed"); [intros [= <-]; assumption|].
  discriminate.
Qed.

Lemma GeneratedArticle_parse_valid (items : list (string * json))
    (a : GeneratedArticle.t) :
  GeneratedArticle.parse E items = Ok a -> GeneratedArticle.valid a.
Proof.
  unfold GeneratedArticle.parse. intros H.
  bind_inv H v1 H1. bind_inv H c Hc. bind_inv H v2 H2. bind_inv H o Ho.
  bind_inv H v3 H3. bind_inv H s Hs. bind_inv H v4 H4. bind_inv H k Hk.
  bind_inv H v5 H5. bind_inv H l Hl. bind_inv H v6 H6. bind_inv H r Hr.
  bind_inv H v7 H7. bind_inv H wc Hwc. bind_inv H f Hf.
  injection H as <-. unfold GeneratedArticle.valid. cbn.
  destruct v3; try discriminate. cbn in Hs. unfold SEOMetadata.parse in Hs.
  bind_inv Hs ttl Httl. bind_inv Hs mdl Hmdl.
  exact (SEOMetadata_validate_Ok E _ _ _ Hs).
Qed.

(** What [_row_to_job] keeps of a row that it decodes. *)
Lemma row_to_job_Ok (job_id : string) (row : Row.t) (j : GenerationJob.t) :
  JobManager._row_to_job E job_id row = Ok j ->
  GenerationJob.job_id j = job_id /\
  GenerationJob.valid j /\
  Row.status row = Status.value (GenerationJob.status j) /\
  Row.error_message row = GenerationJob.error_message j /\
  GenerationJob.request j
  = ArticleRequest.mk (Row.topic row) (Row.target_word_count row) (Row.language row).
Proof.
  unfold JobManager._row_to_job. intros H.
  bind_inv H sd Hsd. bind_inv H ar Har. bind_inv H st Hst.
  injection H as <-. cbn.
  split; [reflexivity|]. split; [|split; [|split; reflexivity]].
  - unfold GenerationJob.valid. cbn. destruct ar as [a|]; [|exact I].
    unfold JobManager.load_model in Har.
    destruct (Row.article_data row) as [v|]; [|discriminate].
    bind_inv Har kw Hkw. bind_inv Har a' Ha'. injection Har as ->.
    exact (GeneratedArticle_parse_valid _ _ Ha').
  - exact (Status_value_of_value _ _ Hst).
Qed.

Lemma get_job_Some (job_id : string) (w : World) (j : GenerationJob.t) :
  fst (JobManager.get_job E job_id w) = Ok (Some j) ->
  exists row, db w !! job_id = Some row /\
              JobManager._row_to_job E job_id row = Ok j.
Proof.
  unfold JobManager.get_job. destruct (db w !! job_id) as [row|]; [|discriminate].
  destruct (JobManager._row_to_job E job_id row) as [j'|] eqn:Hj; [|discriminate].
  cbn. intros [= <-]. eauto.
Qed.

Lemma get_job_Some_stored (job_id : string) (w : World) (j : GenerationJob.t) :
  fst (JobManager.get_job E job_id w) = Ok (Some j) ->
  GenerationJob.job_id j = job_id /\ stored E j w /\ GenerationJob.valid j.
Proof.
  intros H. destruct (get_job_Some _ _ _ H) as (row & Hrow & Hj).
  destruct (row_to_job_Ok _ _ _ Hj) as (Hid & Hv & _).
  split; [exact Hid|]. split; [|exact Hv]. unfold stored. rewrite Hid. exact H.
Qed.

(** [resume_job] on a job that is stored and not completed. *)
Lemma resume_job_eq (j : GenerationJob.t) (w : World) :
  stored E j w -> GenerationJob.status j <> COMPLETED ->
  SEOAgent.resume_job E (GenerationJob.job_id j) w
  = match GenerationJob.serp_data j with
    | Some d => finish E d j w
    | None =>
        try_except (SEOAgent.generate_article E (GenerationJob.request j))
          (resume_handler E (GenerationJob.job_id j)) w
    end.
Proof.
  intros Hs Hst. unfold SEOAgent.resume_job.
  rewrite (bind_Ok _ _ _ _ _ (get_job_stored E j w Hs)).
  destruct (decide (GenerationJob.status j = COMPLETED)); [contradiction|].
  destruct (GenerationJob.serp_data j) as [d|]; [|reflexivity].
  apply (finish_eq E d j w Hs).
Qed.



Lemma stored_same_row (j : GenerationJob.t) (w w' : World) :
  db w' !! GenerationJob.job_id j = db w !! GenerationJob.job_id j ->
  stored E j w -> stored E j w'.
Proof.
  unfold stored, JobManager.get_job. intros ->.
  destruct (db w !! GenerationJob.job_id j) as [row|]; [|discriminate].
  destruct (JobManager._row_to_job E _ row); cbn; congruence.
Qed.

End Decode.




(** ** Messages of errors along sequences of operations *)

Section Messages.
Context (E : Env).

Lemma quiet_same_db (w w' : World) : db w' = db w -> quiet w w'.
Proof. intros H id m. unfold message_at. rewrite H. trivial. Qed.







(** The three writes of the job store: nothing is written, or the job that
    was read is written back, changed. *)
Lemma update_job_status_world (job_id : string) (status : JobStatus)
    (error : option string) (w : World) :
  snd (JobManager.update_job_status E job_id status error w) = w \/
  exists j, stored E j w /\ GenerationJob.job_id j = job_id /\
            snd (JobManager.update_job_status E job_id status error w)
            = written (updated_job E status error w j) w.
Proof.
  destruct (fst (JobManager.get_job E job_id w)) as [[j|]|e] eqn:Hget.
  - right. exists j. destruct (get_job_Some_stored E _ _ _ Hget) as (Hid & Hs & _).
    split; [exact Hs|]. split; [exact Hid|]. rewrite <- Hid.
    rewrite (update_job_status_stored E j status error w Hs). reflexivity.
  - left. unfold JobManager.update_job_status, bind.
    rewrite get_job_eq, Hget. reflexivity.
  - left. unfold JobManager.update_job_status, bind.
    rewrite get_job_eq, Hget. reflexivity.
Qed.

Lemma save_serp_data_world (job_id : string) (d : SERPData.t) (w : World) :
  snd (JobManager.save_serp_data E job_id d w) = w \/
  exists j, stored E j w /\
            snd (JobManager.save_serp_data E job_id d w)
            = written (with_serp_data E d w j) w.
Proof.
  destruct (fst (JobManager.get_job E job_id w)) as [[j|]|e] eqn:Hget.
  - right. exists j. destruct (get_job_Some_stored E _ _ _ Hget) as (Hid & Hs & _).
    split; [exact Hs|]. rewrite <- Hid.
    rewrite (save_serp_data_stored E j d w Hs). reflexivity.
  - left. unfold JobManager.save_serp_data, bind.
    rewrite get_job_eq, Hget. reflexivity.
  - left. unfold JobManager.save_serp_data, bind.
    rewrite get_job_eq, Hget. reflexivity.
Qed.

Lemma save_article_world (job_id : string) (a : GeneratedArticle.t) (w : World) :
  snd (JobManager.save_article E job_id a w) = w \/
  exists j, stored E j w /\
            snd (JobManager.save_article E job_id a w)
            = written (with_article E a w j) w.
Proof.
  destruct (fst (JobManager.get_job E job_id w)) as [[j|]|e] eqn:Hget.
  - right. exists j. destruct (get_job_Some_stored E _ _ _ Hget) as (Hid & Hs & _).
    split; [exact Hs|]. rewrite <- Hid.
    rewrite (save_article_stored E j a w Hs). reflexivity.
  - left. unfold JobManager.save_article, bind.
    rewrite get_job_eq, Hget. reflexivity.
  - left. unfold JobManager.save_article, bind.
    rewrite get_job_eq, Hget. reflexivity.
Qed.










End Messages.





(** C10. [get_serp_data] is a function of the topic alone: it reads
    neither the table, the clock nor any other state.  Its result has the
    topic as query and exactly ten results, whose ranks are 1 to 10 in the
    order of the list: the result at position [i] has the rank [i + 1]. *)
Theorem get_serp_data_ten_ranked_results (topic : string) :
  SERPData.query (SERPAnalyzer.get_serp_data topic) = topic /\
  length (SERPData.results (SERPAnalyzer.get_serp_data topic)) = 10%nat /\
  map SERPResult.rank (SERPData.results (SERPAnalyzer.get_serp_data topic))
  = [1; 2; 3; 4; 5; 6; 7; 8; 9; 10]%Z /\
  (forall (i : nat) (r : SERPResult.t),
     SERPData.results (SERPAnalyzer.get_serp_data topic) !! i = Some r ->
     SERPResult.rank r = (Z.of_nat i + 1)%Z) /\
  (forall topic' : string,
     topic' = topic ->
     SERPAnalyzer.get_serp_data topic' = SERPAnalyzer.get_serp_data topic).
Proof.
  split; [reflexivity|]. split; [reflexivity|]. split; [reflexivity|].
  split; [|intros ? ->; reflexivity].
  intros i r. unfold SERPAnalyzer.get_serp_data, SERPAnalyzer._generate_mock_serp.
  cbn [SERPData.results]. rewrite list_lookup_fmap.
  destruct (seq 0 10 !! i) as [k|] eqn:Hk; [|discriminate].
  apply lookup_seq in Hk. destruct Hk as [-> _]. cbn. intros [= <-]. reflexivity.
Qed.

(** ** Tokens of the themes *)

Lemma append_cons (c : ascii) (a b : string) : String c a ++ b = String c (a ++ b).
Proof. reflexivity. Qed.

Lemma append_nil_r (s : string) : s ++ "" = s.
Proof.
  induction s as [|c s IH]; [reflexivity | rewrite append_cons, IH; reflexivity].
Qed.

Lemma append_assoc (a b c : string) : (a ++ b) ++ c = a ++ (b ++ c).
Proof.
  induction a as [|x a IH]; [reflexivity | rewrite !append_cons, IH; reflexivity].
Qed.

Lemma length_append (a b : string) :
  String.length (a ++ b) = (String.length a + String.length b)%nat.
Proof.
  induction a as [|x a IH]; [reflexivity | rewrite append_cons; simpl; rewrite IH; reflexivity].
Qed.

Lemma span_append (p : ascii -> bool) (s : string) :
  s = span_run p s ++ span_rest p s.
Proof.
  induction s as [|c s IH]; simpl; [reflexivity|].
  destruct (p c); [rewrite append_cons, <- IH|]; reflexivity.
Qed.

Lemma span_run_all (p : ascii -> bool) (s : string) :
  all_chars p (span_run p s) = true.
Proof.
  induction s as [|c s IH]; simpl; [reflexivity|].
  destruct (p c) eqn:Hc; simpl; [rewrite Hc, IH|]; reflexivity.
Qed.

Lemma span_rest_stops (p : ascii -> bool) (s : string) :
  stops p (span_rest p s) = true.
Proof.
  induction s as [|c s IH]; simpl; [reflexivity|].
  destruct (p c) eqn:Hc; simpl; [exact IH | rewrite Hc; reflexivity].
Qed.

Lemma span_rest_length (p : ascii -> bool) (s : string) :
  (String.length (span_rest p s) <= String.length s)%nat.
Proof.
  induction s as [|c s IH]; simpl; [lia|]. destruct (p c); simpl; lia.
Qed.

Lemma append_snoc_cons (cur : string) (c : ascii) (s : string) :
  (cur ++ String c "") ++ s = cur ++ String c s.
Proof. rewrite append_assoc. reflexivity. Qed.

(** The runs of a text that starts with a run. *)
Lemma runs_from_span (p : ascii -> bool) (s cur : string) :
  runs_from p cur s
  = app (if String.eqb (cur ++ span_run p s) "" then []
         else [cur ++ span_run p s])
        (match span_rest p s with
         | EmptyString => []
         | String _ r => runs_from p "" r
         end).
Proof.
  revert cur. induction s as [|c s IH]; intros cur; simpl.
  - rewrite append_nil_r. destruct (String.eqb cur ""); reflexivity.
  - destruct (p c) eqn:Hc.
    + rewrite IH, append_snoc_cons. reflexivity.
    + rewrite append_nil_r. destruct (String.eqb cur ""); reflexivity.
Qed.


Lemma get_append_l (u r : string) (k : nat) :
  (k < String.length u)%nat -> String.get k (u ++ r) = String.get k u.
Proof.
  revert k. induction u as [|c u IH]; intros k Hk; simpl in Hk; [lia|].
  rewrite append_cons. destruct k as [|k]; simpl; [reflexivity|].
  apply IH. lia.
Qed.

Lemma get_append_r (u r : string) :
  String.get (String.length u) (u ++ r) = String.get 0 r.
Proof.
  induction u as [|c u IH]; [reflexivity|]. rewrite append_cons. simpl. exact IH.
Qed.

Lemma get_all_chars (p : ascii -> bool) (u : string) (k : nat) :
  all_chars p u = true -> (k < String.length u)%nat ->
  exists a, String.get k u = Some a /\ p a = true.
Proof.
  revert k. induction u as [|c u IH]; intros k Hall Hk; simpl in Hk; [lia|].
  simpl in Hall. apply andb_true_iff in Hall. destruct Hall as [Hc Hall].
  destruct k as [|k]; simpl; [eauto|]. apply IH; [exact Hall | lia].
Qed.

Lemma take_append (u r : string) : PyStr.take (String.length u) (u ++ r) = u.
Proof.
  induction u as [|c u IH]; [destruct r; reflexivity|].
  rewrite append_cons. simpl. rewrite IH. reflexivity.
Qed.

Lemma is_alpha_is_word (c : ascii) : PyStr.is_alpha c = true -> PyStr.is_word c = true.
Proof. intros H. unfold PyStr.is_word. rewrite H. reflexivity. Qed.

Lemma stops_get (p : ascii -> bool) (r : string) :
  stops p r = true ->
  match String.get 0 r with Some a => p a = false | None => True end.
Proof.
  destruct r as [|c r]; simpl; [trivial|]. apply negb_true_iff.
Qed.

Lemma stops_word_char (r : string) :
  stops PyStr.is_word r = true -> Regex.word_char (String.get 0 r) = false.
Proof.
  intros H. apply stops_get in H. destruct (String.get 0 r); [exact H | reflexivity].
Qed.

(** The greedy run of letters: all of a word of letters, less of another. *)
Lemma run_length_alpha (u r : string) :
  all_chars PyStr.is_alpha u = true -> stops PyStr.is_word r = true ->
  Regex.run_length (u ++ r) = String.length u.
Proof.
  intros Hu Hr. induction u as [|c u IH].
  - destruct r as [|c r]; [reflexivity|]. simpl in *.
    destruct (PyStr.is_alpha c) eqn:Hc; [|reflexivity].
    rewrite (is_alpha_is_word c Hc) in Hr. discriminate.
  - simpl in Hu. apply andb_true_iff in Hu. destruct Hu as [Hc Hu].
    rewrite append_cons. simpl. rewrite Hc, (IH Hu). reflexivity.
Qed.

Lemma run_length_not_alpha (u r : string) :
  all_chars PyStr.is_alpha u = false ->
  (Regex.run_length (u ++ r) < String.length u)%nat.
Proof.
  induction u as [|c u IH]; [discriminate|]. rewrite append_cons. simpl.
  destruct (PyStr.is_alpha c); simpl; [|lia]. intros H. specialize (IH H). lia.
Qed.

Lemma backtrack_small (k : nat) (s : string) :
  (k < 4)%nat -> Regex.backtrack k s = None.
Proof.
  induction k as [|k IH]; intros Hk; [reflexivity|]. cbn [Regex.backtrack].
  destruct (Nat.leb_spec 4 (S k)); [lia|]. cbn [andb]. apply IH. lia.
Qed.

Lemma backtrack_top (k : nat) (s : string) :
  (4 <= k)%nat -> Regex.boundary_after k s = true ->
  Regex.backtrack k s = Some (PyStr.take k s).
Proof.
  intros H4 Hb. destruct k as [|k]; [lia|]. cbn [Regex.backtrack].
  rewrite Hb. destruct (Nat.leb_spec 4 (S k)); [reflexivity | lia].
Qed.

Lemma backtrack_none (n : nat) (s : string) :
  (forall k, (1 <= k <= n)%nat -> Regex.boundary_after k s = false) ->
  Regex.backtrack n s = None.
Proof.
  induction n as [|n IH]; intros H; [reflexivity|].
  cbn [Regex.backtrack]. rewrite (H (S n)) by lia. rewrite andb_false_r.
  apply IH. intros k Hk. apply H. lia.
Qed.

(** Inside a word, no closing [\b]. *)
Lemma boundary_inside (u r : string) (k : nat) :
  all_chars PyStr.is_word u = true -> (1 <= k < String.length u)%nat ->
  Regex.boundary_after k (u ++ r) = false.
Proof.
  intros Hu Hk. unfold Regex.boundary_after.
  rewrite !get_append_l by lia.
  destruct (get_all_chars _ u (k - 1) Hu ltac:(lia)) as (a & -> & Ha).
  destruct (get_all_chars _ u k Hu ltac:(lia)) as (b & -> & Hb).
  unfold Regex.boundary. simpl. rewrite Ha, Hb. reflexivity.
Qed.

(** At the end of a word, a closing [\b]. *)
Lemma boundary_end (u r : string) :
  all_chars PyStr.is_word u = true -> (1 <= String.length u)%nat ->
  stops PyStr.is_word r = true ->
  Regex.boundary_after (String.length u) (u ++ r) = true.
Proof.
  intros Hu Hlen Hr. unfold Regex.boundary_after.
  rewrite get_append_l by lia. rewrite get_append_r.
  destruct (get_all_chars _ u (String.length u - 1) Hu ltac:(lia)) as (a & -> & Ha).
  unfold Regex.boundary. rewrite (stops_word_char r Hr). simpl. rewrite Ha.
  reflexivity.
Qed.

Lemma all_alpha_all_word (u : string) :
  all_chars PyStr.is_alpha u = true -> all_chars PyStr.is_word u = true.
Proof.
  induction u as [|c u IH]; [reflexivity|]. simpl. intros H.
  apply andb_true_iff in H. destruct H as [Hc Hu].
  rewrite (is_alpha_is_word c Hc), (IH Hu). reflexivity.
Qed.

(** The match at the start of a word: the word, if it is a token. *)
Lemma match_here_word (prev : option ascii) (c : ascii) (u' r : string) :
  Regex.word_char prev = false -> PyStr.is_word c = true ->
  all_chars PyStr.is_word u' = true -> stops PyStr.is_word r = true ->
  Regex.match_here prev (String c u' ++ r)
  = if is_token (String c u') then Some (String c u') else None.
Proof.
  intros Hprev Hc Hu Hr. set (u := String c u').
  assert (Hall : all_chars PyStr.is_word u = true).
  { subst u. simpl. rewrite Hc, Hu. reflexivity. }
  unfold Regex.match_here.
  assert (Hb : Regex.boundary prev (String.get 0 (u ++ r)) = true).
  { subst u. rewrite append_cons. simpl. unfold Regex.boundary.
    rewrite Hprev. simpl. exact Hc. }
  rewrite Hb. unfold is_token.
  destruct (all_chars PyStr.is_alpha u) eqn:Halpha;
    rewrite ?andb_true_l, ?andb_false_l.
  - rewrite (run_length_alpha u r Halpha Hr).
    assert (Hlen : (1 <= String.length u)%nat) by (subst u; simpl; lia).
    destruct (Nat.leb_spec 4 (String.length u)) as [H4|H4].
    + rewrite (backtrack_top _ _ H4 (boundary_end u r Hall Hlen Hr)).
      rewrite take_append. reflexivity.
    + apply backtrack_small. lia.
  - apply backtrack_none. intros k Hk.
    apply boundary_inside; [exact Hall|].
    pose proof (run_length_not_alpha u r Halpha). lia.
Qed.

(** Behind the start of a word the scan finds nothing up to its end. *)
Lemma findall_inside_word (u r : string) (p : option ascii) :
  Regex.word_char p = true -> all_chars PyStr.is_word u = true ->
  stops PyStr.is_word r = true ->
  Regex.findall_from p 0 (u ++ r) = after_word r.
Proof.
  revert p. induction u as [|c u IH]; intros p Hp Hu Hr.
  - destruct r as [|c r]; [reflexivity|].
    change ("" ++ String c r) with (String c r). cbn [Regex.findall_from after_word].
    unfold Regex.match_here. simpl in Hr. apply negb_true_iff in Hr.
    assert (Ha : PyStr.is_alpha c = false).
    { destruct (PyStr.is_alpha c) eqn:Ha; [|reflexivity].
      rewrite (is_alpha_is_word c Ha) in Hr. discriminate. }
    cbn [Regex.run_length]. rewrite Ha. cbn [Regex.backtrack].
    destruct (Regex.boundary p _); reflexivity.
  - simpl in Hu. apply andb_true_iff in Hu. destruct Hu as [Hc Hu].
    rewrite append_cons. cbn [Regex.findall_from].
    unfold Regex.match_here. cbn [String.get]. unfold Regex.boundary.
    rewrite Hp. cbn [Regex.word_char]. rewrite Hc. cbn [xorb].
    apply IH; [exact Hc | exact Hu | exact Hr].
Qed.

(** Skipping the rest of a match that ends with the word. *)
Lemma findall_skip_word (v r : string) (p : option ascii) :
  Regex.word_char p = true -> all_chars PyStr.is_word v = true ->
  stops PyStr.is_word r = true ->
  Regex.findall_from p (String.length v) (v ++ r) = after_word r.
Proof.
  revert p. induction v as [|a v IH]; intros p Hp Hv Hr.
  - exact (findall_inside_word "" r p Hp eq_refl Hr).
  - simpl in Hv. apply andb_true_iff in Hv. destruct Hv as [Ha Hv].
    rewrite append_cons. cbn [String.length Regex.findall_from].
    apply IH; [exact Ha | exact Hv | exact Hr].
Qed.

Lemma filter_cons_bool {A : Type} (f : A -> bool) (x : A) (l : list A) :
  filter f (x :: l) = if f x then x :: filter f l else filter f l.
Proof.
  rewrite filter_cons. destruct (f x); simpl; reflexivity.
Qed.

Lemma stops_cons_false (p : ascii -> bool) (c : ascii) (r : string) :
  stops p (String c r) = true -> p c = false.
Proof. simpl. apply negb_true_iff. Qed.

(** The scan from a place that is not inside a word finds the words that
    are tokens. *)
Lemma findall_from_tokens (n : nat) :
  forall (s : string) (prev : option ascii),
    (String.length s <= n)%nat -> Regex.word_char prev = false ->
    Regex.findall_from prev 0 s = filter is_token (runs_from PyStr.is_word "" s).
Proof.
  induction n as [|n IH]; intros s prev Hlen Hprev.
  - destruct s; [reflexivity | simpl in Hlen; lia].
  - destruct s as [|c s]; [reflexivity|].
    destruct (PyStr.is_word c) eqn:Hc.
    + pose proof (span_append PyStr.is_word s) as Hs.
      pose proof (span_run_all PyStr.is_word s) as Hu.
      pose proof (span_rest_stops PyStr.is_word s) as Hr.
      pose proof (span_rest_length PyStr.is_word s) as Hrl.
      set (u' := span_run PyStr.is_word s) in *.
      set (r := span_rest PyStr.is_word s) in *.
      assert (Hruns : runs_from PyStr.is_word "" (String c s)
                      = String c u' :: match r with
                                       | EmptyString => []
                                       | String _ r' => runs_from PyStr.is_word "" r'
                                       end).
      { cbn [runs_from]. rewrite Hc. rewrite runs_from_span. fold u'. fold r.
        reflexivity. }
      rewrite Hruns, filter_cons_bool. clear Hruns.
      clearbody u' r. subst s.
      assert (Hafter : after_word r
                       = filter is_token
                           match r with
                           | EmptyString => []
                           | String _ r' => runs_from PyStr.is_word "" r'
                           end).
      { destruct r as [|c2 r']; [reflexivity|]. cbn [after_word].
        apply IH; [simpl in Hrl, Hlen; lia|].
        cbn [Regex.word_char]. exact (stops_cons_false _ _ _ Hr). }
      rewrite <- Hafter.
      cbn [Regex.findall_from].
      rewrite <- append_cons.
      rewrite (match_here_word prev c u' r Hprev Hc Hu Hr).
      destruct (is_token (String c u')).
      * f_equal.
        replace (String.length (String c u') - 1)%nat with (String.length u')
          by (simpl; lia).
        apply findall_skip_word; [exact Hc | exact Hu | exact Hr].
      * apply findall_inside_word; [exact Hc | exact Hu | exact Hr].
    + cbn [runs_from Regex.findall_from]. rewrite Hc. cbn [String.eqb].
      unfold Regex.match_here. cbn [String.get]. unfold Regex.boundary.
      rewrite Hprev. cbn [Regex.word_char]. rewrite Hc. cbn [xorb].
      apply IH; [simpl in Hlen; lia | exact Hc].
Qed.

(** The tokens that the regular expression finds are the words of the text,
    delimited by characters that are no word characters, that are made of
    four letters at least. *)
Lemma findall_delimited_tokens (s : string) :
  Regex.findall s = delimited_tokens s.
Proof.
  apply (findall_from_tokens (String.length s)); [lia | reflexivity].
Qed.

Lemma first_seen_snoc (l : list string) (w : string) :
  first_seen (l ++ [w])
  = if decide (w ∈ first_seen l) then first_seen l else (first_seen l ++ [w])%list.
Proof. unfold first_seen. rewrite fold_left_app. reflexivity. Qed.

Lemma first_seen_elem (l : list string) (w : string) : w ∈ first_seen l <-> w ∈ l.
Proof.
  induction l as [|x l IH] using rev_ind.
  - reflexivity.
  - rewrite first_seen_snoc. destruct (decide (x ∈ first_seen l)) as [Hx|Hx].
    + rewrite IH, elem_of_app, list_elem_of_singleton.
      split; [tauto|]. intros [H| ->]; [exact H | apply IH, Hx].
    + rewrite !elem_of_app, IH. reflexivity.
Qed.

Lemma first_seen_NoDup (l : list string) : NoDup (first_seen l).
Proof.
  induction l as [|x l IH] using rev_ind.
  - constructor.
  - rewrite first_seen_snoc. destruct (decide (x ∈ first_seen l)) as [Hx|Hx];
      [exact IH|].
    apply NoDup_app. split; [exact IH|]. split.
    + intros y Hy Hy'. apply list_elem_of_singleton in Hy'. subst y. contradiction.
    + apply NoDup_singleton.
Qed.



Lemma occurrences_snoc (l : list string) (w k : string) :
  occurrences (l ++ [w]) k
  = (occurrences l k + if String.eqb w k then 1 else 0)%nat.
Proof.
  unfold occurrences. rewrite count_occ_app. simpl.
  destruct (string_dec w k) as [->|Hne].
  - rewrite String.eqb_refl. reflexivity.
  - apply String.eqb_neq in Hne. rewrite Hne. reflexivity.
Qed.

Lemma occurrences_pos (l : list string) (w : string) :
  w ∈ l <-> (1 <= occurrences l w)%nat.
Proof.
  unfold occurrences. rewrite list_elem_of_In, (count_occ_In string_dec). lia.
Qed.

(** [Counter.add] on the items of distinct keys. *)
Lemma Counter_add_map (w : string) (f : string -> nat) (ks : list string) :
  NoDup ks ->
  Counter.add w (map (fun k => (k, f k)) ks)
  = if decide (w ∈ ks)
    then map (fun k => (k, (f k + if String.eqb w k then 1 else 0)%nat)) ks
    else (map (fun k => (k, f k)) ks ++ [(w, 1%nat)])%list.
Proof.
  induction ks as [|k ks IH]; intros Hnd.
  - reflexivity.
  - apply NoDup_cons in Hnd. destruct Hnd as [Hk Hnd].
    cbn [map Counter.add]. destruct (String.eqb_spec k w) as [->|Hne].
    + rewrite decide_True by (left). rewrite String.eqb_refl.
      rewrite Nat.add_1_r. f_equal.
      apply map_ext_in. intros a Ha. apply list_elem_of_In in Ha.
      destruct (String.eqb_spec w a) as [->|_]; [contradiction|].
      rewrite Nat.add_0_r. reflexivity.
    + rewrite (IH Hnd).
      assert (Hwk : String.eqb w k = false) by (apply String.eqb_neq; congruence).
      rewrite Hwk, Nat.add_0_r.
      destruct (decide (w ∈ ks)) as [Hin|Hin].
      * rewrite decide_True by (right; exact Hin). reflexivity.
      * rewrite decide_False; [reflexivity|].
        intros H. apply elem_of_cons in H. destruct H as [->|H]; contradiction.
Qed.

Lemma Counter_of_list_snoc (l : list string) (w : string) :
  Counter.of_list (l ++ [w]) = Counter.add w (Counter.of_list l).
Proof. unfold Counter.of_list. rewrite fold_left_app. reflexivity. Qed.

(** The counter of a list: its distinct elements in the order of their
    first meeting, each with the number of its occurrences. *)
Lemma Counter_of_list_eq (l : list string) :
  Counter.of_list l = map (fun k => (k, occurrences l k)) (first_seen l).
Proof.
  induction l as [|w l IH] using rev_ind.
  - reflexivity.
  - rewrite Counter_of_list_snoc, IH, first_seen_snoc.
    rewrite (Counter_add_map w _ _ (first_seen_NoDup l)).
    destruct (decide (w ∈ first_seen l)) as [Hw|Hw].
    + apply map_ext. intros k. rewrite occurrences_snoc. reflexivity.
    + rewrite map_app. cbn [map]. f_equal.
      * apply map_ext_in. intros k Hk. rewrite occurrences_snoc.
        destruct (String.eqb_spec w k) as [->|_].
        -- apply list_elem_of_In in Hk. contradiction.
        -- rewrite Nat.add_0_r. reflexivity.
      * rewrite occurrences_snoc, String.eqb_refl.
        assert (H0 : occurrences l w = 0%nat).
        { destruct (occurrences l w) eqn:Ho; [reflexivity|].
          exfalso. apply Hw, first_seen_elem, occurrences_pos. lia. }
        rewrite H0. reflexivity.
Qed.

(** ** The stable sort of [most_common] *)

Section Sorting.
Context (R : string * nat -> string * nat -> Prop).
Hypothesis R_count : forall x y, R x y -> (snd y <= snd x)%nat.
Hypothesis R_less : forall x y, (snd y < snd x)%nat -> R x y.




End Sorting.

Lemma fold_insert_perm (c acc : list (string * nat)) :
  Permutation (fold_left (fun acc x => Counter.insert x acc) c acc) (acc ++ c).
Proof.
  revert acc. induction c as [|x c IH]; intros acc; cbn [fold_left].
  - rewrite app_nil_r. reflexivity.
  - rewrite IH. 
    assert (Hins : Permutation (Counter.insert x acc) (x :: acc)).
    { clear. induction acc as [|y acc IHa]; simpl; [reflexivity|].
      destruct (snd y <? snd x)%nat; [reflexivity|].
      rewrite IHa. apply perm_swap. }
    rewrite Hins. simpl. apply Permutation_middle.
Qed.

Lemma sorted_desc_perm (c : list (string * nat)) :
  Permutation (Counter.sorted_desc c) c.
Proof. unfold Counter.sorted_desc. rewrite fold_insert_perm. reflexivity. Qed.

Lemma In_firstn {A : Type} (n : nat) (l : list A) (x : A) :
  In x (firstn n l) -> In x l.
Proof.
  revert n. induction l as [|y l IH]; intros [|n]; simpl; try tauto.
  intros [H|H]; [left; exact H | right; exact (IH n H)].
Qed.







Lemma sorted_desc_items (l : list string) (w : string) (n : nat) :
  (w, n) ∈ Counter.sorted_desc (Counter.of_list l) <->
  w ∈ l /\ n = occurrences l w.
Proof.
  rewrite (sorted_desc_perm (Counter.of_list l)), Counter_of_list_eq.
  rewrite list_elem_of_fmap. split.
  - intros (k & [= -> ->] & Hk). split; [apply first_seen_elem, Hk | reflexivity].
  - intros [Hw ->]. exists w. split; [reflexivity | apply first_seen_elem, Hw].
Qed.


(** ** Lower case *)



Lemma all_chars_snoc (q : ascii -> bool) (cur : string) (c : ascii) :
  all_chars q (cur ++ String c "") = all_chars q cur && q c.
Proof.
  induction cur as [|a cur IH]; [simpl; rewrite andb_true_r; reflexivity|].
  rewrite append_cons. simpl. rewrite IH, andb_assoc. reflexivity.
Qed.






(** * Further properties of the code *)

(** ** The operations of the job store, one by one *)

Lemma written_other (j : GenerationJob.t) (w : World) (job_id : string) :
  job_id <> GenerationJob.job_id j -> db (written j w) !! job_id = db w !! job_id.
Proof. intros Hne. apply lookup_insert_ne. congruence. Qed.

Lemma get_job_written (E : Env) (j : GenerationJob.t) (w : World) :
  GenerationJob.valid j ->
  JobManager.get_job E (GenerationJob.job_id j) (written j w)
  = (Ok (Some j), written j w).
Proof. intros Hv. apply get_job_holds, holds_written, Hv. Qed.


(** X2. For an identifier that has no row, [get_job] returns [None], and
    [update_job_status], [save_serp_data] and [save_article] raise the
    [ValueError] [Job <id> not found]; none of them writes, reads the clock
    or draws an identifier. *)
Theorem job_store_rejects_unknown_id (E : Env) (job_id : string) (w : World) :
  db w !! job_id = None ->
  JobManager.get_job E job_id w = (Ok None, w) /\
  (forall (status : JobStatus) (error : option string),
     JobManager.update_job_status E job_id status error w
     = (Raise (ValueError ("Job " ++ job_id ++ " not found")), w)) /\
  (forall serp_data : SERPData.t,
     JobManager.save_serp_data E job_id serp_data w
     = (Raise (ValueError ("Job " ++ job_id ++ " not found")), w)) /\
  (forall article : GeneratedArticle.t,
     JobManager.save_article E job_id article w
     = (Raise (ValueError ("Job " ++ job_id ++ " not found")), w)).
Proof.
  intros Hnone.
  assert (Hget : JobManager.get_job E job_id w = (Ok None, w)).
  { unfold JobManager.get_job. rewrite Hnone. reflexivity. }
  split; [exact Hget|]. repeat split; intros.
  - unfold JobManager.update_job_status, bind. rewrite Hget. reflexivity.
  - unfold JobManager.save_serp_data, bind. rewrite Hget. reflexivity.
  - unfold JobManager.save_article, bind. rewrite Hget. reflexivity.
Qed.

Lemma job_store_rejects_unknown_id_witness :
  JobManager.get_job (demo_env []) "job-7" pending_world = (Ok None, pending_world) /\
  (forall (status : JobStatus) (error : option string),
     JobManager.update_job_status (demo_env []) "job-7" status error pending_world
     = (Raise (ValueError ("Job " ++ "job-7" ++ " not found")), pending_world)) /\
  (forall serp_data : SERPData.t,
     JobManager.save_serp_data (demo_env []) "job-7" serp_data pending_world
     = (Raise (ValueError ("Job " ++ "job-7" ++ " not found")), pending_world)) /\
  (forall article : GeneratedArticle.t,
     JobManager.save_article (demo_env []) "job-7" article pending_world
     = (Raise (ValueError ("Job " ++ "job-7" ++ " not found")), pending_world)).
Proof.
  apply (job_store_rejects_unknown_id (demo_env []) "job-7" pending_world).
  vm_compute. reflexivity.
Defined.

(** X3. [update_job_status] on a stored job: the job read back has the new
    status and the reading of the clock as [updated_at]; it has the error as
    its message when the error is a string that is not empty, and its old
    message otherwise; its identifier, request, source data, article and
    [created_at] are unchanged, and so is every other row. *)
Theorem update_job_status_then_get_job (E : Env) (j : GenerationJob.t)
    (status : JobStatus) (error : option string) (w : World) :
  stored E j w ->
  exists w' : World,
    JobManager.update_job_status E (GenerationJob.job_id j) status error w
    = (Ok tt, w') /\
    JobManager.get_job E (GenerationJob.job_id j) w'
    = (Ok (Some
         (GenerationJob.mk (GenerationJob.job_id j) status (GenerationJob.request j)
            (GenerationJob.serp_data j) (GenerationJob.article j)
            (match error with
             | Some (String c s) => Some (String c s)
             | _ => GenerationJob.error_message j
             end)
            (GenerationJob.created_at j) (utcnow E (clock_reads w)))), w') /\
    (forall job_id : string,
       job_id <> GenerationJob.job_id j -> db w' !! job_id = db w !! job_id).
Proof.
  intros Hs. exists (written (updated_job E status error w j) w).
  split; [apply update_job_status_stored, Hs|].
  destruct (get_job_Some_stored E _ _ _ Hs) as (_ & _ & Hv).
  split.
  - rewrite <- (job_id_updated E status error w j).
    rewrite (get_job_written E _ w (valid_updated E status error w j Hv)).
    unfold updated_job, JobManager.truthy.
    destruct error as [[|c s]|]; reflexivity.
  - intros job_id Hne. apply written_other. rewrite job_id_updated. exact Hne.
Qed.

Lemma update_job_status_then_get_job_witness :
  exists w' : World,
    JobManager.update_job_status (demo_env []) (GenerationJob.job_id pending_job)
      FAILED (Some "boom") pending_world
    = (Ok tt, w') /\
    JobManager.get_job (demo_env []) (GenerationJob.job_id pending_job) w'
    = (Ok (Some
         (GenerationJob.mk (GenerationJob.job_id pending_job) FAILED
            (GenerationJob.request pending_job)
            (GenerationJob.serp_data pending_job) (GenerationJob.article pending_job)
            (match Some "boom" with
             | Some (String c s) => Some (String c s)
             | _ => GenerationJob.error_message pending_job
             end)
            (GenerationJob.created_at pending_job)
            (utcnow (demo_env []) (clock_reads pending_world)))), w') /\
    (forall job_id : string,
       job_id <> GenerationJob.job_id pending_job ->
       db w' !! job_id = db pending_world !! job_id).
Proof.
  apply (update_job_status_then_get_job (demo_env []) pending_job FAILED
           (Some "boom") pending_world).
  vm_compute. reflexivity.
Defined.

(** X4. [save_serp_data] on a stored job: the job read back has the source
    data and the reading of the clock as [updated_at]; its status, like
    every other field, is unchanged, and so is every other row. *)
Theorem save_serp_data_then_get_job (E : Env) (j : GenerationJob.t)
    (serp_data : SERPData.t) (w : World) :
  stored E j w ->
  exists w' : World,
    JobManager.save_serp_data E (GenerationJob.job_id j) serp_data w = (Ok tt, w') /\
    JobManager.get_job E (GenerationJob.job_id j) w'
    = (Ok (Some
         (GenerationJob.mk (GenerationJob.job_id j) (GenerationJob.status j)
            (GenerationJob.request j) (Some serp_data) (GenerationJob.article j)
            (GenerationJob.error_message j) (GenerationJob.created_at j)
            (utcnow E (clock_reads w)))), w') /\
    (forall job_id : string,
       job_id <> GenerationJob.job_id j -> db w' !! job_id = db w !! job_id).
Proof.
  intros Hs. exists (written (with_serp_data E serp_data w j) w).
  split; [apply save_serp_data_stored, Hs|].
  destruct (get_job_Some_stored E _ _ _ Hs) as (_ & _ & Hv).
  split.
  - apply (get_job_written E (with_serp_data E serp_data w j) w). exact Hv.
  - intros job_id Hne. apply written_other. exact Hne.
Qed.

Lemma save_serp_data_then_get_job_witness :
  exists w' : World,
    JobManager.save_serp_data (demo_env []) (GenerationJob.job_id pending_job)
      digits_data pending_world = (Ok tt, w') /\
    JobManager.get_job (demo_env []) (GenerationJob.job_id pending_job) w'
    = (Ok (Some
         (GenerationJob.mk (GenerationJob.job_id pending_job)
            (GenerationJob.status pending_job)
            (GenerationJob.request pending_job) (Some digits_data)
            (GenerationJob.article pending_job)
            (GenerationJob.error_message pending_job)
            (GenerationJob.created_at pending_job)
            (utcnow (demo_env []) (clock_reads pending_world)))), w') /\
    (forall job_id : string,
       job_id <> GenerationJob.job_id pending_job ->
       db w' !! job_id = db pending_world !! job_id).
Proof.
  apply (save_serp_data_then_get_job (demo_env []) pending_job digits_data
           pending_world).
  vm_compute. reflexivity.
Defined.

(** X5. [save_article] on a stored job, whatever its status, failed
    included: the job read back has the article, the status completed and
    the reading of the clock as [updated_at]; it keeps its message, its
    source data and every other field, and every other row is unchanged.
    The hypothesis on the article is what the class [SEOMetadata] guarantees
    of its instances. *)
Theorem save_article_then_get_job (E : Env) (j : GenerationJob.t)
    (article : GeneratedArticle.t) (w : World) :
  stored E j w ->
  GeneratedArticle.valid article ->
  exists w' : World,
    JobManager.save_article E (GenerationJob.job_id j) article w = (Ok tt, w') /\
    JobManager.get_job E (GenerationJob.job_id j) w'
    = (Ok (Some
         (GenerationJob.mk (GenerationJob.job_id j) COMPLETED
            (GenerationJob.request j) (GenerationJob.serp_data j) (Some article)
            (GenerationJob.error_message j) (GenerationJob.created_at j)
            (utcnow E (clock_reads w)))), w') /\
    (forall job_id : string,
       job_id <> GenerationJob.job_id j -> db w' !! job_id = db w !! job_id).
Proof.
  intros Hs Ha. exists (written (with_article E article w j) w).
  split; [apply save_article_stored, Hs|].
  split.
  - apply (get_job_written E (with_article E article w j) w). exact Ha.
  - intros job_id Hne. apply written_other. exact Hne.
Qed.

Lemma save_article_then_get_job_witness :
  exists w' : World,
    JobManager.save_article (demo_env []) (GenerationJob.job_id pending_job)
      demo_article pending_world = (Ok tt, w') /\
    JobManager.get_job (demo_env []) (GenerationJob.job_id pending_job) w'
    = (Ok (Some
         (GenerationJob.mk (GenerationJob.job_id pending_job) COMPLETED
            (GenerationJob.request pending_job)
            (GenerationJob.serp_data pending_job) (Some demo_article)
            (GenerationJob.error_message pending_job)
            (GenerationJob.created_at pending_job)
            (utcnow (demo_env []) (clock_reads pending_world)))), w') /\
    (forall job_id : string,
       job_id <> GenerationJob.job_id pending_job ->
       db w' !! job_id = db pending_world !! job_id).
Proof.
  apply (save_article_then_get_job (demo_env []) pending_job demo_article
           pending_world).
  - vm_compute. reflexivity.
  - vm_compute. split; lia.
Defined.

(** X6. For an identifier that has no row, [get_job_status] and
    [resume_job] raise the [ValueError] [Job <id> not found] and leave the
    world as it is: no job is created, nothing is asked of the service. *)
Theorem agent_rejects_unknown_id (E : Env) (job_id : string) (w : World) :
  db w !! job_id = None ->
  SEOAgent.get_job_status E job_id w
  = (Raise (ValueError ("Job " ++ job_id ++ " not found")), w) /\
  SEOAgent.resume_job E job_id w
  = (Raise (ValueError ("Job " ++ job_id ++ " not found")), w).
Proof.
  intros Hnone.
  assert (Hget : JobManager.get_job E job_id w = (Ok None, w)).
  { unfold JobManager.get_job. rewrite Hnone. reflexivity. }
  split.
  - unfold SEOAgent.get_job_status, bind. rewrite Hget. reflexivity.
  - unfold SEOAgent.resume_job, bind. rewrite Hget. reflexivity.
Qed.

Lemma agent_rejects_unknown_id_witness :
  SEOAgent.get_job_status (demo_env []) "job-7" completed_world
  = (Raise (ValueError ("Job " ++ "job-7" ++ " not found")), completed_world) /\
  SEOAgent.resume_job (demo_env []) "job-7" completed_world
  = (Raise (ValueError ("Job " ++ "job-7" ++ " not found")), completed_world).
Proof.
  apply (agent_rejects_unknown_id (demo_env []) "job-7" completed_world).
  vm_compute. reflexivity.
Defined.

(** ** Invariants of the job table *)

Section Writes.
Context (E : Env).

Lemma writes_refl (w : World) : writes E w w.
Proof. apply rtc_refl. Qed.

Lemma writes_step (w w' : World) : write_step E w w' -> writes E w w'.
Proof. apply rtc_once. Qed.

Lemma writes_trans (w1 w2 w3 : World) :
  writes E w1 w2 -> writes E w2 w3 -> writes E w1 w3.
Proof. apply rtc_trans. Qed.

Lemma request_updated (st : JobStatus) (err : option string) (w : World)
    (j : GenerationJob.t) :
  GenerationJob.request (updated_job E st err w j) = GenerationJob.request j /\
  GenerationJob.created_at (updated_job E st err w j) = GenerationJob.created_at j /\
  GenerationJob.updated_at (updated_job E st err w j) = utcnow E (clock_reads w).
Proof. unfold updated_job. destruct (JobManager.truthy err); repeat split. Qed.

Lemma writes_updated (st : JobStatus) (err : option string) (j : GenerationJob.t)
    (w : World) :
  stored E j w -> writes E w (written (updated_job E st err w j) w).
Proof.
  intros Hs. apply writes_step.
  destruct (request_updated st err w j) as (Hr & Hc & Hu).
  apply (write_back E j); [exact Hs | apply job_id_updated | exact Hr | exact Hc
                          | exact Hu].
Qed.

Lemma writes_update_job_status (job_id : string) (status : JobStatus)
    (error : option string) (w : World) :
  writes E w (snd (JobManager.update_job_status E job_id status error w)).
Proof.
  destruct (update_job_status_world E job_id status error w)
    as [->|(j & Hs & _ & ->)]; [apply writes_refl | apply writes_updated, Hs].
Qed.

Lemma writes_save_serp_data (job_id : string) (d : SERPData.t) (w : World) :
  writes E w (snd (JobManager.save_serp_data E job_id d w)).
Proof.
  destruct (save_serp_data_world E job_id d w) as [->|(j & Hs & ->)];
    [apply writes_refl|].
  apply writes_step. apply (write_back E j); [exact Hs | reflexivity ..].
Qed.

Lemma writes_save_article (job_id : string) (a : GeneratedArticle.t) (w : World) :
  writes E w (snd (JobManager.save_article E job_id a w)).
Proof.
  destruct (save_article_world E job_id a w) as [->|(j & Hs & ->)];
    [apply writes_refl|].
  apply writes_step. apply (write_back E j); [exact Hs | reflexivity ..].
Qed.

Lemma writes_finish (d : SERPData.t) (j : GenerationJob.t) (w : World) :
  stored E j w -> writes E w (snd (finish E d j w)).
Proof.
  intros Hs. apply (writes_trans w (called w)); [apply writes_step, write_call|].
  pose proof (stored_called E j w Hs) as Hc.
  unfold finish.
  destruct (fst (generator_call E (GenerationJob.request j) d w)) as [a|e];
    cbn [snd].
  - apply writes_step. apply (write_back E j); [exact Hc | reflexivity ..].
  - apply writes_updated, Hc.
Qed.

Lemma writes_running_world (request : ArticleRequest.t) (w : World) :
  writes E w (running_world E request w).
Proof.
  set (j0 := created_job E request w). set (w1 := created E request w).
  set (j1 := updated_job E RUNNING None w1 j0).
  assert (H0 : holds j0 w1) by (split; [apply lookup_insert_eq | exact I]).
  assert (H1 : holds j1 (written j1 w1)) by (apply holds_written; exact I).
  apply (writes_trans w w1); [apply writes_step, write_create|].
  apply (writes_trans w1 (written j1 w1));
    [apply writes_updated, holds_stored, H0|].
  apply writes_step.
  apply (write_back E j1); [apply holds_stored, H1 | reflexivity ..].
Qed.

Lemma writes_generate_article (request : ArticleRequest.t) (w : World) :
  writes E w (snd (SEOAgent.generate_article E request w)).
Proof.
  rewrite generate_article_eq.
  apply (writes_trans w (running_world E request w));
    [apply writes_running_world|].
  apply writes_finish, holds_stored, holds_running.
Qed.

Lemma writes_resume_job (job_id : string) (w : World) :
  writes E w (snd (SEOAgent.resume_job E job_id w)).
Proof.
  destruct (fst (JobManager.get_job E job_id w)) as [[j|]|e] eqn:Hget.
  - destruct (get_job_Some_stored E _ _ _ Hget) as (Hid & Hs & _). subst job_id.
    destruct (decide (GenerationJob.status j = COMPLETED)) as [Hc|Hc].
    + rewrite (resume_job_completed E _ j w Hget Hc). apply writes_refl.
    + rewrite (resume_job_eq E j w Hs Hc).
      destruct (GenerationJob.serp_data j) as [d|]; [apply writes_finish, Hs|].
      unfold try_except.
      pose proof (writes_generate_article (GenerationJob.request j) w) as Hgen.
      destruct (SEOAgent.generate_article E (GenerationJob.request j) w)
        as [[found|e] w1]; cbn [snd] in *; [exact Hgen|].
      unfold resume_handler, bind.
      pose proof (writes_update_job_status (GenerationJob.job_id j) FAILED
                    (Some (exn_str e)) w1) as Hupd.
      destruct (JobManager.update_job_status E (GenerationJob.job_id j) FAILED
                  (Some (exn_str e)) w1) as [[u|e'] w2]; cbn [snd] in *;
        exact (writes_trans _ _ _ Hgen Hupd).
  - unfold SEOAgent.resume_job, bind. rewrite get_job_eq, Hget. apply writes_refl.
  - unfold SEOAgent.resume_job, bind. rewrite get_job_eq, Hget. apply writes_refl.
Qed.

Lemma writes_run_op (o : op) (w : World) : writes E w (run_op E o w).
Proof.
  destruct o as [request|job_id status error|job_id d|job_id a|request|job_id];
    cbn [run_op].
  - rewrite create_job_eq. apply writes_step, write_create.
  - apply writes_update_job_status.
  - apply writes_save_serp_data.
  - apply writes_save_article.
  - apply writes_generate_article.
  - apply writes_resume_job.
Qed.

Lemma writes_run_ops (ops : list op) (w : World) : writes E w (run_ops E ops w).
Proof.
  revert w. induction ops as [|o ops IH]; intros w; [apply writes_refl|].
  exact (writes_trans _ _ _ (writes_run_op o w) (IH (run_op E o w))).
Qed.

(** What [_row_to_job] makes of the time stamps of a row. *)
Lemma row_to_job_times (job_id : string) (row : Row.t) (j : GenerationJob.t) :
  JobManager._row_to_job E job_id row = Ok j ->
  GenerationJob.created_at j = Row.created_at row /\
  GenerationJob.updated_at j = Row.updated_at row.
Proof.
  unfold JobManager._row_to_job. intros H.
  bind_inv H sd Hsd. bind_inv H ar Har. bind_inv H st Hst.
  injection H as <-. split; reflexivity.
Qed.

Lemma write_step_counters (w w' : World) :
  write_step E w w' ->
  (uuids_drawn w <= uuids_drawn w')%nat /\ (clock_reads w <= clock_reads w')%nat.
Proof. intros [request w0|j j' w0 _ _ _ _ _|w0]; cbn; lia. Qed.

Lemma writes_counters (w w' : World) :
  writes E w w' ->
  (uuids_drawn w <= uuids_drawn w')%nat /\ (clock_reads w <= clock_reads w')%nat.
Proof.
  induction 1 as [w|w1 w2 w3 H12 _ IH]; [lia|].
  destruct (write_step_counters _ _ H12). lia.
Qed.

Lemma write_step_keeps_rows (w w' : World) (job_id : string) :
  write_step E w w' -> is_Some (db w !! job_id) -> is_Some (db w' !! job_id).
Proof.
  intros [request w0|j j' w0 _ _ _ _ _|w0] Hrow; [| |exact Hrow].
  - cbn. apply lookup_insert_is_Some'. right. exact Hrow.
  - cbn. apply lookup_insert_is_Some'. right. exact Hrow.
Qed.

Lemma writes_keep_rows (w w' : World) (job_id : string) :
  writes E w w' -> is_Some (db w !! job_id) -> is_Some (db w' !! job_id).
Proof.
  induction 1 as [w|w1 w2 w3 H12 _ IH]; [trivial|].
  intros H. apply IH. exact (write_step_keeps_rows _ _ _ H12 H).
Qed.

Lemma write_step_request (w w' : World) (job_id : string) (row : Row.t) :
  write_step E w w' -> db w !! job_id = Some row ->
  uuid4 E (uuids_drawn w) <> job_id \/ uuids_drawn w' = uuids_drawn w ->
  exists row', db w' !! job_id = Some row' /\
               request_columns row' = request_columns row.
Proof.
  intros [request w0|j j' w0 Hs Hid Hreq Hca _|w0] Hrow Hfresh.
  - destruct Hfresh as [Hne|Hsame]; [|cbn in Hsame; lia].
    exists row. split; [|reflexivity]. cbn. rewrite lookup_insert_ne by exact Hne.
    exact Hrow.
  - destruct (decide (GenerationJob.job_id j' = job_id)) as [Heq|Hne].
    + exists (JobManager.row_of_job j'). split.
      * cbn. rewrite <- Heq. apply lookup_insert_eq.
      * destruct (get_job_Some E _ _ _ Hs) as (row0 & Hrow0 & Hj).
        rewrite <- Hid, Heq, Hrow in Hrow0. injection Hrow0 as <-.
        destruct (row_to_job_Ok E _ _ _ Hj) as (_ & _ & _ & _ & Hr).
        destruct (row_to_job_times _ _ _ Hj) as (Hc & _).
        unfold request_columns, JobManager.row_of_job. cbn.
        rewrite Hreq, Hca, Hr, Hc. reflexivity.
    + exists row. split; [|reflexivity]. cbn.
      rewrite lookup_insert_ne by exact Hne. exact Hrow.
  - exists row. split; [exact Hrow | reflexivity].
Qed.

Lemma writes_request (w w' : World) (job_id : string) (row : Row.t) :
  writes E w w' -> db w !! job_id = Some row -> not_drawn E job_id w w' ->
  exists row', db w' !! job_id = Some row' /\
               request_columns row' = request_columns row.
Proof.
  intros H. revert row. induction H as [w|w1 w2 w3 H12 H23 IH]; intros row Hrow Hnd.
  - exists row. split; [exact Hrow | reflexivity].
  - destruct (write_step_counters _ _ H12) as (Hu12 & _).
    destruct (writes_counters _ _ H23) as (Hu23 & _).
    assert (Hf : uuid4 E (uuids_drawn w1) <> job_id \/ uuids_drawn w2 = uuids_drawn w1).
    { destruct (decide (uuids_drawn w2 = uuids_drawn w1)) as [Heq|Hne];
        [right; exact Heq|]. left. apply Hnd. lia. }
    destruct (write_step_request _ _ _ _ H12 Hrow Hf) as (row2 & Hrow2 & Hc2).
    destruct (IH row2 Hrow2) as (row3 & Hrow3 & Hc3).
    { intros n Hn. apply Hnd. lia. }
    exists row3. split; [exact Hrow3 | congruence].
Qed.

Lemma write_step_timely (w w' : World) :
  monotone_clock E -> write_step E w w' -> timely E w -> timely E w'.
Proof.
  intros Hmono [request w0|j j' w0 Hs Hid Hreq Hca Hua|w0] Ht job_id row Hrow.
  - cbn in Hrow. destruct (decide (uuid4 E (uuids_drawn w0) = job_id)) as [Heq|Hne].
    + rewrite Heq, lookup_insert_eq in Hrow. injection Hrow as <-. cbn.
      split; [lia|]. intros n Hn. apply Hmono. lia.
    + rewrite lookup_insert_ne in Hrow by exact Hne.
      destruct (Ht job_id row Hrow) as (H1 & H2). split; [exact H1|].
      intros n Hn. apply H2. cbn in Hn. lia.
  - cbn in Hrow. destruct (decide (GenerationJob.job_id j' = job_id)) as [Heq|Hne].
    + rewrite Heq, lookup_insert_eq in Hrow. injection Hrow as <-. cbn.
      destruct (get_job_Some E _ _ _ Hs) as (row0 & Hrow0 & Hj).
      destruct (row_to_job_times _ _ _ Hj) as (Hc & _).
      destruct (Ht _ row0 Hrow0) as (H1 & H2).
      rewrite Hca, Hua, Hc. split.
      * specialize (H2 (clock_reads w0)). lia.
      * intros n Hn. apply Hmono. lia.
    + rewrite lookup_insert_ne in Hrow by exact Hne.
      destruct (Ht job_id row Hrow) as (H1 & H2). split; [exact H1|].
      intros n Hn. apply H2. cbn in Hn. lia.
  - exact (Ht job_id row Hrow).
Qed.

Lemma writes_timely (w w' : World) :
  monotone_clock E -> writes E w w' -> timely E w -> timely E w'.
Proof.
  intros Hmono. induction 1 as [w|w1 w2 w3 H12 _ IH]; [trivial|].
  intros Ht. apply IH. exact (write_step_timely _ _ Hmono H12 Ht).
Qed.

End Writes.

(** X7. No operation of the job store or of the agent deletes a job: along
    any sequence of operations, whether they return or raise, an identifier
    that has a row keeps having one. *)
Theorem jobs_are_never_deleted (E : Env) (ops : list op) (w : World)
    (job_id : string) :
  is_Some (db w !! job_id) -> is_Some (db (run_ops E ops w) !! job_id).
Proof. exact (writes_keep_rows E _ _ job_id (writes_run_ops E ops w)). Qed.

Lemma jobs_are_never_deleted_witness :
  is_Some (db (run_ops flaky_env fail_then_resume pending_world) !! "job-0").
Proof.
  apply (jobs_are_never_deleted flaky_env fail_then_resume pending_world "job-0").
  vm_compute. eauto.
Defined.

(** X8. The request of a job and its [created_at] never change: along any
    sequence of operations, the row of an identifier keeps its topic, its
    target word count, its language and its [created_at], as long as
    [uuid4] does not draw that identifier again.  (A job that is created
    under an identifier that is in use replaces the row.) *)
Theorem request_and_created_at_never_change (E : Env) (ops : list op) (w : World)
    (job_id : string) (row : Row.t) :
  db w !! job_id = Some row ->
  not_drawn E job_id w (run_ops E ops w) ->
  exists row' : Row.t,
    db (run_ops E ops w) !! job_id = Some row' /\
    Row.topic row' = Row.topic row /\
    Row.target_word_count row' = Row.target_word_count row /\
    Row.language row' = Row.language row /\
    Row.created_at row' = Row.created_at row.
Proof.
  intros Hrow Hnd.
  destruct (writes_request E _ _ _ _ (writes_run_ops E ops w) Hrow Hnd)
    as (row' & Hrow' & Hc).
  exists row'. split; [exact Hrow'|].
  unfold request_columns in Hc. injection Hc as -> -> -> ->. repeat split.
Qed.

Lemma request_and_created_at_never_change_witness :
  exists row' : Row.t,
    db (run_ops flaky_env
          [UpdateStatus "job-0" RUNNING None; StartGeneration demo_request;
           ResumeJob "job-0"] pending_world) !! "job-0" = Some row' /\
    Row.topic row' = Row.topic (JobManager.row_of_job pending_job) /\
    Row.target_word_count row'
    = Row.target_word_count (JobManager.row_of_job pending_job) /\
    Row.language row' = Row.language (JobManager.row_of_job pending_job) /\
    Row.created_at row' = Row.created_at (JobManager.row_of_job pending_job).
Proof.
  apply (request_and_created_at_never_change flaky_env
           [UpdateStatus "job-0" RUNNING None; StartGeneration demo_request;
            ResumeJob "job-0"] pending_world "job-0"
           (JobManager.row_of_job pending_job)).
  - vm_compute. reflexivity.
  - intros n Hn.
    assert (Hu : uuids_drawn
                   (run_ops flaky_env
                      [UpdateStatus "job-0" RUNNING None; StartGeneration demo_request;
                       ResumeJob "job-0"] pending_world) = 3%nat)
      by (vm_compute; reflexivity).
    rewrite Hu in Hn. change (uuids_drawn pending_world) with 1%nat in Hn.
    assert (Hcase : n = 1%nat \/ n = 2%nat) by lia.
    destruct Hcase as [-> | ->]; vm_compute; discriminate.
Defined.

(** X9. With a clock that never goes back, every job was created before it
    was last updated: along any sequence of operations from a table of
    which this holds, and in which no row was updated after the next
    reading of the clock, [created_at <= updated_at] holds of every row. *)
Theorem created_at_before_updated_at (E : Env) (ops : list op) (w : World)
    (job_id : string) (row : Row.t) :
  monotone_clock E ->
  timely E w ->
  db (run_ops E ops w) !! job_id = Some row ->
  (Row.created_at row <= Row.updated_at row)%Z.
Proof.
  intros Hmono Ht Hrow.
  exact (proj1 (writes_timely E _ _ Hmono (writes_run_ops E ops w) Ht job_id row Hrow)).
Qed.

Lemma created_at_before_updated_at_witness :
  (Row.created_at resumed_row <= Row.updated_at resumed_row)%Z.
Proof.
  apply (created_at_before_updated_at flaky_env fail_then_resume empty_world
           "job-0" resumed_row).
  - intros n m Hnm. cbn. lia.
  - intros job_id row Hrow. cbn in Hrow. rewrite lookup_empty in Hrow.
    discriminate.
  - vm_compute. reflexivity.
Defined.

(** ** The agent and the source data *)

Section SourceData.
Context (E : Env).

(** The end of a generation for a job that is stored with the source data
    [d]: what the job is afterwards, and what the world has spent. *)
Lemma finish_effects (d : SERPData.t) (j : GenerationJob.t) (w : World) :
  stored E j w ->
  exists j' : GenerationJob.t,
    JobManager.get_job E (GenerationJob.job_id j) (snd (finish E d j w))
    = (Ok (Some j'), snd (finish E d j w)) /\
    GenerationJob.job_id j' = GenerationJob.job_id j /\
    GenerationJob.request j' = GenerationJob.request j /\
    GenerationJob.serp_data j' = GenerationJob.serp_data j /\
    GenerationJob.created_at j' = GenerationJob.created_at j /\
    uuids_drawn (snd (finish E d j w)) = uuids_drawn w /\
    service_calls (snd (finish E d j w)) = S (service_calls w) /\
    (forall job_id : string,
       job_id <> GenerationJob.job_id j ->
       db (snd (finish E d j w)) !! job_id = db w !! job_id) /\
    match fst (finish E d j w) with
    | Ok found =>
        found = Some j' /\ GenerationJob.status j' = COMPLETED /\
        exists a, GenerationJob.article j' = Some a /\
                  fst (generator_call E (GenerationJob.request j) d w) = Ok a
    | Raise e =>
        fst (generator_call E (GenerationJob.request j) d w) = Raise e /\
        GenerationJob.status j' = FAILED /\
        GenerationJob.article j' = GenerationJob.article j
    end.
Proof.
  intros Hs. destruct (get_job_Some_stored E _ _ _ Hs) as (_ & _ & Hv).
  unfold finish.
  pose proof (generator_call_valid E (GenerationJob.request j) d w) as Ha.
  destruct (fst (generator_call E (GenerationJob.request j) d w)) as [a|e];
    cbn [fst snd].
  - exists (with_article E a (called w) j).
    split; [apply (get_job_written E (with_article E a (called w) j)), Ha;
            reflexivity|].
    repeat split.
    + intros job_id Hne.
      exact (written_other (with_article E a (called w) j) (called w) job_id Hne).
    + exists a. split; reflexivity.
  - exists (updated_job E FAILED (Some (exn_str e)) (called w) j).
    split.
    { rewrite <- (job_id_updated E FAILED (Some (exn_str e)) (called w) j).
      apply get_job_written, valid_updated, Hv. }
    split; [apply job_id_updated|].
    assert (Hsame : forall job_id : string,
               job_id <> GenerationJob.job_id j ->
               db (written (updated_job E FAILED (Some (exn_str e)) (called w) j)
                     (called w)) !! job_id = db w !! job_id).
    { intros job_id Hne.
      refine (written_other _ (called w) job_id _).
      rewrite job_id_updated. exact Hne. }
    unfold updated_job in *. destruct (JobManager.truthy _); repeat split;
      exact Hsame.
Qed.

Lemma running_job_fields (request : ArticleRequest.t) (w : World) :
  GenerationJob.job_id (running_job E request w) = uuid4 E (uuids_drawn w) /\
  GenerationJob.request (running_job E request w) = request /\
  GenerationJob.serp_data (running_job E request w)
  = Some (SERPAnalyzer.get_serp_data (ArticleRequest.topic request)) /\
  GenerationJob.created_at (running_job E request w) = utcnow E (clock_reads w).
Proof. repeat split. Qed.

Lemma running_world_other (request : ArticleRequest.t) (w : World)
    (job_id : string) :
  job_id <> uuid4 E (uuids_drawn w) ->
  db (running_world E request w) !! job_id = db w !! job_id.
Proof.
  intros Hne.
  assert (Hk : forall (k : string) (row : Row.t) (m : gmap string Row.t),
             k = uuid4 E (uuids_drawn w) ->
             <[k := row]> m !! job_id = m !! job_id).
  { intros k row m ->. apply lookup_insert_ne. congruence. }
  cbv [written set_db tick called running_world created db].
  rewrite !Hk by reflexivity. reflexivity.
Qed.

(** What [generate_article] leaves behind, whether it returns or raises. *)
Lemma generate_article_effects (request : ArticleRequest.t) (w : World) :
  exists j : GenerationJob.t,
    JobManager.get_job E (uuid4 E (uuids_drawn w))
      (snd (SEOAgent.generate_article E request w))
    = (Ok (Some j), snd (SEOAgent.generate_article E request w)) /\
    GenerationJob.job_id j = uuid4 E (uuids_drawn w) /\
    GenerationJob.request j = request /\
    GenerationJob.serp_data j
    = Some (SERPAnalyzer.get_serp_data (ArticleRequest.topic request)) /\
    GenerationJob.created_at j = utcnow E (clock_reads w) /\
    uuids_drawn (snd (SEOAgent.generate_article E request w)) = S (uuids_drawn w) /\
    service_calls (snd (SEOAgent.generate_article E request w))
    = S (service_calls w) /\
    (forall job_id : string,
       job_id <> uuid4 E (uuids_drawn w) ->
       db (snd (SEOAgent.generate_article E request w)) !! job_id
       = db w !! job_id) /\
    match fst (SEOAgent.generate_article E request w) with
    | Ok found => found = Some j /\ GenerationJob.status j = COMPLETED
    | Raise e => GenerationJob.status j = FAILED
    end.
Proof.
  rewrite generate_article_eq.
  destruct (finish_effects (SERPAnalyzer.get_serp_data (ArticleRequest.topic request))
              (running_job E request w) (running_world E request w)
              (holds_stored E _ _ (holds_running E request w)))
    as (j & Hget & Hid & Hreq & Hsd & Hca & Hu & Hsc & Hother & Hend).
  exists j. split; [exact Hget|]. split; [exact Hid|]. split; [exact Hreq|].
  split; [exact Hsd|]. split; [exact Hca|]. split; [exact Hu|].
  split; [exact Hsc|]. split.
  - intros job_id Hne. rewrite (Hother job_id Hne).
    apply running_world_other, Hne.
  - destruct (fst (finish E _ _ _)) as [found|e].
    + destruct Hend as (-> & Hst & _). split; [reflexivity | exact Hst].
    + destruct Hend as (_ & Hst & _). exact Hst.
Qed.

End SourceData.




(** X12. A job that [generate_article] returns is completed for good:
    [resume_job] and [get_job_status] on its identifier return the same job
    and change nothing. *)
Theorem resume_job_after_generate_article (E : Env) (request : ArticleRequest.t)
    (w : World) (j : GenerationJob.t) :
  fst (SEOAgent.generate_article E request w) = Ok (Some j) ->
  SEOAgent.resume_job E (GenerationJob.job_id j)
    (snd (SEOAgent.generate_article E request w))
  = (Ok (Some j), snd (SEOAgent.generate_article E request w)) /\
  SEOAgent.get_job_status E (GenerationJob.job_id j)
    (snd (SEOAgent.generate_article E request w))
  = (Ok j, snd (SEOAgent.generate_article E request w)).
Proof.
  intros Hgen.
  destruct (generate_article_effects E request w)
    as (j0 & Hget & Hid & _ & _ & _ & _ & _ & _ & Hend).
  rewrite Hgen in Hend. destruct Hend as ([= <-] & Hst).
  rewrite Hid. split.
  - apply resume_job_completed; [rewrite Hget; reflexivity | exact Hst].
  - unfold SEOAgent.get_job_status, bind. rewrite Hget. reflexivity.
Qed.

Lemma resume_job_after_generate_article_witness :
  SEOAgent.resume_job (demo_env [Ok "not json"]) (GenerationJob.job_id completed_job)
    (snd (SEOAgent.generate_article (demo_env [Ok "not json"]) demo_request
            empty_world))
  = (Ok (Some completed_job),
     snd (SEOAgent.generate_article (demo_env [Ok "not json"]) demo_request
            empty_world)) /\
  SEOAgent.get_job_status (demo_env [Ok "not json"])
    (GenerationJob.job_id completed_job)
    (snd (SEOAgent.generate_article (demo_env [Ok "not json"]) demo_request
            empty_world))
  = (Ok completed_job,
     snd (SEOAgent.generate_article (demo_env [Ok "not json"]) demo_request
            empty_world)).
Proof.
  apply (resume_job_after_generate_article (demo_env [Ok "not json"]) demo_request
           empty_world completed_job).
  vm_compute. reflexivity.
Defined.



(** ** Strings: reversal and stripping *)

Lemma rev_onto_append (s acc : string) : PyStr.rev_onto s acc = PyStr.rev s ++ acc.
Proof.
  unfold PyStr.rev. revert acc. induction s as [|c s IH]; intros acc; simpl.
  - reflexivity.
  - rewrite (IH (String c acc)), (IH (String c "")), append_assoc. reflexivity.
Qed.

Lemma rev_cons (c : ascii) (s : string) :
  PyStr.rev (String c s) = PyStr.rev s ++ String c "".
Proof. unfold PyStr.rev at 1. simpl. apply rev_onto_append. Qed.

Lemma rev_append (a b : string) : PyStr.rev (a ++ b) = PyStr.rev b ++ PyStr.rev a.
Proof.
  induction a as [|c a IH].
  - simpl. rewrite append_nil_r. reflexivity.
  - rewrite append_cons, !rev_cons, IH, append_assoc. reflexivity.
Qed.

Lemma rev_involutive (s : string) : PyStr.rev (PyStr.rev s) = s.
Proof.
  induction s as [|c s IH]; [reflexivity|].
  rewrite rev_cons, rev_append, IH. reflexivity.
Qed.

Lemma length_rev (s : string) : String.length (PyStr.rev s) = String.length s.
Proof.
  induction s as [|c s IH]; [reflexivity|].
  rewrite rev_cons, length_append, IH. simpl. lia.
Qed.

Lemma prefix_append (p x : string) : String.prefix p (p ++ x) = true.
Proof.
  induction p as [|c p IH]; [destruct x; reflexivity|].
  rewrite append_cons. simpl. rewrite IH.
  destruct (ascii_dec c c); [reflexivity | contradiction].
Qed.

Lemma drop_append (p x : string) : PyStr.drop (String.length p) (p ++ x) = x.
Proof. induction p as [|c p IH]; [reflexivity | rewrite append_cons; exact IH]. Qed.

Lemma endswith_append (p x : string) : PyStr.endswith p (x ++ p) = true.
Proof. unfold PyStr.endswith. rewrite rev_append. apply prefix_append. Qed.

Lemma drop_last_append (p x : string) :
  PyStr.drop_last (String.length p) (x ++ p) = x.
Proof.
  unfold PyStr.drop_last. rewrite length_append.
  replace (String.length x + String.length p - String.length p)%nat
    with (String.length x) by lia.
  apply take_append.
Qed.

Lemma length_lstrip (s : string) :
  PyStr.lstrip s = s \/ (String.length (PyStr.lstrip s) < String.length s)%nat.
Proof.
  induction s as [|c s IH]; [left; reflexivity|]. simpl.
  destruct (PyStr.is_space c); [|left; reflexivity].
  right. destruct IH as [->|IH]; lia.
Qed.

Lemma length_rstrip (s : string) :
  (String.length (PyStr.rstrip s) <= String.length s)%nat.
Proof.
  unfold PyStr.rstrip. rewrite length_rev, <- (length_rev s).
  destruct (length_lstrip (PyStr.rev s)) as [->|H]; lia.
Qed.

(** A text that [strip] leaves as it is has no white space to lose at
    either end. *)
Lemma strip_fixed (s : string) :
  PyStr.strip s = s -> PyStr.lstrip s = s /\ PyStr.rstrip s = s.
Proof.
  unfold PyStr.strip. intros H.
  destruct (length_lstrip s) as [Hl|Hl].
  - rewrite Hl in H. split; assumption.
  - pose proof (length_rstrip (PyStr.lstrip s)) as Hr. rewrite H in Hr. lia.
Qed.

Lemma lstrip_space (sp s : string) :
  all_chars PyStr.is_space sp = true -> PyStr.lstrip (sp ++ s) = PyStr.lstrip s.
Proof.
  induction sp as [|c sp IH]; [reflexivity|]. simpl. intros H.
  apply andb_true_iff in H. destruct H as [Hc Hsp]. rewrite Hc. exact (IH Hsp).
Qed.

Lemma all_chars_rev (p : ascii -> bool) (s : string) :
  all_chars p (PyStr.rev s) = all_chars p s.
Proof.
  induction s as [|c s IH]; [reflexivity|].
  rewrite rev_cons, all_chars_snoc, IH. simpl. apply andb_comm.
Qed.

Lemma rstrip_space (s sp : string) :
  all_chars PyStr.is_space sp = true -> PyStr.rstrip (s ++ sp) = PyStr.rstrip s.
Proof.
  intros H. unfold PyStr.rstrip. rewrite rev_append, lstrip_space; [reflexivity|].
  rewrite all_chars_rev. exact H.
Qed.

Lemma lstrip_append (s t : string) :
  PyStr.lstrip s = s -> s <> "" -> PyStr.lstrip (s ++ t) = s ++ t.
Proof.
  destruct s as [|c s]; [contradiction|]. simpl.
  destruct (PyStr.is_space c) eqn:Hc; [|reflexivity].
  intros H _. exfalso.
  destruct (length_lstrip s) as [Hl|Hl]; rewrite H in Hl.
  - apply (f_equal String.length) in Hl. simpl in Hl. lia.
  - simpl in Hl. lia.
Qed.

(** White space around a text that [strip] leaves as it is. *)
Lemma strip_between_space (sp1 sp2 s : string) :
  all_chars PyStr.is_space sp1 = true -> all_chars PyStr.is_space sp2 = true ->
  PyStr.strip s = s -> PyStr.strip (sp1 ++ s ++ sp2) = s.
Proof.
  intros H1 H2 Hs. destruct (strip_fixed s Hs) as (Hl & Hr).
  unfold PyStr.strip. rewrite (lstrip_space sp1 _ H1).
  destruct s as [|c s].
  - assert (Hsp : PyStr.lstrip sp2 = "").
    { rewrite <- (append_nil_r sp2). exact (lstrip_space sp2 "" H2). }
    change ("" ++ sp2) with sp2. rewrite Hsp. reflexivity.
  - rewrite (lstrip_append _ sp2 Hl) by discriminate.
    rewrite (rstrip_space _ sp2 H2). exact Hr.
Qed.

(** A text between two characters that are no white space. *)
Lemma strip_between_marks (c1 c2 : ascii) (s : string) :
  PyStr.is_space c1 = false -> PyStr.is_space c2 = false ->
  PyStr.strip (String c1 (s ++ String c2 "")) = String c1 (s ++ String c2 "").
Proof.
  intros H1 H2. unfold PyStr.strip. simpl. rewrite H1.
  unfold PyStr.rstrip.
  change (String c1 (s ++ String c2 "")) with (String c1 s ++ String c2 "").
  rewrite rev_append. simpl PyStr.rev at 1.
  change (PyStr.rev (String c2 "")) with (String c2 "").
  rewrite append_cons. simpl. rewrite H2.
  change (String c2 ("" ++ PyStr.rev (String c1 s)))
    with (PyStr.rev (String c2 "") ++ PyStr.rev (String c1 s)).
  rewrite <- rev_append. apply rev_involutive.
Qed.

Lemma clean_response_fence (lang body : string) :
  (lang = "json" \/ lang = "") ->
  PyStr.strip body = body ->
  ArticleGenerator.clean_response
    ("```" ++ lang ++ ArticleGenerator.nl ++ body ++ ArticleGenerator.nl ++ "```")
  = body.
Proof.
  intros Hlang Hbody. unfold ArticleGenerator.clean_response. cbv zeta.
  set (nl := ArticleGenerator.nl).
  set (rest := nl ++ body ++ nl ++ "```").
  assert (Hstrip : PyStr.strip ("```" ++ lang ++ rest) = "```" ++ lang ++ rest).
  { replace ("```" ++ lang ++ rest)
      with (String "`" (("``" ++ lang ++ nl ++ body ++ nl ++ "``") ++ String "`" "")).
    - apply strip_between_marks; reflexivity.
    - unfold rest. rewrite !append_assoc. reflexivity. }
  rewrite Hstrip.
  assert (Hrest : (if PyStr.startswith "```" rest then PyStr.drop 3 rest else rest)
                  = rest) by reflexivity.
  assert (Hend : (if PyStr.endswith "```" rest then PyStr.drop_last 3 rest else rest)
                 = nl ++ body ++ nl).
  { unfold rest.
    replace (nl ++ body ++ nl ++ "```") with ((nl ++ body ++ nl) ++ "```")
      by (rewrite !append_assoc; reflexivity).
    rewrite endswith_append. apply (drop_last_append "```"). }
  destruct Hlang as [-> | ->].
  - change ("```" ++ "json" ++ rest) with ("```json" ++ rest).
    rewrite (prefix_append "```json" rest
             : PyStr.startswith "```json" ("```json" ++ rest) = true).
    rewrite (drop_append "```json" rest : PyStr.drop 7 ("```json" ++ rest) = rest).
    rewrite Hrest, Hend.
    apply strip_between_space; [reflexivity | reflexivity | exact Hbody].
  - change ("```" ++ "" ++ rest) with ("```" ++ rest).
    assert (Hno : PyStr.startswith "```json" ("```" ++ rest) = false) by reflexivity.
    rewrite Hno.
    rewrite (prefix_append "```" rest
             : PyStr.startswith "```" ("```" ++ rest) = true).
    rewrite (drop_append "```" rest : PyStr.drop 3 ("```" ++ rest) = rest).
    rewrite Hend.
    apply strip_between_space; [reflexivity | reflexivity | exact Hbody].
Qed.

(** ** What the generator makes of an answer *)

(** X14. An answer that comes between the code fence of Markdown, with or
    without the language name [json], is decoded without the fence:
    [json.loads] is given the text between the two fence lines, and the
    article is the one of that text. *)
Theorem fenced_answer_is_unwrapped (E : Env) (body topic : string)
    (outline : ArticleOutline.t) (twc : Z) :
  PyStr.strip body = body ->
  ArticleGenerator.clean_response (fenced_json body) = body /\
  ArticleGenerator.clean_response (fenced body) = body /\
  ArticleGenerator._parse_article_response E (fenced_json body) topic outline twc
  = ArticleGenerator.article_of_data E (decoded E body topic outline twc) outline /\
  ArticleGenerator._parse_article_response E (fenced body) topic outline twc
  = ArticleGenerator.article_of_data E (decoded E body topic outline twc) outline.
Proof.
  intros Hbody.
  assert (H1 : ArticleGenerator.clean_response (fenced_json body) = body).
  { exact (clean_response_fence "json" body (or_introl eq_refl) Hbody). }
  assert (H2 : ArticleGenerator.clean_response (fenced body) = body).
  { exact (clean_response_fence "" body (or_intror eq_refl) Hbody). }
  split; [exact H1|]. split; [exact H2|].
  unfold ArticleGenerator._parse_article_response, ArticleGenerator.response_data,
    decoded.
  rewrite H1, H2. split; reflexivity.
Qed.

Lemma fenced_answer_is_unwrapped_witness :
  ArticleGenerator.clean_response (fenced_json full_answer_text) = full_answer_text /\
  ArticleGenerator.clean_response (fenced full_answer_text) = full_answer_text /\
  ArticleGenerator._parse_article_response answer_env (fenced_json full_answer_text)
    "tea" demo_outline 800
  = ArticleGenerator.article_of_data answer_env
      (decoded answer_env full_answer_text "tea" demo_outline 800) demo_outline /\
  ArticleGenerator._parse_article_response answer_env (fenced full_answer_text)
    "tea" demo_outline 800
  = ArticleGenerator.article_of_data answer_env
      (decoded answer_env full_answer_text "tea" demo_outline 800) demo_outline.
Proof.
  apply (fenced_answer_is_unwrapped answer_env full_answer_text "tea" demo_outline 800).
  vm_compute. reflexivity.
Defined.

Section Answers.
Context (E : Env).



(** The keys that an article was made of. *)
Lemma article_of_data_keys (data : json) (outline : ArticleOutline.t)
    (a : GeneratedArticle.t) (k : string) :
  ArticleGenerator.article_of_data E data outline = Ok a ->
  k ∈ answer_keys -> exists v, PyJson.getitem E data k = Ok v.
Proof.
  unfold ArticleGenerator.article_of_data. intros H Hk.
  bind_inv H html Hhtml. bind_inv H text Htext.
  bind_inv H pkv Hpk. bind_inv H pk Hpkt.
  bind_inv H ttv Htt. bind_inv H tt60 Htt60.
  bind_inv H mdv Hmd. bind_inv H md160 Hmd160.
  bind_inv H seo Hseo. bind_inv H sk Hsk. bind_inv H ka Hka.
  bind_inv H il Hil. bind_inv H ili Hili. bind_inv H links Hlinks.
  bind_inv H er Her. bind_inv H eri Heri. bind_inv H refs Hrefs.
  unfold answer_keys in Hk.
  repeat (apply elem_of_cons in Hk; destruct Hk as [->|Hk]; [eauto|]).
  inversion Hk.
Qed.

End Answers.



(** X16. An answer that decodes to an object without one of the seven keys
    [article_html], [primary_keyword], [title_tag], [meta_description],
    [secondary_keywords], [internal_links] and [external_references] gives no
    article: [_parse_article_response] raises, and there is no fallback for
    it.  Without [article_html] the error is [KeyError('article_html')]. *)
Theorem answer_without_key_gives_no_article (E : Env) (response topic : string)
    (outline : ArticleOutline.t) (twc : Z) (items : list (string * json))
    (k : string) :
  json_loads E (ArticleGenerator.clean_response response) = Some (JObj items) ->
  k ∈ answer_keys ->
  assoc k items = None ->
  (exists e : exn,
     ArticleGenerator._parse_article_response E response topic outline twc = Raise e) /\
  (k = "article_html" ->
   ArticleGenerator._parse_article_response E response topic outline twc
   = Raise (KeyError "article_html")).
Proof.
  intros Hload Hk Hnone.
  unfold ArticleGenerator._parse_article_response, ArticleGenerator.response_data.
  rewrite Hload. split.
  - destruct (ArticleGenerator.article_of_data E (JObj items) outline) as [a|e] eqn:Ha;
      [|eauto].
    destruct (article_of_data_keys E _ _ _ k Ha Hk) as (v & Hv).
    cbn in Hv. rewrite Hnone in Hv. discriminate.
  - intros ->. unfold ArticleGenerator.article_of_data, PyJson.getitem.
    rewrite Hnone. reflexivity.
Qed.

Lemma answer_without_key_gives_no_article_witness :
  (exists e : exn,
     ArticleGenerator._parse_article_response answer_env "{}" "tea" demo_outline 800
     = Raise e) /\
  ("article_html" = "article_html" ->
   ArticleGenerator._parse_article_response answer_env "{}" "tea" demo_outline 800
   = Raise (KeyError "article_html")).
Proof.
  apply (answer_without_key_gives_no_article answer_env "{}" "tea" demo_outline 800
           [] "article_html").
  - vm_compute. reflexivity.
  - apply list_elem_of_here.
  - reflexivity.
Defined.

(** X17. An answer that decodes to a JSON value that is no object (a list,
    a string, a number, a truth value or null) gives no article and no
    fallback: subscripting it with a key raises a [TypeError]. *)
Theorem answer_that_is_no_object_raises_type_error (E : Env)
    (response topic : string) (outline : ArticleOutline.t) (twc : Z) (data : json) :
  json_loads E (ArticleGenerator.clean_response response) = Some data ->
  (forall items : list (string * json), data <> JObj items) ->
  exists e : exn,
    ArticleGenerator._parse_article_response E response topic outline twc = Raise e /\
    exn_class e = "TypeError".
Proof.
  intros Hload Hno.
  unfold ArticleGenerator._parse_article_response, ArticleGenerator.response_data.
  rewrite Hload. unfold ArticleGenerator.article_of_data.
  destruct data as [| | | | |l|items]; cbn; try (eexists; split; reflexivity).
  exfalso. exact (Hno items eq_refl).
Qed.

Lemma answer_that_is_no_object_raises_type_error_witness :
  exists e : exn,
    ArticleGenerator._parse_article_response answer_env "[]" "tea" demo_outline 800
    = Raise e /\
    exn_class e = "TypeError".
Proof.
  apply (answer_that_is_no_object_raises_type_error answer_env "[]" "tea"
           demo_outline 800 (JArr [])).
  - vm_compute. reflexivity.
  - discriminate.
Defined.

(** X18. [SEOMetadata] takes a title of at most 60 characters and a
    description of at most 160 characters as they are, and raises a
    [ValidationError] for a longer title or a longer description: the class
    never cuts a text. *)
Theorem seo_metadata_accepts_within_bounds_only (E : Env) (title desc : string) :
  ((String.length title <= 60)%nat /\ (String.length desc <= 160)%nat ->
   SEOMetadata.validate E (JStr title) (JStr desc) = Ok (SEOMetadata.mk title desc)) /\
  ((60 < String.length title)%nat \/ (160 < String.length desc)%nat ->
   exists e : exn,
     SEOMetadata.validate E (JStr title) (JStr desc) = Raise e /\
     exn_class e = "ValidationError").
Proof.
  split.
  - intros [Ht Hd]. apply SEOMetadata_validate_ok; assumption.
  - intros Hlong. unfold SEOMetadata.validate, SEOMetadata.validate_title_length,
      SEOMetadata.validate_description_length. cbn [str_field rbind].
    destruct (Nat.ltb_spec 60 (String.length title)) as [Ht|Ht];
      [eexists; split; reflexivity|].
    destruct (Nat.ltb_spec 160 (String.length desc)) as [Hd|Hd];
      [eexists; split; reflexivity | lia].
Qed.

(** ** The list of the jobs *)














(** ** The words of the fetched results *)

Lemma lower_append (a b : string) :
  PyStr.lower (a ++ b) = PyStr.lower a ++ PyStr.lower b.
Proof.
  induction a as [|c a IH]; [reflexivity|].
  rewrite append_cons. cbn [PyStr.lower PyStr.map_chars]. rewrite append_cons.
  f_equal. exact IH.
Qed.

(** A character outside the class ends the run that is being read. *)
Lemma runs_from_sep (p : ascii -> bool) (cur a : string) (c : ascii) (r : string) :
  p c = false ->
  runs_from p cur (a ++ String c r) = (runs_from p cur a ++ runs_from p "" r)%list.
Proof.
  intros Hc. revert cur. induction a as [|x a IH]; intros cur.
  - change ("" ++ String c r) with (String c r). cbn [runs_from]. rewrite Hc.
    destruct (String.eqb cur ""); reflexivity.
  - rewrite append_cons. cbn [runs_from]. destruct (p x); [apply IH|].
    destruct (String.eqb cur ""); [apply IH|].
    rewrite IH. reflexivity.
Qed.

Lemma kept_words_sep (a : string) (c : ascii) (r : string) :
  PyStr.is_word c = false ->
  kept_words (a ++ String c r) = (kept_words a ++ kept_words r)%list.
Proof.
  intros Hc. unfold kept_words. rewrite !findall_delimited_tokens.
  unfold delimited_tokens, word_runs. rewrite (runs_from_sep _ _ _ _ _ Hc).
  rewrite !filter_app. reflexivity.
Qed.

Lemma kept_words_space (a r : string) :
  kept_words (a ++ " " ++ r) = (kept_words a ++ kept_words r)%list.
Proof. apply (kept_words_sep a " "%char r). reflexivity. Qed.

(** The words of texts that are joined by spaces. *)
Lemma kept_words_join (l : list string) :
  kept_words (PyStr.lower (PyStr.join " " l))
  = concat (map (fun x => kept_words (PyStr.lower x)) l).
Proof.
  induction l as [|x l IH]; [reflexivity|].
  destruct l as [|y l].
  - cbn [PyStr.join map concat]. rewrite app_nil_r. reflexivity.
  - change (PyStr.join " " (x :: y :: l)) with (x ++ " " ++ PyStr.join " " (y :: l)).
    rewrite !lower_append. change (PyStr.lower " ") with " ".
    rewrite kept_words_space, IH. reflexivity.
Qed.

(** The words of one result, whose title starts with [pre]. *)
Lemma kept_words_result (pre query : string) :
  kept_words (PyStr.lower pre) = [] ->
  kept_words
    (PyStr.lower
       ((pre ++ " " ++ query ++ " - Complete Guide 2025") ++ " "
        ++ ("Discover the best practices for " ++ query
            ++ ". Learn about tools, strategies, and tips...")))
  = result_words query.
Proof.
  intros Hpre. rewrite !lower_append.
  change (PyStr.lower " ") with " ".
  change (PyStr.lower " - Complete Guide 2025") with (" " ++ "- complete guide 2025").
  change (PyStr.lower "Discover the best practices for ")
    with ("discover the best practices for" ++ " ").
  change (PyStr.lower ". Learn about tools, strategies, and tips...")
    with (String "."%char " learn about tools, strategies, and tips...").
  rewrite !append_assoc.
  rewrite kept_words_space, Hpre.
  rewrite kept_words_space.
  rewrite kept_words_space.
  rewrite kept_words_space.
  rewrite (kept_words_sep (PyStr.lower query) "."%char) by reflexivity.
  reflexivity.
Qed.

Lemma meaningful_words_kept (serp_data : SERPData.t) :
  SERPAnalyzer.meaningful_words serp_data
  = kept_words (PyStr.lower (SERPAnalyzer.all_text serp_data)).
Proof. reflexivity. Qed.

Lemma meaningful_words_fetched (query : string) :
  SERPAnalyzer.meaningful_words (SERPAnalyzer.get_serp_data query)
  = concat (replicate 10 (result_words query)).
Proof.
  rewrite meaningful_words_kept. unfold SERPAnalyzer.all_text.
  rewrite kept_words_join.
  unfold SERPAnalyzer.get_serp_data, SERPAnalyzer._generate_mock_serp.
  cbn [SERPData.results seq map SERPResult.title SERPResult.snippet].
  assert (H : forall n : nat,
             (n < 20)%nat ->
             kept_words
               (PyStr.lower
                  (("Top " ++ PyStr.of_nat n ++ " " ++ query ++ " - Complete Guide 2025")
                   ++ " "
                   ++ ("Discover the best practices for " ++ query
                       ++ ". Learn about tools, strategies, and tips...")))
             = result_words query).
  { intros n Hn.
    replace ("Top " ++ PyStr.of_nat n ++ " " ++ query ++ " - Complete Guide 2025")
      with (("Top " ++ PyStr.of_nat n) ++ " " ++ query ++ " - Complete Guide 2025")
      by (rewrite !append_assoc; reflexivity).
    apply kept_words_result.
    do 20 (destruct n as [|n]; [vm_compute; reflexivity|]). lia. }
  rewrite !H by lia. reflexivity.
Qed.

Lemma occurrences_app (l1 l2 : list string) (w : string) :
  occurrences (l1 ++ l2) w = (occurrences l1 w + occurrences l2 w)%nat.
Proof. apply count_occ_app. Qed.

Lemma occurrences_repeated (n : nat) (l : list string) (w : string) :
  occurrences (concat (replicate n l)) w = (n * occurrences l w)%nat.
Proof.
  induction n as [|n IH]; [reflexivity|].
  cbn [replicate concat]. rewrite occurrences_app, IH. lia.
Qed.

(** X21. The themes of the data that the program fetches, for any query.
    Each of the ten results gives the same words: the words of the query
    twice, for the title and the snippet, and the seven words [complete],
    [discover], [practices], [learn], [tools], [strategies] and [tips] of the
    text around it.  So [extract_themes] never returns an empty dict for
    fetched data, and every count is ten times the count in one result. *)
Theorem themes_of_fetched_data (query : string) :
  SERPAnalyzer.meaningful_words (SERPAnalyzer.get_serp_data query)
  = concat (replicate 10 (result_words query)) /\
  SERPAnalyzer.extract_themes (SERPAnalyzer.get_serp_data query) <> [] /\
  (forall (w : string) (n : nat),
     (w, n) ∈ SERPAnalyzer.extract_themes (SERPAnalyzer.get_serp_data query) ->
     n = (10 * occurrences (result_words query) w)%nat /\ (10 <= n)%nat).
Proof.
  pose proof (meaningful_words_fetched query) as Hwords.
  split; [exact Hwords|].
  unfold SERPAnalyzer.extract_themes, Counter.most_common. rewrite Hwords.
  set (words := concat (replicate 10 (result_words query))).
  split.
  - assert (Hin : ("complete", occurrences words "complete")
                  ∈ Counter.sorted_desc (Counter.of_list words)).
    { apply sorted_desc_items. split; [|reflexivity].
      unfold words. cbn [replicate concat]. apply elem_of_app. left.
      unfold result_words. apply elem_of_app. right. apply list_elem_of_here. }
    destruct (Counter.sorted_desc (Counter.of_list words)) as [|x l];
      [inversion Hin | discriminate].
  - intros w n Hin. apply list_elem_of_In, In_firstn, list_elem_of_In in Hin.
    apply sorted_desc_items in Hin. destruct Hin as [Hw ->].
    unfold words in *. rewrite occurrences_repeated. split; [reflexivity|].
    apply occurrences_pos in Hw. rewrite occurrences_repeated in Hw. lia.
Qed.

(** ** The outline and the questions *)

Lemma endswith_mark (s : string) : PyStr.endswith "?" (s ++ "?") = true.
Proof. apply endswith_append. Qed.

(** X22. The outline and the questions are made of the query alone:
    neither the results nor the themes that [extract_themes] has counted
    change them.  The outline has its heading and four sections of three
    subsections each, whatever the query; there are four questions, and each
    ends with a question mark. *)
Theorem outline_and_questions_depend_on_query_alone (serp_data : SERPData.t)
    (themes : list (string * nat)) :
  SERPAnalyzer.generate_outline serp_data themes
  = SERPAnalyzer.generate_outline (SERPData.mk (SERPData.query serp_data) []) [] /\
  SERPAnalyzer.extract_questions serp_data
  = SERPAnalyzer.extract_questions (SERPData.mk (SERPData.query serp_data) []) /\
  ArticleOutline.h1 (SERPAnalyzer.generate_outline serp_data themes)
  = "The Complete Guide to " ++ PyStr.title (SERPData.query serp_data) /\
  length (ArticleOutline.sections (SERPAnalyzer.generate_outline serp_data themes))
  = 4%nat /\
  Forall (fun s => length (OutlineSection.h3 s) = 3%nat)
    (ArticleOutline.sections (SERPAnalyzer.generate_outline serp_data themes)) /\
  length (SERPAnalyzer.extract_questions serp_data) = 4%nat /\
  Forall (fun q => PyStr.endswith "?" q = true)
    (SERPAnalyzer.extract_questions serp_data).
Proof.
  split; [reflexivity|]. split; [reflexivity|]. split; [reflexivity|].
  split; [reflexivity|]. split; [repeat constructor|]. split; [reflexivity|].
  unfold SERPAnalyzer.extract_questions.
  repeat constructor; rewrite <- ?append_assoc; apply endswith_mark.
Qed.

(** ** Rows that can be read, and completed jobs *)

Section Readable.
Context (E : Env).

Lemma get_job_same_row (job_id : string) (w w' : World) :
  db w' !! job_id = db w !! job_id ->
  fst (JobManager.get_job E job_id w') = fst (JobManager.get_job E job_id w).
Proof.
  intros H. unfold JobManager.get_job. rewrite H.
  destruct (db w !! job_id) as [row|]; [|reflexivity].
  destruct (JobManager._row_to_job E job_id row); reflexivity.
Qed.

Lemma rewritten_refl (w : World) : rewritten E w w.
Proof. intros job_id. left. reflexivity. Qed.

Lemma rewritten_trans (w1 w2 w3 : World) :
  rewritten E w1 w2 -> rewritten E w2 w3 -> rewritten E w1 w3.
Proof.
  intros H12 H23 job_id. destruct (H23 job_id) as [H3|H3]; [|right; exact H3].
  destruct (H12 job_id) as [H2|(j & Hid & Hs)]; [left; congruence|].
  right. exists j. split; [exact Hid|].
  apply (stored_same_row E j w2 w3); [rewrite Hid; exact H3 | exact Hs].
Qed.

Lemma rewritten_written (j : GenerationJob.t) (w : World) :
  GenerationJob.valid j -> rewritten E w (written j w).
Proof.
  intros Hv job_id. destruct (decide (job_id = GenerationJob.job_id j)) as [->|Hne].
  - right. exists j. split; [reflexivity|]. apply holds_stored, holds_written, Hv.
  - left. apply written_other, Hne.
Qed.

Lemma rewritten_created (request : ArticleRequest.t) (w : World) :
  rewritten E w (created E request w).
Proof.
  intros job_id. destruct (decide (job_id = uuid4 E (uuids_drawn w))) as [->|Hne].
  - right. exists (created_job E request w). split; [reflexivity|].
    apply holds_stored. split; [apply lookup_insert_eq | exact I].
  - left. apply lookup_insert_ne. congruence.
Qed.

Lemma rewritten_readable (w w' : World) :
  rewritten E w w' -> readable E w -> readable E w'.
Proof.
  intros Hrw Hr job_id. destruct (Hrw job_id) as [Hsame|(j & Hid & Hs)].
  - rewrite (get_job_same_row job_id w w' Hsame). apply Hr.
  - exists (Some j). rewrite <- Hid. exact Hs.
Qed.

Lemma stored_valid (j : GenerationJob.t) (w : World) :
  stored E j w -> GenerationJob.valid j.
Proof. intros Hs. exact (proj2 (proj2 (get_job_Some_stored E _ _ _ Hs))). Qed.

Lemma rewritten_update_job_status (job_id : string) (status : JobStatus)
    (error : option string) (w : World) :
  rewritten E w (snd (JobManager.update_job_status E job_id status error w)).
Proof.
  destruct (update_job_status_world E job_id status error w)
    as [->|(j & Hs & _ & ->)]; [apply rewritten_refl|].
  apply rewritten_written, valid_updated, (stored_valid j w Hs).
Qed.

Lemma rewritten_finish (d : SERPData.t) (j : GenerationJob.t) (w : World) :
  stored E j w -> rewritten E w (snd (finish E d j w)).
Proof.
  intros Hs job_id.
  destruct (finish_effects E d j w Hs)
    as (j' & Hget & Hid & _ & _ & _ & _ & _ & Hother & _).
  destruct (decide (job_id = GenerationJob.job_id j)) as [->|Hne].
  - right. exists j'. split; [exact Hid|]. unfold stored. rewrite Hid, Hget.
    reflexivity.
  - left. exact (Hother job_id Hne).
Qed.

Lemma rewritten_generate_article (request : ArticleRequest.t) (w : World) :
  rewritten E w (snd (SEOAgent.generate_article E request w)).
Proof.
  intros job_id.
  destruct (generate_article_effects E request w)
    as (j & Hget & Hid & _ & _ & _ & _ & _ & Hother & _).
  destruct (decide (job_id = uuid4 E (uuids_drawn w))) as [->|Hne].
  - right. exists j. split; [exact Hid|]. unfold stored. rewrite Hid, Hget.
    reflexivity.
  - left. exact (Hother job_id Hne).
Qed.

Lemma rewritten_resume_job (job_id : string) (w : World) :
  rewritten E w (snd (SEOAgent.resume_job E job_id w)).
Proof.
  destruct (fst (JobManager.get_job E job_id w)) as [[j|]|e] eqn:Hget.
  - destruct (get_job_Some_stored E _ _ _ Hget) as (Hid & Hs & _). subst job_id.
    destruct (decide (GenerationJob.status j = COMPLETED)) as [Hc|Hc].
    + rewrite (resume_job_completed E _ j w Hget Hc). apply rewritten_refl.
    + rewrite (resume_job_eq E j w Hs Hc).
      destruct (GenerationJob.serp_data j) as [d|]; [apply rewritten_finish, Hs|].
      unfold try_except.
      pose proof (rewritten_generate_article (GenerationJob.request j) w) as Hgen.
      destruct (SEOAgent.generate_article E (GenerationJob.request j) w)
        as [[found|e] w1]; cbn [snd] in *; [exact Hgen|].
      unfold resume_handler, bind.
      pose proof (rewritten_update_job_status (GenerationJob.job_id j) FAILED
                    (Some (exn_str e)) w1) as Hupd.
      destruct (JobManager.update_job_status E (GenerationJob.job_id j) FAILED
                  (Some (exn_str e)) w1) as [[u|e'] w2]; cbn [snd] in *;
        exact (rewritten_trans _ _ _ Hgen Hupd).
  - unfold SEOAgent.resume_job, bind. rewrite get_job_eq, Hget.
    apply rewritten_refl.
  - unfold SEOAgent.resume_job, bind. rewrite get_job_eq, Hget.
    apply rewritten_refl.
Qed.

Lemma rewritten_run_op (o : op) (w : World) :
  (forall job_id article, o = SaveArticle job_id article ->
                          GeneratedArticle.valid article) ->
  rewritten E w (run_op E o w).
Proof.
  destruct o as [request|job_id status error|job_id d|job_id a|request|job_id];
    cbn [run_op]; intros Hvalid.
  - rewrite create_job_eq. apply rewritten_created.
  - apply rewritten_update_job_status.
  - destruct (save_serp_data_world E job_id d w) as [->|(j & Hs & ->)];
      [apply rewritten_refl|].
    apply rewritten_written. exact (stored_valid j w Hs).
  - destruct (save_article_world E job_id a w) as [->|(j & Hs & ->)];
      [apply rewritten_refl|].
    apply rewritten_written. exact (Hvalid job_id a eq_refl).
  - apply rewritten_generate_article.
  - apply rewritten_resume_job.
Qed.

Lemma rewritten_run_ops (ops : list op) (w : World) :
  saves_valid_articles ops -> rewritten E w (run_ops E ops w).
Proof.
  revert w. induction ops as [|o ops IH]; intros w Hvalid; [apply rewritten_refl|].
  cbn [run_ops fold_left].
  apply (rewritten_trans w (run_op E o w)).
  - apply rewritten_run_op. intros job_id a ->. apply (Hvalid job_id a). left.
    reflexivity.
  - apply IH. intros job_id a Hin. apply (Hvalid job_id a). right. exact Hin.
Qed.

End Readable.

(** X23. What the program has written, it can read: along any sequence of
    operations of the job store and of the agent, from a table of which
    every row decodes, [get_job] raises for no identifier.  The articles
    that are given to [save_article] are taken to be within the bounds that
    the class [SEOMetadata] guarantees of its instances. *)
Theorem written_rows_are_readable (E : Env) (ops : list op) (w : World)
    (job_id : string) :
  saves_valid_articles ops ->
  readable E w ->
  exists found : option GenerationJob.t,
    fst (JobManager.get_job E job_id (run_ops E ops w)) = Ok found.
Proof.
  intros Hvalid Hr.
  exact (rewritten_readable E _ _ (rewritten_run_ops E ops w Hvalid) Hr job_id).
Qed.

Lemma written_rows_are_readable_witness :
  exists found : option GenerationJob.t,
    fst (JobManager.get_job flaky_env "job-0"
           (run_ops flaky_env
              [StartGeneration demo_request; SaveArticle "job-0" demo_article;
               ResumeJob "job-0"] empty_world)) = Ok found.
Proof.
  apply (written_rows_are_readable flaky_env
           [StartGeneration demo_request; SaveArticle "job-0" demo_article;
            ResumeJob "job-0"] empty_world "job-0").
  - intros job_id article [Hin|[Hin|[Hin|[]]]]; try discriminate.
    injection Hin as _ <-. vm_compute. split; lia.
  - intros job_id. exists None. reflexivity.
Defined.

Section Completed.
Context (E : Env).

Lemma value_completed (st : JobStatus) :
  Status.value st = "completed" <-> st = COMPLETED.
Proof. destruct st; split; intros H; try discriminate; reflexivity. Qed.

(** What [_row_to_job] makes of the article of a row. *)
Lemma row_to_job_article (job_id : string) (row : Row.t) (j : GenerationJob.t) :
  JobManager._row_to_job E job_id row = Ok j ->
  (is_Some (Row.article_data row) <-> is_Some (GenerationJob.article j)).
Proof.
  unfold JobManager._row_to_job. intros H.
  bind_inv H sd Hsd. bind_inv H ar Har. bind_inv H st Hst.
  injection H as <-. cbn. unfold JobManager.load_model in Har.
  destruct (Row.article_data row) as [v|].
  - bind_inv Har kw Hkw. bind_inv Har a Ha. injection Har as <-.
    split; intros _; eauto.
  - injection Har as <-. split; intros [x Hx]; discriminate.
Qed.

(** The row of a job that [get_job] reads. *)
Lemma stored_completed_with_article (j : GenerationJob.t) (w : World)
    (row : Row.t) :
  stored E j w -> db w !! GenerationJob.job_id j = Some row ->
  (completed_with_article row <->
   (GenerationJob.status j = COMPLETED <-> is_Some (GenerationJob.article j))).
Proof.
  intros Hs Hrow. destruct (get_job_Some E _ _ _ Hs) as (row' & Hrow' & Hj).
  rewrite Hrow in Hrow'. injection Hrow' as <-.
  destruct (row_to_job_Ok E _ _ _ Hj) as (_ & _ & Hst & _).
  unfold completed_with_article.
  rewrite Hst, value_completed, (row_to_job_article _ _ _ Hj). reflexivity.
Qed.

(** A step that leaves every row as it was, but for the row of one job. *)
Lemma completed_have_articles_step (j : GenerationJob.t) (w w' : World) :
  completed_have_articles w ->
  stored E j w' ->
  (forall job_id : string,
     job_id <> GenerationJob.job_id j -> db w' !! job_id = db w !! job_id) ->
  (GenerationJob.status j = COMPLETED <-> is_Some (GenerationJob.article j)) ->
  completed_have_articles w'.
Proof.
  intros Hinv Hs Hother Hj job_id row Hrow.
  destruct (decide (job_id = GenerationJob.job_id j)) as [->|Hne].
  - apply (stored_completed_with_article j w' row Hs Hrow). exact Hj.
  - rewrite (Hother job_id Hne) in Hrow. exact (Hinv job_id row Hrow).
Qed.

Lemma completed_have_articles_generate (request : ArticleRequest.t) (w : World) :
  completed_have_articles w ->
  completed_have_articles (snd (SEOAgent.generate_article E request w)).
Proof.
  intros Hinv. rewrite generate_article_eq.
  assert (Hrun : stored E (running_job E request w) (running_world E request w))
    by apply holds_stored, holds_running.
  destruct (finish_effects E (SERPAnalyzer.get_serp_data (ArticleRequest.topic request))
              (running_job E request w) (running_world E request w) Hrun)
    as (j' & Hget & Hid & _ & _ & _ & _ & _ & Hother & Hend).
  apply (completed_have_articles_step j' w); [exact Hinv | | |].
  - unfold stored. rewrite Hid, Hget. reflexivity.
  - intros job_id Hne. rewrite Hid in Hne. rewrite (Hother job_id Hne).
    apply running_world_other, Hne.
  - destruct (fst (finish E _ _ _)) as [found|e].
    + destruct Hend as (_ & Hst & a & Ha & _). rewrite Hst, Ha.
      split; intros _; eauto.
    + destruct Hend as (_ & Hst & Ha). rewrite Hst, Ha.
      split; [discriminate | intros [x Hx]; discriminate].
Qed.

Lemma completed_have_articles_failed (job_id : string) (error : option string)
    (w : World) :
  completed_have_articles w ->
  (forall j, stored E j w -> GenerationJob.job_id j = job_id ->
             GenerationJob.article j = None) ->
  completed_have_articles
    (snd (JobManager.update_job_status E job_id FAILED error w)).
Proof.
  intros Hinv Hnone.
  destruct (update_job_status_world E job_id FAILED error w)
    as [->|(j & Hs & Hid & ->)]; [exact Hinv|].
  apply (completed_have_articles_step (updated_job E FAILED error w j) w);
    [exact Hinv | | |].
  - apply holds_stored, holds_written, valid_updated.
    exact (proj2 (proj2 (get_job_Some_stored E _ _ _ Hs))).
  - intros id Hne. apply written_other. exact Hne.
  - pose proof (Hnone j Hs Hid) as Ha.
    unfold updated_job. destruct (JobManager.truthy error); cbn; rewrite Ha;
      (split; [discriminate | intros [x Hx]; discriminate]).
Qed.

Lemma stored_unique (j j' : GenerationJob.t) (w : World) :
  stored E j w -> stored E j' w ->
  GenerationJob.job_id j' = GenerationJob.job_id j -> j' = j.
Proof. unfold stored. intros H H' Hid. rewrite Hid in H'. congruence. Qed.

Lemma completed_have_articles_resume (job_id : string) (w : World) :
  completed_have_articles w ->
  completed_have_articles (snd (SEOAgent.resume_job E job_id w)).
Proof.
  intros Hinv.
  destruct (fst (JobManager.get_job E job_id w)) as [[j|]|e] eqn:Hget.
  - destruct (get_job_Some_stored E _ _ _ Hget) as (Hid & Hs & _). subst job_id.
    destruct (get_job_Some E _ _ _ Hs) as (row & Hrow & _).
    pose proof (proj1 (stored_completed_with_article j w row Hs Hrow)
                  (Hinv _ row Hrow)) as Hj.
    destruct (decide (GenerationJob.status j = COMPLETED)) as [Hc|Hc].
    + rewrite (resume_job_completed E _ j w Hget Hc). exact Hinv.
    + assert (Hnoart : GenerationJob.article j = None).
      { destruct (GenerationJob.article j) as [a|] eqn:Ha; [|reflexivity].
        exfalso. apply Hc, Hj. eauto. }
      rewrite (resume_job_eq E j w Hs Hc).
      destruct (GenerationJob.serp_data j) as [d|].
      * destruct (finish_effects E d j w Hs)
          as (j' & Hget' & Hid' & _ & _ & _ & _ & _ & Hother & Hend).
        apply (completed_have_articles_step j' w); [exact Hinv | | |].
        -- unfold stored. rewrite Hid', Hget'. reflexivity.
        -- intros id Hne. rewrite Hid' in Hne. exact (Hother id Hne).
        -- destruct (fst (finish E d j w)) as [found|e].
           ++ destruct Hend as (_ & Hst & a & Ha & _). rewrite Hst, Ha.
              split; intros _; eauto.
           ++ destruct Hend as (_ & Hst & Ha). rewrite Hst, Ha, Hnoart.
              split; [discriminate | intros [x Hx]; discriminate].
      * unfold try_except.
        pose proof (completed_have_articles_generate (GenerationJob.request j) w Hinv)
          as Hgen.
        destruct (generate_article_effects E (GenerationJob.request j) w)
          as (jg & Hgetg & Hidg & _ & _ & _ & _ & _ & Hotherg & Hendg).
        destruct (SEOAgent.generate_article E (GenerationJob.request j) w)
          as [[found|e] w1]; cbn [fst snd] in *; [exact Hgen|].
        unfold resume_handler, bind.
        pose proof (completed_have_articles_failed (GenerationJob.job_id j)
                      (Some (exn_str e)) w1 Hgen) as Hupd.
        destruct (JobManager.update_job_status E (GenerationJob.job_id j) FAILED
                    (Some (exn_str e)) w1) as [[u|e'] w2]; cbn [snd] in *;
          apply Hupd; intros j1 Hs1 Hid1;
          (destruct (decide (GenerationJob.job_id j = uuid4 E (uuids_drawn w)))
             as [Heq|Hne];
           [ assert (Hsg : stored E jg w1)
               by (unfold stored; rewrite Hidg, Hgetg; reflexivity);
             assert (Hj1 : j1 = jg)
               by (apply (stored_unique jg j1 w1 Hsg Hs1); congruence);
             subst j1;
             destruct (GenerationJob.article jg) as [a|] eqn:Ha; [|reflexivity];
             exfalso;
             destruct (get_job_Some E _ _ _ Hsg) as (rowg & Hrowg & _);
             pose proof (proj1 (stored_completed_with_article jg w1 rowg Hsg Hrowg)
                           (Hgen _ rowg Hrowg)) as Hjg;
             rewrite Hendg in Hjg; destruct Hjg as [_ Hjg];
             specialize (Hjg ltac:(eauto)); discriminate
           | assert (Hs' : stored E j w1)
               by (apply (stored_same_row E j w w1); [apply Hotherg, Hne | exact Hs]);
             assert (Hj1 : j1 = j) by (apply (stored_unique j j1 w1 Hs' Hs1 Hid1));
             subst j1; exact Hnoart ]).
  - unfold SEOAgent.resume_job, bind. rewrite get_job_eq, Hget. exact Hinv.
  - unfold SEOAgent.resume_job, bind. rewrite get_job_eq, Hget. exact Hinv.
Qed.

End Completed.

(** X24. In the hands of the agent a job is completed exactly when it has
    an article: along any sequence of calls of [generate_article] and
    [resume_job], from a table of which this holds, every row has the status
    [completed] if and only if its column [article_data] is not NULL. *)
Theorem completed_exactly_with_article (E : Env) (ops : list op) (w : World)
    (job_id : string) (row : Row.t) :
  forallb is_agent_op ops = true ->
  completed_have_articles w ->
  db (run_ops E ops w) !! job_id = Some row ->
  (Row.status row = "completed" <-> is_Some (Row.article_data row)).
Proof.
  intros Hops Hinv. revert w Hinv. induction ops as [|o ops IH]; intros w Hinv Hrow.
  - exact (Hinv job_id row Hrow).
  - cbn in Hops. apply andb_true_iff in Hops. destruct Hops as [Ho Hops].
    apply (IH Hops (run_op E o w)); [|exact Hrow].
    destruct o as [request|id status error|id d|id a|request|id];
      try discriminate; cbn [run_op].
    + apply completed_have_articles_generate, Hinv.
    + apply completed_have_articles_resume, Hinv.
Qed.

Lemma completed_exactly_with_article_witness :
  Row.status resumed_row = "completed" <-> is_Some (Row.article_data resumed_row).
Proof.
  apply (completed_exactly_with_article flaky_env fail_then_resume empty_world
           "job-0" resumed_row).
  - reflexivity.
  - intros job_id row Hrow. cbn in Hrow. rewrite lookup_empty in Hrow.
    discriminate.
  - vm_compute. reflexivity.
Defined.

(** ** The two ends of a generation *)





